(** * DLoan: the LendingPlatform contract

    A shallow embedding of [contracts/LendingPlatform.sol] (Solidity ^0.8) and
    the properties of its loan lifecycle: request creation, funding, the
    amount due, repayment, liquidation, the price read and pausing.

    Conventions of the embedding.
    - [uint256] values are integers [Z]; Solidity 0.8 arithmetic is checked,
      so [+], [-], [*] and [/] are the [checked_*] operations below, which
      fail with [Panic 0x11] (overflow, underflow) or [Panic 0x12] (division
      by zero).  Division of unsigned integers truncates: [Z.quot].
    - A [mapping] is a finite map [gmap] read with the total lookup [!!!]: a
      key that was never written reads as the zero-initialised record.
    - A function that reverts returns [Err]; the transaction is then rolled
      back, so no new state is produced.  A [require] fails with [Revert]
      and its reason; an external function that is not [payable] starts with
      the compiler's check that no value is attached, which fails with
      [RevertNoData], a revert that carries no reason.  A function that
      returns produces
      the new state and the list of its externally visible actions (events
      and value transfers) in program order.
    - What the contract cannot decide itself is read from the call
      environment [Env]: sender, attached value, block timestamp, the answer
      of the price feed and whether a recipient accepts a value transfer
      (recipients are not modelled as calling back into the contract; the
      storage such a nested call would find has the reentrancy guard
      engaged).
    - The read-only functions are modelled as the internal reads they are
      when [repayLoan] calls [calculateAmountDueEth]. *)

From Stdlib Require Import ZArith Lia Bool List.
From stdpp Require Import gmap strings list.

Open Scope Z_scope.

(** ** Errors and results *)

Inductive error : Type :=
  | Revert (reason : string)
  | Panic (code : Z)
  | RevertNoData.

Inductive result (A : Type) : Type :=
  | Ok (a : A)
  | Err (e : error).

Arguments Ok {A} a.
Arguments Err {A} e.

#[global] Instance result_ret : MRet result := fun A a => Ok a.

#[global] Instance result_bind : MBind result := fun A B f m =>
  match m with
  | Ok a => f a
  | Err e => Err e
  end.

Definition is_Ok {A} (r : result A) : bool :=
  match r with Ok _ => true | Err _ => false end.

Definition require (cond : bool) (reason : string) : result unit :=
  if cond then Ok tt else Err (Revert reason).

(** ** Checked 256-bit arithmetic *)

Definition MAX_UINT256 : Z := 2 ^ 256 - 1.

Definition checked_add (a b : Z) : result Z :=
  if a + b <=? MAX_UINT256 then Ok (a + b) else Err (Panic 0x11).

Definition checked_sub (a b : Z) : result Z :=
  if b <=? a then Ok (a - b) else Err (Panic 0x11).

Definition checked_mul (a b : Z) : result Z :=
  if a * b <=? MAX_UINT256 then Ok (a * b) else Err (Panic 0x11).

Definition checked_div (a b : Z) : result Z :=
  if b =? 0 then Err (Panic 0x12) else Ok (a ÷ b).

Definition is_uint256 (x : Z) : bool := (0 <=? x) && (x <=? MAX_UINT256).

(** Solidity's time units and the literals of the contract. *)
Definition days : Z := 86400.
Definition hours : Z := 3600.
Definition _1e18 : Z := 10 ^ 18.
Definition _1e10 : Z := 10 ^ 10.

(** ** Data model *)

Definition address : Type := Z.
Definition bytes32 : Type := Z.

(** Modelled from the spec: [LoanTypes.sol], which declares the two records,
    is not among the sources.  Their fields are the ones the specification's
    data model lists and [LendingPlatform.sol] reads and writes, under the
    names the contract uses. *)
Module LoanRequest.
Record t : Type := mk {
    borrower : address;
    loanAmount : Z;
    duration : Z;
    isActive : bool;
    stake : Z;
    interestRate : Z;
    metadataCommitment : bytes32;
    encryptedCid : string;
    propertyIdCommitment : bytes32;
    appraisalEncryptedCid : string;
    propertyUnits : Z
  }.

Definition zero : t := mk 0 0 0 false 0 0 0 EmptyString 0 EmptyString 0.

Definition set_isActive (b : bool) (r : t) : t :=
    mk (borrower r) (loanAmount r) (duration r) b (stake r) (interestRate r)
       (metadataCommitment r) (encryptedCid r) (propertyIdCommitment r)
       (appraisalEncryptedCid r) (propertyUnits r).
End LoanRequest.

Module ActiveLoan.
Record t : Type := mk {
    borrower : address;
    lender : address;
    loanAmount : Z;
    stake : Z;
    startTimestamp : Z;
    endTime : Z;
    interestRate : Z;
    initialEthPrice : Z;
    propertyUnits : Z;
    isRepaid : bool
  }.

Definition zero : t := mk 0 0 0 0 0 0 0 0 0 false.

Definition set_isRepaid (b : bool) (l : t) : t :=
    mk (borrower l) (lender l) (loanAmount l) (stake l) (startTimestamp l)
       (endTime l) (interestRate l) (initialEthPrice l) (propertyUnits l) b.

  (** Every numeric field is a [uint256]. *)
Definition wf (l : t) : bool :=
    is_uint256 (loanAmount l) && is_uint256 (stake l)
    && is_uint256 (startTimestamp l) && is_uint256 (endTime l)
    && is_uint256 (interestRate l) && is_uint256 (initialEthPrice l).
End ActiveLoan.

#[global] Instance LoanRequest_inhabited : Inhabited LoanRequest.t :=
  populate LoanRequest.zero.
#[global] Instance ActiveLoan_inhabited : Inhabited ActiveLoan.t :=
  populate ActiveLoan.zero.

(** The answer of [AggregatorV3Interface.latestRoundData]. *)
Record RoundData : Type := {
  roundId : Z;
  answer : Z;          (* int256: may be zero or negative *)
  startedAt : Z;
  updatedAt : Z;
  answeredInRound : Z
}.

(** The call environment. *)
Record Env : Type := {
  msg_sender : address;
  msg_value : Z;
  block_timestamp : Z;
  latestRoundData : address -> RoundData;
  (* the boolean returned by [payable(to).call{value: v}] with empty calldata *)
  call_succeeds : address -> Z -> bool
}.

Inductive Event : Type :=
  | LoanRequested (requestId : Z) (borrower : address)
      (loanAmount durationInDays interestRate stake : Z)
  | LoanFunded (loanId requestId : Z) (lender : address) (initialEthPrice : Z)
  | LoanRepaid (loanId : Z) (borrower lender : address) (repayAmount : Z)
  | LoanLiquidated (loanId : Z) (lender : address) (collateralTransferred : Z)
  | OwnerUpdated (oldOwner newOwner : address)
  | Paused (by_ : address)
  | Unpaused (by_ : address)
  | ParamsUpdated (penaltyBp bonusBp staleness : Z)
  | OracleUpdated (newFeed : address)
  | RealEstateOracleUpdated (newOracle : address).

Inductive Action : Type :=
  | Emit (e : Event)
  | Transfer (to : address) (value : Z).

(** Contract storage.  Modelled from the spec: the two maps and the two
    counters ([loanRequests], [activeLoans], [totalRequests], [totalLoans])
    are declared in [LoanStorage.sol], which is not among the sources; the
    specification's ledger store "owns both maps plus two counters (next
    request id, next loan id)".  The other variables are those of
    [LendingPlatform]. *)
Record State : Type := {
  loanRequests : gmap Z LoanRequest.t;
  activeLoans : gmap Z ActiveLoan.t;
  totalRequests : Z;
  totalLoans : Z;
  _reentrancyStatus : Z;
  ethUsdFeed : address;
  demoFixedEthUsdPrice : Z;
  realEstateOracle : address;
  owner : address;
  paused : bool;
  overdueRepayPenaltyBp : Z;
  liquidationBonusBp : Z;
  maxPriceStalenessSeconds : Z;
  borrowerToLoanIds : gmap Z (list Z);
  lenderToLoanIds : gmap Z (list Z)
}.

Definition MAX_INTEREST_RATE : Z := 7.
Definition _ENTERED : Z := 1.
Definition _NOT_ENTERED : Z := 2.

Section Setters.
Variable st : State.

Definition set_loanRequests (m : gmap Z LoanRequest.t) : State :=
    {| loanRequests := m; activeLoans := activeLoans st;
       totalRequests := totalRequests st; totalLoans := totalLoans st;
       _reentrancyStatus := _reentrancyStatus st; ethUsdFeed := ethUsdFeed st;
       demoFixedEthUsdPrice := demoFixedEthUsdPrice st;
       realEstateOracle := realEstateOracle st; owner := owner st;
       paused := paused st; overdueRepayPenaltyBp := overdueRepayPenaltyBp st;
       liquidationBonusBp := liquidationBonusBp st;
       maxPriceStalenessSeconds := maxPriceStalenessSeconds st;
       borrowerToLoanIds := borrowerToLoanIds st;
       lenderToLoanIds := lenderToLoanIds st |}.

Definition set_activeLoans (m : gmap Z ActiveLoan.t) : State :=
    {| loanRequests := loanRequests st; activeLoans := m;
       totalRequests := totalRequests st; totalLoans := totalLoans st;
       _reentrancyStatus := _reentrancyStatus st; ethUsdFeed := ethUsdFeed st;
       demoFixedEthUsdPrice := demoFixedEthUsdPrice st;
       realEstateOracle := realEstateOracle st; owner := owner st;
       paused := paused st; overdueRepayPenaltyBp := overdueRepayPenaltyBp st;
       liquidationBonusBp := liquidationBonusBp st;
       maxPriceStalenessSeconds := maxPriceStalenessSeconds st;
       borrowerToLoanIds := borrowerToLoanIds st;
       lenderToLoanIds := lenderToLoanIds st |}.

Definition set_totalRequests (n : Z) : State :=
    {| loanRequests := loanRequests st; activeLoans := activeLoans st;
       totalRequests := n; totalLoans := totalLoans st;
       _reentrancyStatus := _reentrancyStatus st; ethUsdFeed := ethUsdFeed st;
       demoFixedEthUsdPrice := demoFixedEthUsdPrice st;
       realEstateOracle := realEstateOracle st; owner := owner st;
       paused := paused st; overdueRepayPenaltyBp := overdueRepayPenaltyBp st;
       liquidationBonusBp := liquidationBonusBp st;
       maxPriceStalenessSeconds := maxPriceStalenessSeconds st;
       borrowerToLoanIds := borrowerToLoanIds st;
       lenderToLoanIds := lenderToLoanIds st |}.

Definition set_totalLoans (n : Z) : State :=
    {| loanRequests := loanRequests st; activeLoans := activeLoans st;
       totalRequests := totalRequests st; totalLoans := n;
       _reentrancyStatus := _reentrancyStatus st; ethUsdFeed := ethUsdFeed st;
       demoFixedEthUsdPrice := demoFixedEthUsdPrice st;
       realEstateOracle := realEstateOracle st; owner := owner st;
       paused := paused st; overdueRepayPenaltyBp := overdueRepayPenaltyBp st;
       liquidationBonusBp := liquidationBonusBp st;
       maxPriceStalenessSeconds := maxPriceStalenessSeconds st;
       borrowerToLoanIds := borrowerToLoanIds st;
       lenderToLoanIds := lenderToLoanIds st |}.

Definition set_reentrancyStatus (s : Z) : State :=
    {| loanRequests := loanRequests st; activeLoans := activeLoans st;
       totalRequests := totalRequests st; totalLoans := totalLoans st;
       _reentrancyStatus := s; ethUsdFeed := ethUsdFeed st;
       demoFixedEthUsdPrice := demoFixedEthUsdPrice st;
       realEstateOracle := realEstateOracle st; owner := owner st;
       paused := paused st; overdueRepayPenaltyBp := overdueRepayPenaltyBp st;
       liquidationBonusBp := liquidationBonusBp st;
       maxPriceStalenessSeconds := maxPriceStalenessSeconds st;
       borrowerToLoanIds := borrowerToLoanIds st;
       lenderToLoanIds := lenderToLoanIds st |}.

Definition set_ethUsdFeed (a : address) : State :=
    {| loanRequests := loanRequests st; activeLoans := activeLoans st;
       totalRequests := totalRequests st; totalLoans := totalLoans st;
       _reentrancyStatus := _reentrancyStatus st; ethUsdFeed := a;
       demoFixedEthUsdPrice := demoFixedEthUsdPrice st;
       realEstateOracle := realEstateOracle st; owner := owner st;
       paused := paused st; overdueRepayPenaltyBp := overdueRepayPenaltyBp st;
       liquidationBonusBp := liquidationBonusBp st;
       maxPriceStalenessSeconds := maxPriceStalenessSeconds st;
       borrowerToLoanIds := borrowerToLoanIds st;
       lenderToLoanIds := lenderToLoanIds st |}.

Definition set_demoFixedEthUsdPrice (p : Z) : State :=
    {| loanRequests := loanRequests st; activeLoans := activeLoans st;
       totalRequests := totalRequests st; totalLoans := totalLoans st;
       _reentrancyStatus := _reentrancyStatus st; ethUsdFeed := ethUsdFeed st;
       demoFixedEthUsdPrice := p;
       realEstateOracle := realEstateOracle st; owner := owner st;
       paused := paused st; overdueRepayPenaltyBp := overdueRepayPenaltyBp st;
       liquidationBonusBp := liquidationBonusBp st;
       maxPriceStalenessSeconds := maxPriceStalenessSeconds st;
       borrowerToLoanIds := borrowerToLoanIds st;
       lenderToLoanIds := lenderToLoanIds st |}.

Definition set_realEstateOracle (a : address) : State :=
    {| loanRequests := loanRequests st; activeLoans := activeLoans st;
       totalRequests := totalRequests st; totalLoans := totalLoans st;
       _reentrancyStatus := _reentrancyStatus st; ethUsdFeed := ethUsdFeed st;
       demoFixedEthUsdPrice := demoFixedEthUsdPrice st;
       realEstateOracle := a; owner := owner st;
       paused := paused st; overdueRepayPenaltyBp := overdueRepayPenaltyBp st;
       liquidationBonusBp := liquidationBonusBp st;
       maxPriceStalenessSeconds := maxPriceStalenessSeconds st;
       borrowerToLoanIds := borrowerToLoanIds st;
       lenderToLoanIds := lenderToLoanIds st |}.

Definition set_owner (a : address) : State :=
    {| loanRequests := loanRequests st; activeLoans := activeLoans st;
       totalRequests := totalRequests st; totalLoans := totalLoans st;
       _reentrancyStatus := _reentrancyStatus st; ethUsdFeed := ethUsdFeed st;
       demoFixedEthUsdPrice := demoFixedEthUsdPrice st;
       realEstateOracle := realEstateOracle st; owner := a;
       paused := paused st; overdueRepayPenaltyBp := overdueRepayPenaltyBp st;
       liquidationBonusBp := liquidationBonusBp st;
       maxPriceStalenessSeconds := maxPriceStalenessSeconds st;
       borrowerToLoanIds := borrowerToLoanIds st;
       lenderToLoanIds := lenderToLoanIds st |}.

Definition set_paused (b : bool) : State :=
    {| loanRequests := loanRequests st; activeLoans := activeLoans st;
       totalRequests := totalRequests st; totalLoans := totalLoans st;
       _reentrancyStatus := _reentrancyStatus st; ethUsdFeed := ethUsdFeed st;
       demoFixedEthUsdPrice := demoFixedEthUsdPrice st;
       realEstateOracle := realEstateOracle st; owner := owner st;
       paused := b; overdueRepayPenaltyBp := overdueRepayPenaltyBp st;
       liquidationBonusBp := liquidationBonusBp st;
       maxPriceStalenessSeconds := maxPriceStalenessSeconds st;
       borrowerToLoanIds := borrowerToLoanIds st;
       lenderToLoanIds := lenderToLoanIds st |}.

Definition set_params (penaltyBp bonusBp staleness : Z) : State :=
    {| loanRequests := loanRequests st; activeLoans := activeLoans st;
       totalRequests := totalRequests st; totalLoans := totalLoans st;
       _reentrancyStatus := _reentrancyStatus st; ethUsdFeed := ethUsdFeed st;
       demoFixedEthUsdPrice := demoFixedEthUsdPrice st;
       realEstateOracle := realEstateOracle st; owner := owner st;
       paused := paused st; overdueRepayPenaltyBp := penaltyBp;
       liquidationBonusBp := bonusBp;
       maxPriceStalenessSeconds := staleness;
       borrowerToLoanIds := borrowerToLoanIds st;
       lenderToLoanIds := lenderToLoanIds st |}.

Definition set_loanIndexes (b l : gmap Z (list Z)) : State :=
    {| loanRequests := loanRequests st; activeLoans := activeLoans st;
       totalRequests := totalRequests st; totalLoans := totalLoans st;
       _reentrancyStatus := _reentrancyStatus st; ethUsdFeed := ethUsdFeed st;
       demoFixedEthUsdPrice := demoFixedEthUsdPrice st;
       realEstateOracle := realEstateOracle st; owner := owner st;
       paused := paused st; overdueRepayPenaltyBp := overdueRepayPenaltyBp st;
       liquidationBonusBp := liquidationBonusBp st;
       maxPriceStalenessSeconds := maxPriceStalenessSeconds st;
       borrowerToLoanIds := b;
       lenderToLoanIds := l |}.
End Setters.

(** The storage after the constructor ran with feed address [_ethUsdFeed],
    deployed by [deployer]. *)
Definition constructor (_ethUsdFeed deployer : address) : State :=
  {| loanRequests := ∅; activeLoans := ∅;
     totalRequests := 0; totalLoans := 0;
     _reentrancyStatus := _NOT_ENTERED;
     ethUsdFeed := (if _ethUsdFeed =? 0 then 0 else _ethUsdFeed);
     demoFixedEthUsdPrice := 2000 * _1e18;
     realEstateOracle := 0; owner := deployer; paused := false;
     overdueRepayPenaltyBp := 300; liquidationBonusBp := 300;
     maxPriceStalenessSeconds := 1 * hours;
     borrowerToLoanIds := ∅; lenderToLoanIds := ∅ |}.

(** ** Modifiers *)

Definition nonReentrant {A} (body : State -> result (State * A)) (st : State)
  : result (State * A) :=
  _ ← require (negb (_reentrancyStatus st =? _ENTERED))
        "ReentrancyGuard: reentrant call";
  '(st', a) ← body (set_reentrancyStatus st _ENTERED);
  Ok (set_reentrancyStatus st' _NOT_ENTERED, a).

Definition onlyOwner {A} (env : Env) (body : State -> result A) (st : State)
  : result A :=
  _ ← require (msg_sender env =? owner st) "Only owner";
  body st.

Definition whenNotPaused {A} (body : State -> result A) (st : State)
  : result A :=
  _ ← require (negb (paused st)) "Paused";
  body st.

(** The entry check of an external function that is not declared
    [payable]: the compiled function reverts, without a reason, when value
    is attached to the call, before any modifier or statement of the body
    runs. *)
Definition nonPayable {A} (env : Env) (body : State -> result A) (st : State)
  : result A :=
  if msg_value env =? 0 then body st else Err RevertNoData.

(** A value transfer [payable(to).call{value: v}] with empty calldata followed by
    [require(sent, reason)]. *)
Definition send (env : Env) (to : address) (v : Z) (reason : string)
  : result Action :=
  _ ← require (call_succeeds env to v) reason;
  Ok (Transfer to v).

(** ** LoanStorage *)

(** Modelled from the spec: [LoanStorage.sol] is not among the sources; the
    spec says the ledger store "assigns monotonically increasing identifiers"
    from two counters (next request id, next loan id), "sequential integer
    ids starting at 0".  The id handed out is the counter's value, and the
    counter is incremented (with the checked addition of Solidity 0.8). *)
Definition getNextRequestId (st : State) : result (State * Z) :=
  n ← checked_add (totalRequests st) 1;
  Ok (set_totalRequests st n, totalRequests st).

(** Modelled from the spec: the loan-id counter of [LoanStorage.sol], as
    [getNextRequestId]. *)
Definition getNextLoanId (st : State) : result (State * Z) :=
  n ← checked_add (totalLoans st) 1;
  Ok (set_totalLoans st n, totalLoans st).

(** ** The price read *)

Definition _getEthUsdPrice (st : State) (env : Env) : result Z :=
  if ethUsdFeed st =? 0 then Ok (demoFixedEthUsdPrice st)
  else
    let rd := latestRoundData env (ethUsdFeed st) in
    _ ← require (0 <? answer rd) "Invalid oracle price";
    age ← checked_sub (block_timestamp env) (updatedAt rd);
    _ ← require (age <=? maxPriceStalenessSeconds st) "Stale oracle price";
    checked_mul (answer rd) _1e10.

(** ** Amount due *)

Definition calculateAmountDueEth (st : State) (env : Env) (_loanId : Z)
  : result Z :=
  let loan := activeLoans st !!! _loanId in
  _ ← require (negb (ActiveLoan.isRepaid loan)) "Loan repaid";
  elapsed ← (if ActiveLoan.startTimestamp loan <? block_timestamp env
             then checked_sub (block_timestamp env) (ActiveLoan.startTimestamp loan)
             else Ok 0);
  principalUsd ← (x ← checked_mul (ActiveLoan.loanAmount loan)
                                  (ActiveLoan.initialEthPrice loan);
                  checked_div x _1e18);
  interestUsd ← (x ← checked_mul principalUsd (ActiveLoan.interestRate loan);
                 y ← checked_mul x elapsed;
                 checked_div y (365 * days * 100));
  totalUsd ← checked_add principalUsd interestUsd;
  currentPrice ← _getEthUsdPrice st env;
  x ← checked_mul totalUsd _1e18;
  checked_div x currentPrice.

Definition _applyOverduePenaltyEth (st : State) (env : Env)
    (_loanId baseDueEth : Z) : result Z :=
  if overdueRepayPenaltyBp st =? 0 then Ok baseDueEth
  else
    currentPrice ← _getEthUsdPrice st env;
    baseDueUsd ← (x ← checked_mul baseDueEth currentPrice; checked_div x _1e18);
    penaltyUsd ← (x ← checked_mul baseDueUsd (overdueRepayPenaltyBp st);
                  checked_div x 10000);
    totalUsd ← checked_add baseDueUsd penaltyUsd;
    x ← checked_mul totalUsd _1e18;
    checked_div x currentPrice.

(** ** The loan lifecycle *)

Definition createLoanRequest (st : State) (env : Env)
    (_loanAmount _durationInDays _interestRate : Z)
    (_metadataCommitment : bytes32) (_encryptedCid : string)
    (_propertyIdCommitment : bytes32) (_appraisalEncryptedCid : string)
    (_propertyUnits : Z) : result (State * list Action) :=
  whenNotPaused (fun st =>
    _ ← require (0 <? _loanAmount) "Loan amount must be greater than 0";
    _ ← require (0 <? _durationInDays) "Duration must be greater than 0";
    twice ← checked_mul _loanAmount 2;
    _ ← require (msg_value env =? twice)
          "Collateral must be exactly 2x loan amount";
    _ ← require (_interestRate <=? MAX_INTEREST_RATE)
          "Interest rate exceeds maximum allowed (7%)";
    _ ← require (0 <? _interestRate) "Interest rate must be greater than 0";
    '(st1, requestId) ← getNextRequestId st;
    let request :=
      LoanRequest.mk (msg_sender env) _loanAmount _durationInDays true
        (msg_value env) _interestRate _metadataCommitment _encryptedCid
        _propertyIdCommitment _appraisalEncryptedCid _propertyUnits in
    Ok (set_loanRequests st1 (<[requestId := request]> (loanRequests st1)),
        [Emit (LoanRequested requestId (msg_sender env) _loanAmount
                 _durationInDays _interestRate (msg_value env))])) st.

Definition fundLoanRequest (st : State) (env : Env) (_requestId : Z)
  : result (State * list Action) :=
  nonReentrant (whenNotPaused (fun st =>
    let request := loanRequests st !!! _requestId in
    _ ← require (LoanRequest.isActive request) "Request is not active";
    _ ← require (msg_value env =? LoanRequest.loanAmount request)
          "Must send exact loan amount";
    '(st1, loanId) ← getNextLoanId st;
    (* [loan] is a storage reference: the fields not assigned below keep
       the value the slot already holds *)
    let old := activeLoans st1 !!! loanId in
    dur ← checked_mul (LoanRequest.duration request) (1 * days);
    endTime ← checked_add (block_timestamp env) dur;
    price ← _getEthUsdPrice st1 env;
    let loan :=
      ActiveLoan.mk (LoanRequest.borrower request) (msg_sender env)
        (LoanRequest.loanAmount request) (LoanRequest.stake request)
        (block_timestamp env) endTime (LoanRequest.interestRate request)
        price (LoanRequest.propertyUnits request) (ActiveLoan.isRepaid old) in
    let st2 := set_activeLoans st1 (<[loanId := loan]> (activeLoans st1)) in
    let st3 := set_loanRequests st2
      (<[_requestId := LoanRequest.set_isActive false request]>
         (loanRequests st2)) in
    let st4 := set_loanIndexes st3
      (<[LoanRequest.borrower request :=
           (borrowerToLoanIds st3 !!! LoanRequest.borrower request) ++ [loanId]]>
         (borrowerToLoanIds st3))
      (lenderToLoanIds st3) in
    let st5 := set_loanIndexes st4
      (borrowerToLoanIds st4)
      (<[msg_sender env :=
           (lenderToLoanIds st4 !!! msg_sender env) ++ [loanId]]>
         (lenderToLoanIds st4)) in
    t ← send env (LoanRequest.borrower request) (msg_value env)
          "Borrower transfer failed";
    Ok (st5, [Emit (LoanFunded loanId _requestId (msg_sender env) price); t])))
  st.

Definition repayLoan (st : State) (env : Env) (_loanId _repayAmount : Z)
  : result (State * list Action) :=
  nonReentrant (whenNotPaused (fun st =>
    let loan := activeLoans st !!! _loanId in
    _ ← require (msg_sender env =? ActiveLoan.borrower loan)
          "Only borrower can repay";
    _ ← require (negb (ActiveLoan.isRepaid loan)) "Loan already repaid";
    _ ← require (0 <? msg_value env) "Invalid repay amount";
    base ← calculateAmountDueEth st env _loanId;
    dueEth ← (if ActiveLoan.endTime loan <? block_timestamp env
              then _applyOverduePenaltyEth st env _loanId base
              else Ok base);
    _ ← require (dueEth <=? msg_value env) "Insufficient repayment";
    let st1 := set_activeLoans st
      (<[_loanId := ActiveLoan.set_isRepaid true loan]> (activeLoans st)) in
    t1 ← send env (ActiveLoan.lender loan) dueEth "Lender transfer failed";
    t2 ← send env (ActiveLoan.borrower loan) (ActiveLoan.stake loan)
           "Collateral return failed";
    excess ← checked_sub (msg_value env) dueEth;
    refund ← (if 0 <? excess
              then t3 ← send env (ActiveLoan.borrower loan) excess
                          "Refund failed";
                   Ok [t3]
              else Ok []);
    Ok (st1, [t1; t2] ++ refund ++
             [Emit (LoanRepaid _loanId (ActiveLoan.borrower loan)
                      (ActiveLoan.lender loan) dueEth)]))) st.

Definition liquidateExpiredLoan (st : State) (env : Env) (_loanId : Z)
  : result (State * list Action) :=
  nonPayable env (nonReentrant (fun st =>
    let loan := activeLoans st !!! _loanId in
    _ ← require (negb (ActiveLoan.isRepaid loan)) "Loan is already repaid";
    _ ← require (ActiveLoan.endTime loan <? block_timestamp env)
          "Loan is not expired yet";
    let st1 := set_activeLoans st
      (<[_loanId := ActiveLoan.set_isRepaid true loan]> (activeLoans st)) in
    bonus ← (x ← checked_mul (ActiveLoan.stake loan) (liquidationBonusBp st);
             checked_div x 10000);
    toLender ← checked_sub (ActiveLoan.stake loan) bonus;
    t1 ← send env (msg_sender env) bonus "Bonus transfer failed";
    t2 ← send env (ActiveLoan.lender loan) toLender "Collateral transfer failed";
    Ok (st1, [t1; t2;
              Emit (LoanLiquidated _loanId (ActiveLoan.lender loan)
                      (ActiveLoan.stake loan))]))) st.

(** ** Owner controls *)

Definition transferOwnership (st : State) (env : Env) (newOwner : address)
  : result (State * list Action) :=
  nonPayable env (onlyOwner env (fun st =>
    _ ← require (negb (newOwner =? 0)) "zero address";
    Ok (set_owner st newOwner, [Emit (OwnerUpdated (owner st) newOwner)]))) st.

Definition pause (st : State) (env : Env) : result (State * list Action) :=
  nonPayable env (onlyOwner env (fun st =>
    Ok (set_paused st true, [Emit (Paused (msg_sender env))]))) st.

Definition unpause (st : State) (env : Env) : result (State * list Action) :=
  nonPayable env (onlyOwner env (fun st =>
    Ok (set_paused st false, [Emit (Unpaused (msg_sender env))]))) st.

Definition updateParams (st : State) (env : Env)
    (_overdueRepayPenaltyBp _liquidationBonusBp _maxPriceStalenessSeconds : Z)
  : result (State * list Action) :=
  nonPayable env (onlyOwner env (fun st =>
    _ ← require (_liquidationBonusBp <=? 5000) "bonus too high";
    _ ← require (_overdueRepayPenaltyBp <=? 5000) "penalty too high";
    Ok (set_params st _overdueRepayPenaltyBp _liquidationBonusBp
          _maxPriceStalenessSeconds,
        [Emit (ParamsUpdated _overdueRepayPenaltyBp _liquidationBonusBp
                 _maxPriceStalenessSeconds)]))) st.

Definition updateOracle (st : State) (env : Env) (_newFeed : address)
  : result (State * list Action) :=
  nonPayable env (onlyOwner env (fun st =>
    if _newFeed =? 0
    then Ok (set_ethUsdFeed st 0, [Emit (OracleUpdated _newFeed)])
    else Ok (set_ethUsdFeed st _newFeed, [Emit (OracleUpdated _newFeed)]))) st.

Definition setDemoFixedEthUsdPrice (st : State) (env : Env) (_price : Z)
  : result (State * list Action) :=
  nonPayable env (onlyOwner env (fun st =>
    _ ← require (0 <? _price) "price=0";
    Ok (set_demoFixedEthUsdPrice st _price, []))) st.

Definition updateRealEstateOracle (st : State) (env : Env) (_newOracle : address)
  : result (State * list Action) :=
  nonPayable env (onlyOwner env (fun st =>
    _ ← require (negb (_newOracle =? 0)) "zero address";
    Ok (set_realEstateOracle st _newOracle,
        [Emit (RealEstateOracleUpdated _newOracle)]))) st.

(** ** Transactions *)

(** The state-changing entry points of the contract. *)
Inductive Call : Type :=
  | CreateLoanRequest (_loanAmount _durationInDays _interestRate : Z)
      (_metadataCommitment : bytes32) (_encryptedCid : string)
      (_propertyIdCommitment : bytes32) (_appraisalEncryptedCid : string)
      (_propertyUnits : Z)
  | FundLoanRequest (_requestId : Z)
  | RepayLoan (_loanId _repayAmount : Z)
  | LiquidateExpiredLoan (_loanId : Z)
  | TransferOwnership (newOwner : address)
  | Pause
  | Unpause
  | UpdateParams (_overdueRepayPenaltyBp _liquidationBonusBp
                  _maxPriceStalenessSeconds : Z)
  | UpdateOracle (_newFeed : address)
  | SetDemoFixedEthUsdPrice (_price : Z)
  | UpdateRealEstateOracle (_newOracle : address).

Definition dispatch (st : State) (env : Env) (c : Call)
  : result (State * list Action) :=
  match c with
  | CreateLoanRequest a d r mc ec pc ac pu =>
      createLoanRequest st env a d r mc ec pc ac pu
  | FundLoanRequest i => fundLoanRequest st env i
  | RepayLoan i a => repayLoan st env i a
  | LiquidateExpiredLoan i => liquidateExpiredLoan st env i
  | TransferOwnership o => transferOwnership st env o
  | Pause => pause st env
  | Unpause => unpause st env
  | UpdateParams a b c => updateParams st env a b c
  | UpdateOracle f => updateOracle st env f
  | SetDemoFixedEthUsdPrice p => setDemoFixedEthUsdPrice st env p
  | UpdateRealEstateOracle o => updateRealEstateOracle st env o
  end.

(** The storage after a call: a call that reverts leaves it as it was. *)
Definition state_after (st : State) (r : result (State * list Action)) : State :=
  match r with
  | Ok (st', _) => st'
  | Err _ => st
  end.

Definition execute (st : State) (tx : Env * Call) : State :=
  state_after st (dispatch st tx.1 tx.2).

(** A sequence of transactions, oldest first. *)
Definition run (st : State) (txs : list (Env * Call)) : State :=
  fold_left execute txs st.


(** ** The specification's formula and concrete scenarios *)

(** The formula of the specification, in unbounded integers with truncating
    division: principal and interest in reference value at the price captured
    at funding, converted back at the current price. *)
Definition spec_amount_due
    (loanAmount rate initialPrice elapsed currentPrice : Z) : Z :=
  let principal_value := loanAmount * initialPrice ÷ 10 ^ 18 in
  let interest_value := principal_value * rate * elapsed ÷ (365 * 86400 * 100) in
  (principal_value + interest_value) * 10 ^ 18 ÷ currentPrice.

Definition spec_elapsed (now start : Z) : Z :=
  if now >? start then now - start else 0.

(** The example of the specification: 10 units lent at 5% for 365 days when
    the price is 2000 (18 decimals).  The request is created by account 10
    and funded by account 20 at time 1000, through the contract's own entry
    points (see [example_state] below). *)
Definition example_env (sender value now : Z) : Env :=
  {| msg_sender := sender; msg_value := value; block_timestamp := now;
     latestRoundData := fun _ => Build_RoundData 0 0 0 0 0;
     call_succeeds := fun _ _ => true |}.

Definition example_state : State :=
  run (constructor 0 99)
    [ (example_env 10 (20 * 10 ^ 18) 1000,
       CreateLoanRequest (10 * 10 ^ 18) 365 5 0 "cid" 0 "appraisal" 1);
      (example_env 20 (10 * 10 ^ 18) 1000, FundLoanRequest 0) ].

(** A request for 1000 units of the smallest denomination at 5%, created by
    account 10 and funded by account 20 at time 1000, through the contract's
    own entry points. *)
Definition small_loan_state : State :=
  run (constructor 0 99)
    [ (example_env 10 2000 1000, CreateLoanRequest 1000 30 5 0 "cid" 0 "appraisal" 1);
      (example_env 20 1000 1000, FundLoanRequest 0) ].


(** The storage after the owner (account 99) paused a freshly deployed
    platform. *)
Definition paused_state : State :=
  execute (constructor 0 99) (example_env 99 0 900, Pause).

(** The example platform, with its loan, after the owner paused it. *)
Definition paused_example_state : State :=
  execute example_state (example_env 99 0 2000, Pause).

(** The storage a recipient finds while [liquidateExpiredLoan] pays out:
    the reentrancy guard is engaged and the loan is already marked
    repaid. *)
Definition during_liquidation (st : State) (_loanId : Z) : State :=
  set_activeLoans (set_reentrancyStatus st _ENTERED)
    (<[_loanId := ActiveLoan.set_isRepaid true (activeLoans st !!! _loanId)]>
       (activeLoans st)).

(** The three entry points that carry [whenNotPaused], and liquidation. *)
Definition is_pausable (c : Call) : bool :=
  match c with
  | CreateLoanRequest _ _ _ _ _ _ _ _ | FundLoanRequest _ | RepayLoan _ _ => true
  | _ => false
  end.

Definition is_liquidation (tx : Env * Call) : bool :=
  match tx.2 with
  | LiquidateExpiredLoan _ => true
  | _ => false
  end.

(** The result of a call, with [f] applied to the storage it leaves. *)
Definition map_state (f : State -> State) (r : result (State * list Action))
  : result (State * list Action) :=
  match r with
  | Ok (st, acts) => Ok (f st, acts)
  | Err e => Err e
  end.

(** The storage a successful settlement of loan [_loanId] leaves. *)
Definition settled (st : State) (_loanId : Z) : State :=
  set_reentrancyStatus
    (set_activeLoans st
       (<[_loanId := ActiveLoan.set_isRepaid true (activeLoans st !!! _loanId)]>
          (activeLoans st)))
    _NOT_ENTERED.

(** The liquidation bonus of the specification: stake * bonusBp / 10000,
    truncated. *)
Definition spec_bonus (stake bonusBp : Z) : Z := stake * bonusBp ÷ 10000.

(** The calls that settle loan [_loanId]. *)
Definition settles (_loanId : Z) (c : Call) : bool :=
  match c with
  | RepayLoan i _ | LiquidateExpiredLoan i => i =? _loanId
  | _ => false
  end.

(** The example loan after account 30 liquidated it, one second after its
    end. *)
Definition liquidated_state : State :=
  execute example_state
    (example_env 30 0 (1001 + 365 * 86400), LiquidateExpiredLoan 0).

(** A freshly deployed platform after account 30 called liquidation on loan
    id 5, an id no funding ever allocated. *)
Definition phantom_state : State :=
  execute (constructor 0 99) (example_env 30 0 1, LiquidateExpiredLoan 5).

(** The overdue penalty of the specification: the base due converted to
    reference value at the current price, increased by penaltyBp / 10000 of
    that value, converted back at the same price (truncating divisions). *)
Definition spec_penalized_due (baseDue currentPrice penaltyBp : Z) : Z :=
  let value := baseDue * currentPrice ÷ 10 ^ 18 in
  (value + value * penaltyBp ÷ 10000) * 10 ^ 18 ÷ currentPrice.

(** An environment whose price feed answers [ans], last updated at [upd]. *)
Definition feed_env (sender value now ans upd : Z) : Env :=
  {| msg_sender := sender; msg_value := value; block_timestamp := now;
     latestRoundData := fun _ => Build_RoundData 1 ans upd upd 1;
     call_succeeds := fun _ _ => true |}.

(** The example platform after its owner configured the price feed at
    address 77. *)
Definition feed_state : State :=
  execute example_state (example_env 99 0 2000, UpdateOracle 77).

(** Two environments that describe the same call at the same time and may
    differ in what the price feed answers. *)
Definition same_call (env env' : Env) : Prop :=
  msg_sender env = msg_sender env' /\
  msg_value env = msg_value env' /\
  block_timestamp env = block_timestamp env'.


(** ** Well-formed transactions and the ledger invariant *)

(** The numeric arguments of a transaction are [uint256]s. *)
Definition wf_env (env : Env) : bool :=
  is_uint256 (msg_value env) && is_uint256 (block_timestamp env).

Definition wf_call (c : Call) : bool :=
  match c with
  | CreateLoanRequest a d r _ _ _ _ pu =>
      is_uint256 a && is_uint256 d && is_uint256 r && is_uint256 pu
  | FundLoanRequest i | LiquidateExpiredLoan i => is_uint256 i
  | RepayLoan i a => is_uint256 i && is_uint256 a
  | UpdateParams a b c => is_uint256 a && is_uint256 b && is_uint256 c
  | SetDemoFixedEthUsdPrice p => is_uint256 p
  | TransferOwnership _ | Pause | Unpause | UpdateOracle _
  | UpdateRealEstateOracle _ => true
  end.

Definition wf_tx (tx : Env * Call) : bool := wf_env tx.1 && wf_call tx.2.

(** What holds of the administered parameters between transactions. *)
Record config_invariant (st : State) : Prop := {
  inv_status : _reentrancyStatus st = _NOT_ENTERED;
  inv_bonus : 0 <= liquidationBonusBp st <= 5000;
  inv_penalty : 0 <= overdueRepayPenaltyBp st <= 5000;
  inv_fixed_price : 0 < demoFixedEthUsdPrice st <= MAX_UINT256;
  inv_staleness : 0 <= maxPriceStalenessSeconds st <= MAX_UINT256
}.

(** What holds of every request slot: the stake is twice the amount, the
    rate is at most 7, and an active request has a positive amount and
    rate. *)
Definition request_invariant (r : LoanRequest.t) : Prop :=
  LoanRequest.stake r = 2 * LoanRequest.loanAmount r /\
  0 <= LoanRequest.loanAmount r /\
  LoanRequest.stake r <= MAX_UINT256 /\
  0 <= LoanRequest.interestRate r <= MAX_INTEREST_RATE /\
  0 <= LoanRequest.duration r /\
  (LoanRequest.isActive r = true ->
   0 < LoanRequest.loanAmount r /\ 0 < LoanRequest.interestRate r).

(** What holds of every loan slot: the stake is twice the amount, the rate
    is at most 7, the end is not before the start, and every numeric field
    is a [uint256]. *)
Definition loan_invariant (l : ActiveLoan.t) : Prop :=
  ActiveLoan.stake l = 2 * ActiveLoan.loanAmount l /\
  ActiveLoan.interestRate l <= MAX_INTEREST_RATE /\
  ActiveLoan.startTimestamp l <= ActiveLoan.endTime l /\
  ActiveLoan.wf l = true.

Record ledger_invariant (st : State) : Prop := {
  inv_config : config_invariant st;
  inv_requests : forall id, request_invariant (loanRequests st !!! id);
  inv_loans : forall id, loan_invariant (activeLoans st !!! id)
}.

(** * The rest of the platform

    The entry points and collaborators the properties above do not reach:
    the read-only views of [LendingPlatform.sol], the real-estate index
    oracle of [RealEstateOracle.sol] with the platform's read of it, and the
    value the borrower dashboard attaches to a repayment. *)

(** ** Views of [LendingPlatform] *)

Definition checkLoanStatus (st : State) (_loanId : Z)
  : bool * Z * Z * Z * Z * Z :=
  let loan := activeLoans st !!! _loanId in
  (ActiveLoan.isRepaid loan, ActiveLoan.loanAmount loan,
   ActiveLoan.startTimestamp loan, ActiveLoan.endTime loan,
   ActiveLoan.interestRate loan, ActiveLoan.initialEthPrice loan).

Definition getBorrowerLoanIds (st : State) (borrower : address) : list Z :=
  borrowerToLoanIds st !!! borrower.

Definition getLenderLoanIds (st : State) (lender : address) : list Z :=
  lenderToLoanIds st !!! lender.

(** A write [arr[i] = x] into a memory array: out of bounds it fails with
    [Panic 0x32]. *)
Definition array_set {A} (arr : list A) (i : Z) (x : A) : result (list A) :=
  if (0 <=? i) && (i <? Z.of_nat (length arr))
  then Ok (<[Z.to_nat i := x]> arr)
  else Err (Panic 0x32).

(** A loop [for (i = 0; i < n; i++)] whose body updates the local variables
    [s] and may fail: the body is run on the indices in order. *)
Fixpoint for_each {S} (body : S -> Z -> result S) (indices : list Z) (s : S)
  : result S :=
  match indices with
  | [] => Ok s
  | i :: rest => s' ← body s i; for_each body rest s'
  end.

(** The first pass of a view: count the ids below [n] that satisfy [P]. *)
Definition count_loop (P : Z -> bool) (n : Z) : result Z :=
  for_each (fun count i => if P i then checked_add count 1 else Ok count)
    (seqZ 0 n) 0.

(** The second pass: write the matching ids and their records into the two
    arrays allocated for them, at consecutive positions. *)
Definition fill_loop {A} (P : Z -> bool) (read : Z -> A) (n : Z)
    (ids : list Z) (records : list A) : result (list Z * list A) :=
  '(ids', records', _) ←
    for_each
      (fun '(ids, records, index) i =>
         if P i
         then ids1 ← array_set ids index i;
              records1 ← array_set records index (read i);
              index1 ← checked_add index 1;
              Ok (ids1, records1, index1)
         else Ok (ids, records, index))
      (seqZ 0 n) (ids, records, 0);
  Ok (ids', records').

Definition getBorrowerActiveLoans (st : State) (_borrower : address)
  : result (list Z * list LoanRequest.t) :=
  let matches i :=
    LoanRequest.borrower (loanRequests st !!! i) =? _borrower in
  activeCount ← count_loop matches (totalRequests st);
  fill_loop matches (fun i => loanRequests st !!! i) (totalRequests st)
    (replicate (Z.to_nat activeCount) 0)
    (replicate (Z.to_nat activeCount) LoanRequest.zero).

Definition getAllActiveLoans (st : State)
  : result (list Z * list ActiveLoan.t * list Z * list LoanRequest.t) :=
  let unrepaid i := negb (ActiveLoan.isRepaid (activeLoans st !!! i)) in
  let active i := LoanRequest.isActive (loanRequests st !!! i) in
  activeCount ← count_loop unrepaid (totalLoans st);
  requestCount ← count_loop active (totalRequests st);
  '(loanIds, loans) ←
    fill_loop unrepaid (fun i => activeLoans st !!! i) (totalLoans st)
      (replicate (Z.to_nat activeCount) 0)
      (replicate (Z.to_nat activeCount) ActiveLoan.zero);
  '(requestIds, requests) ←
    fill_loop active (fun i => loanRequests st !!! i) (totalRequests st)
      (replicate (Z.to_nat requestCount) 0)
      (replicate (Z.to_nat requestCount) LoanRequest.zero);
  Ok (loanIds, loans, requestIds, requests).

(** The platform's read of the real-estate index.  [latestIndex] is the
    answer of the contract at the configured address. *)
Definition getRealEstateIndex (st : State) (latestIndex : address -> Z * Z)
  : result (Z * Z) :=
  _ ← require (negb (realEstateOracle st =? 0)) "RWA oracle not set";
  let '(v, d) := latestIndex (realEstateOracle st) in
  _ ← require (0 <? v) "invalid RWA index";
  Ok (v, d).

(** ** [RealEstateOracle.sol] *)

Module RealEstateOracle.

Record State : Type := {
  indexValue : Z;       (* int256 *)
  owner : address
}.

Inductive Event : Type :=
  | IndexUpdated (newValue : Z)
  | OwnershipTransferred (previousOwner newOwner : address).

Definition constructor (initialValue : Z) (deployer : address)
  : State * list Event :=
  ({| indexValue := initialValue; owner := deployer |},
   [OwnershipTransferred 0 deployer]).

Definition onlyOwner {A} (sender : address) (body : State -> result A)
    (st : State) : result A :=
  _ ← require (sender =? owner st) "not owner";
  body st.

Definition transferOwnership (st : State) (sender newOwner : address)
  : result (State * list Event) :=
  onlyOwner sender (fun st =>
    _ ← require (negb (newOwner =? 0)) "zero address";
    Ok ({| indexValue := indexValue st; owner := newOwner |},
        [OwnershipTransferred (owner st) newOwner])) st.

Definition setIndexValue (st : State) (sender : address) (newValue : Z)
  : result (State * list Event) :=
  onlyOwner sender (fun st =>
    _ ← require (0 <? newValue) "invalid value";
    Ok ({| indexValue := newValue; owner := owner st |},
        [IndexUpdated newValue])) st.

Definition latestIndex (st : State) : Z * Z := (indexValue st, 8).

(** The oracle's entry points, and a sequence of calls to it. *)
Inductive Call : Type :=
  | TransferOwnership (newOwner : address)
  | SetIndexValue (newValue : Z).

Definition execute (st : State) (tx : address * Call) : State :=
  let r := match tx.2 with
           | TransferOwnership o => transferOwnership st tx.1 o
           | SetIndexValue v => setIndexValue st tx.1 v
           end in
  match r with
  | Ok (st', _) => st'
  | Err _ => st
  end.

Definition run (st : State) (txs : list (address * Call)) : State :=
  fold_left execute txs st.

End RealEstateOracle.

(** ** The borrower dashboard *)

(** The value the dashboard's [repayLoan] attaches to a repayment: the
    amount [calculateAmountDueEth] reported plus a buffer of 0.1%, at least
    10^12 (arbitrary-precision integers, truncating division). *)
Definition frontend_valueToSend (due : Z) : Z :=
  let buffer := due ÷ 1000 in
  let minBuffer := 1000000000000 in
  due + (if buffer >? minBuffer then buffer else minBuffer).

(** ** Bookkeeping for the properties below *)

(** The value a call sends out of the contract. *)
Definition outflow (acts : list Action) : Z :=
  fold_right (fun a total =>
                match a with
                | Transfer _ v => v + total
                | Emit _ => total
                end) 0 acts.

(** The storage a successful funding of request [_requestId] at price
    [price] leaves. *)
Definition funded (st : State) (env : Env) (_requestId price : Z) : State :=
  let request := loanRequests st !!! _requestId in
  let loanId := totalLoans st in
  let loan :=
    ActiveLoan.mk (LoanRequest.borrower request) (msg_sender env)
      (LoanRequest.loanAmount request) (LoanRequest.stake request)
      (block_timestamp env)
      (block_timestamp env + LoanRequest.duration request * 86400)
      (LoanRequest.interestRate request) price
      (LoanRequest.propertyUnits request)
      (ActiveLoan.isRepaid (activeLoans st !!! loanId)) in
  let borrowers :=
    <[LoanRequest.borrower request :=
        (borrowerToLoanIds st !!! LoanRequest.borrower request) ++ [loanId]]>
      (borrowerToLoanIds st) in
  let lenders :=
    <[msg_sender env := (lenderToLoanIds st !!! msg_sender env) ++ [loanId]]>
      (lenderToLoanIds st) in
  set_reentrancyStatus
    (set_loanIndexes
       (set_loanRequests
          (set_activeLoans (set_totalLoans st (totalLoans st + 1))
             (<[loanId := loan]> (activeLoans st)))
          (<[_requestId := LoanRequest.set_isActive false request]>
             (loanRequests st)))
       borrowers lenders)
    _NOT_ENTERED.

(** The terms of a loan: every field but the repaid flag. *)
Definition loan_terms (l : ActiveLoan.t) : ActiveLoan.t :=
  ActiveLoan.set_isRepaid false l.

(** The terms of a request: every field but the active flag. *)
Definition request_terms (r : LoanRequest.t) : LoanRequest.t :=
  LoanRequest.set_isActive false r.

(** The administrative calls. *)
Definition is_admin (c : Call) : bool :=
  match c with
  | TransferOwnership _ | Pause | Unpause | UpdateParams _ _ _
  | UpdateOracle _ | SetDemoFixedEthUsdPrice _ | UpdateRealEstateOracle _ =>
      true
  | _ => false
  end.

(** The platform after account 10 created the small request of
    [small_loan_state], before anyone funded it. *)
Definition requested_state : State :=
  execute (constructor 0 99)
    (example_env 10 2000 1000, CreateLoanRequest 1000 30 5 0 "cid" 0 "appraisal" 1).

(** Two states with the same ledger: requests, loans, counters and the two
    per-party lists. *)
Definition same_ledger (st st' : State) : Prop :=
  loanRequests st' = loanRequests st /\
  activeLoans st' = activeLoans st /\
  totalRequests st' = totalRequests st /\
  totalLoans st' = totalLoans st /\
  borrowerToLoanIds st' = borrowerToLoanIds st /\
  lenderToLoanIds st' = lenderToLoanIds st.

(** The storage a successful request creation leaves. *)
Definition requested (st : State) (env : Env)
    (a d r : Z) (mc : bytes32) (ec : string) (pc : bytes32) (ac : string)
    (pu : Z) : State :=
  set_loanRequests (set_totalRequests st (totalRequests st + 1))
    (<[totalRequests st :=
         LoanRequest.mk (msg_sender env) a d true (msg_value env) r
           mc ec pc ac pu]> (loanRequests st)).

(** The value a call of each kind is due to send out. *)
Definition expected_outflow (st : State) (env : Env) (c : Call) : Z :=
  match c with
  | FundLoanRequest _ => msg_value env
  | RepayLoan i _ => msg_value env + ActiveLoan.stake (activeLoans st !!! i)
  | LiquidateExpiredLoan i => ActiveLoan.stake (activeLoans st !!! i)
  | _ => 0
  end.

(** A fresh platform on which account 30 liquidated loan id 0 before any
    loan existed, and account 10 then created the small request. *)
Definition premarked_state : State :=
  run (constructor 0 99)
    [ (example_env 30 0 1, LiquidateExpiredLoan 0);
      (example_env 10 2000 1000,
       CreateLoanRequest 1000 30 5 0 "cid" 0 "appraisal" 1) ].

(** The administered configuration of the platform. *)
Definition admin_config (st : State)
  : address * bool * Z * Z * Z * address * Z * address :=
  (owner st, paused st, overdueRepayPenaltyBp st, liquidationBonusBp st,
   maxPriceStalenessSeconds st, ethUsdFeed st, demoFixedEthUsdPrice st,
   realEstateOracle st).

(** The example platform after its owner configured the real-estate oracle
    at address 55. *)
Definition indexed_state : State :=
  execute example_state (example_env 99 0 2000, UpdateRealEstateOracle 55).

(** The oracle deployed by account 99 with index 100. *)
Definition example_oracle : RealEstateOracle.State :=
  (RealEstateOracle.constructor 100 99).1.

(** ** The value the platform holds *)

(** The entry points declared [payable]; the others reject attached value. *)
Definition is_payable (c : Call) : bool :=
  match c with
  | CreateLoanRequest _ _ _ _ _ _ _ _ | FundLoanRequest _ | RepayLoan _ _ => true
  | _ => false
  end.

(** The sum of [f] over the ids [0 .. n-1]. *)
Definition sum_upto (f : Z -> Z) (n : Z) : Z :=
  foldr (fun i acc => f i + acc) 0 (seqZ 0 n).

(** The stake a request slot holds for its borrower: that of an active
    request. *)
Definition request_locked (st : State) (i : Z) : Z :=
  let r := loanRequests st !!! i in
  if LoanRequest.isActive r then LoanRequest.stake r else 0.

(** The stake a loan slot holds: that of a loan not yet repaid or
    liquidated. *)
Definition loan_locked (st : State) (i : Z) : Z :=
  let l := activeLoans st !!! i in
  if ActiveLoan.isRepaid l then 0 else ActiveLoan.stake l.

(** All the stakes the platform owes back or has pledged. *)
Definition locked (st : State) : Z :=
  sum_upto (request_locked st) (totalRequests st)
  + sum_upto (loan_locked st) (totalLoans st).

(** The contract's balance after a transaction: a successful call adds the
    attached value and removes what it sends out; a reverted one changes
    nothing. *)
Definition balance_step (st : State) (balance : Z) (tx : Env * Call) : Z :=
  match dispatch st tx.1 tx.2 with
  | Ok (_, acts) => balance + msg_value tx.1 - outflow acts
  | Err _ => balance
  end.

Fixpoint balance_after (st : State) (balance : Z) (txs : list (Env * Call))
  : Z :=
  match txs with
  | [] => balance
  | tx :: rest => balance_after (execute st tx) (balance_step st balance tx) rest
  end.

(** What ties the ledger to a balance: the counters are not negative, only
    created requests are active, unallocated loan slots hold no stake, and
    the balance covers the locked stakes. *)
Record solvent (st : State) (balance : Z) : Prop := {
  sol_requests : 0 <= totalRequests st;
  sol_loans : 0 <= totalLoans st;
  sol_active : forall i,
    LoanRequest.isActive (loanRequests st !!! i) = true ->
    0 <= i < totalRequests st;
  sol_unused : forall i,
    ~ (0 <= i < totalLoans st) -> ActiveLoan.stake (activeLoans st !!! i) = 0;
  sol_covered : locked st <= balance
}.

(** A well-formed transaction that attaches value only to a payable entry
    point, as the compiled contract requires. *)
Definition payable_tx (tx : Env * Call) : bool :=
  wf_tx tx && (is_payable tx.2 || (msg_value tx.1 =? 0)).
(** * Properties *)

(** ** The result monad and the checked operations *)

Lemma bind_Ok {A B} (a : A) (f : A -> result B) : (Ok a ≫= f) = f a.
Proof. reflexivity. Qed.

Lemma bind_Err {A B} (e : error) (f : A -> result B) : (Err e ≫= f) = Err e.
Proof. reflexivity. Qed.

Lemma bind_Ok_inv {A B} (m : result A) (f : A -> result B) (b : B) :
  (m ≫= f) = Ok b -> exists a, m = Ok a /\ f a = Ok b.
Proof. destruct m as [a|e]; [eauto | discriminate]. Qed.

Lemma require_true (reason : string) : require true reason = Ok tt.
Proof. reflexivity. Qed.

Lemma require_false (reason : string) :
  require false reason = Err (Revert reason).
Proof. reflexivity. Qed.

Lemma checked_add_Ok (a b : Z) :
  a + b <= MAX_UINT256 -> checked_add a b = Ok (a + b).
Proof. intros H. unfold checked_add. by rewrite (proj2 (Z.leb_le _ _) H). Qed.

Lemma checked_sub_Ok (a b : Z) : b <= a -> checked_sub a b = Ok (a - b).
Proof. intros H. unfold checked_sub. by rewrite (proj2 (Z.leb_le _ _) H). Qed.

Lemma checked_mul_Ok (a b : Z) :
  a * b <= MAX_UINT256 -> checked_mul a b = Ok (a * b).
Proof. intros H. unfold checked_mul. by rewrite (proj2 (Z.leb_le _ _) H). Qed.

Lemma checked_div_Ok (a b : Z) : b <> 0 -> checked_div a b = Ok (a ÷ b).
Proof. intros H. unfold checked_div. by rewrite (proj2 (Z.eqb_neq _ _) H). Qed.

Lemma checked_add_Ok_inv (a b c : Z) :
  checked_add a b = Ok c -> c = a + b /\ a + b <= MAX_UINT256.
Proof.
  unfold checked_add. destruct (Z.leb_spec (a + b) MAX_UINT256); [|discriminate].
  intros [= <-]. auto.
Qed.

Lemma checked_mul_Ok_inv (a b c : Z) :
  checked_mul a b = Ok c -> c = a * b /\ a * b <= MAX_UINT256.
Proof.
  unfold checked_mul. destruct (Z.leb_spec (a * b) MAX_UINT256); [|discriminate].
  intros [= <-]. auto.
Qed.

Lemma checked_div_Ok_inv (a b c : Z) :
  checked_div a b = Ok c -> c = a ÷ b /\ b <> 0.
Proof.
  unfold checked_div. destruct (Z.eqb_spec b 0); [discriminate|].
  intros [= <-]. auto.
Qed.

Lemma is_uint256_spec (x : Z) : is_uint256 x = true <-> 0 <= x <= MAX_UINT256.
Proof. unfold is_uint256. rewrite andb_true_iff, !Z.leb_le. tauto. Qed.

Lemma ActiveLoan_wf_spec (l : ActiveLoan.t) :
  ActiveLoan.wf l = true ->
  0 <= ActiveLoan.loanAmount l /\ 0 <= ActiveLoan.stake l /\
  0 <= ActiveLoan.startTimestamp l /\ 0 <= ActiveLoan.endTime l /\
  0 <= ActiveLoan.interestRate l /\ 0 <= ActiveLoan.initialEthPrice l.
Proof.
  unfold ActiveLoan.wf. rewrite !andb_true_iff, !is_uint256_spec. tauto.
Qed.

Lemma constants_eval :
  365 * days * 100 = 3153600000 /\ _1e18 = 1000000000000000000 /\
  _1e10 = 10000000000 /\ 1 * days = 86400.
Proof. by vm_compute. Qed.

(** ** The amount due (C1) *)

Lemma calculateAmountDueEth_repaid st env _loanId :
  ActiveLoan.isRepaid (activeLoans st !!! _loanId) = true ->
  calculateAmountDueEth st env _loanId = Err (Revert "Loan repaid").
Proof. intros H. unfold calculateAmountDueEth. by rewrite H. Qed.

(** The amount due when nothing overflows: shared by the theorems on the
    amount due, on repayment and on monotonicity. *)
Lemma calculateAmountDueEth_value st env _loanId currentPrice :
  let loan := activeLoans st !!! _loanId in
  let elapsed :=
    spec_elapsed (block_timestamp env) (ActiveLoan.startTimestamp loan) in
  let principal :=
    ActiveLoan.loanAmount loan * ActiveLoan.initialEthPrice loan ÷ 10 ^ 18 in
  let interest :=
    principal * ActiveLoan.interestRate loan * elapsed ÷ (365 * 86400 * 100) in
  ActiveLoan.isRepaid loan = false ->
  _getEthUsdPrice st env = Ok currentPrice ->
  currentPrice <> 0 ->
  ActiveLoan.loanAmount loan * ActiveLoan.initialEthPrice loan <= MAX_UINT256 ->
  principal * ActiveLoan.interestRate loan <= MAX_UINT256 ->
  principal * ActiveLoan.interestRate loan * elapsed <= MAX_UINT256 ->
  principal + interest <= MAX_UINT256 ->
  (principal + interest) * 10 ^ 18 <= MAX_UINT256 ->
  calculateAmountDueEth st env _loanId =
    Ok (spec_amount_due (ActiveLoan.loanAmount loan)
          (ActiveLoan.interestRate loan) (ActiveLoan.initialEthPrice loan)
          elapsed currentPrice).
Proof.
  intros loan elapsed principal interest Hrep Hprice Hp H1 H2 H3 H4 H5.
  unfold calculateAmountDueEth. fold loan. rewrite Hrep. cbn [negb].
  rewrite require_true, bind_Ok.
  assert (Hel : (if ActiveLoan.startTimestamp loan <? block_timestamp env
                 then checked_sub (block_timestamp env)
                        (ActiveLoan.startTimestamp loan)
                 else Ok 0) = Ok elapsed).
  { unfold elapsed, spec_elapsed. rewrite Z.gtb_ltb.
    destruct (Z.ltb_spec (ActiveLoan.startTimestamp loan) (block_timestamp env));
      [|reflexivity].
    apply checked_sub_Ok. lia. }
  rewrite Hel, bind_Ok.
  destruct constants_eval as (Hy & H18 & _ & _).
  rewrite Hy, H18.
  change (10 ^ 18) with 1000000000000000000 in *.
  change (365 * 86400 * 100) with 3153600000 in *.
  fold principal in H2, H3, H4, H5 |- *.
  rewrite (checked_mul_Ok _ _ H1), bind_Ok.
  rewrite checked_div_Ok by lia. rewrite bind_Ok.
  fold principal.
  rewrite (checked_mul_Ok _ _ H2), bind_Ok.
  rewrite (checked_mul_Ok _ _ H3), bind_Ok.
  rewrite checked_div_Ok by lia. rewrite bind_Ok.
  fold interest.
  rewrite (checked_add_Ok _ _ H4), bind_Ok.
  rewrite Hprice, bind_Ok.
  rewrite (checked_mul_Ok _ _ H5), bind_Ok.
  rewrite (checked_div_Ok _ _ Hp).
  reflexivity.
Qed.

Lemma elapsed_eval (now start : Z) :
  (if start <? now then checked_sub now start else Ok 0)
  = Ok (spec_elapsed now start).
Proof.
  unfold spec_elapsed. rewrite Z.gtb_ltb.
  destruct (Z.ltb_spec start now); [|reflexivity].
  apply checked_sub_Ok. lia.
Qed.

Lemma spec_elapsed_nonneg (now start : Z) : 0 <= spec_elapsed now start.
Proof. unfold spec_elapsed. rewrite Z.gtb_ltb. destruct (Z.ltb_spec start now); lia. Qed.

Lemma spec_elapsed_mono (now1 now2 start : Z) :
  now1 <= now2 -> spec_elapsed now1 start <= spec_elapsed now2 start.
Proof.
  intros H. unfold spec_elapsed. rewrite !Z.gtb_ltb.
  destruct (Z.ltb_spec start now1), (Z.ltb_spec start now2); lia.
Qed.

Tactic Notation "inv_bind" hyp(H) "as" ident(x) ident(Hx) :=
  apply bind_Ok_inv in H as (x & Hx & H).

(** Whenever the amount due is returned, it is the value of the formula and
    no intermediate result left the 256-bit range. *)
Lemma calculateAmountDueEth_Ok_inv st env _loanId due :
  let loan := activeLoans st !!! _loanId in
  let elapsed :=
    spec_elapsed (block_timestamp env) (ActiveLoan.startTimestamp loan) in
  let principal :=
    ActiveLoan.loanAmount loan * ActiveLoan.initialEthPrice loan ÷ 10 ^ 18 in
  let interest :=
    principal * ActiveLoan.interestRate loan * elapsed ÷ (365 * 86400 * 100) in
  calculateAmountDueEth st env _loanId = Ok due ->
  ActiveLoan.isRepaid loan = false /\
  exists currentPrice,
    _getEthUsdPrice st env = Ok currentPrice /\ currentPrice <> 0 /\
    ActiveLoan.loanAmount loan * ActiveLoan.initialEthPrice loan <= MAX_UINT256 /\
    principal * ActiveLoan.interestRate loan <= MAX_UINT256 /\
    principal * ActiveLoan.interestRate loan * elapsed <= MAX_UINT256 /\
    principal + interest <= MAX_UINT256 /\
    (principal + interest) * 10 ^ 18 <= MAX_UINT256 /\
    due = spec_amount_due (ActiveLoan.loanAmount loan)
            (ActiveLoan.interestRate loan) (ActiveLoan.initialEthPrice loan)
            elapsed currentPrice.
Proof.
  intros loan elapsed principal interest H.
  unfold calculateAmountDueEth in H. fold loan in H.
  destruct (ActiveLoan.isRepaid loan) eqn:Hrep; [discriminate H|].
  split; [reflexivity|].
  cbn [negb] in H. rewrite require_true, bind_Ok in H.
  rewrite elapsed_eval, bind_Ok in H. fold elapsed in H.
  destruct constants_eval as (Hy & H18 & _ & _). rewrite Hy, H18 in H.
  inv_bind H as pr Hpr. inv_bind Hpr as m1 Hm1.
  apply checked_mul_Ok_inv in Hm1 as [-> Hb1].
  apply checked_div_Ok_inv in Hpr as [-> _].
  inv_bind H as it Hit. inv_bind Hit as m2 Hm2. inv_bind Hit as m3 Hm3.
  apply checked_mul_Ok_inv in Hm2 as [-> Hb2].
  apply checked_mul_Ok_inv in Hm3 as [-> Hb3].
  apply checked_div_Ok_inv in Hit as [-> _].
  inv_bind H as tot Htot. apply checked_add_Ok_inv in Htot as [-> Hb4].
  inv_bind H as p Hprice. inv_bind H as m5 Hm5.
  apply checked_mul_Ok_inv in Hm5 as [-> Hb5].
  apply checked_div_Ok_inv in H as [-> Hp].
  exists p. repeat split; try assumption.
Qed.

(** C1.  [calculateAmountDueEth] fails with "Loan repaid" on a settled loan;
    on an unsettled loan, with [currentPrice] the price the oracle adapter
    returns and every intermediate value within 256 bits, it returns exactly
    ((loanAmount * initialPrice / 10^18) + (loanAmount * initialPrice / 10^18)
    * rate * elapsed / (365 days * 100)) * 10^18 / currentPrice with
    truncating divisions, where elapsed = now - start if now > start and 0
    otherwise; for 10 units at 5%, initial and current price 2000 * 10^18 and
    365 days elapsed this is 10.5 units. *)
Theorem calculateAmountDueEth_formula st env _loanId :
  let loan := activeLoans st !!! _loanId in
  let elapsed :=
    spec_elapsed (block_timestamp env) (ActiveLoan.startTimestamp loan) in
  let principal :=
    ActiveLoan.loanAmount loan * ActiveLoan.initialEthPrice loan ÷ 10 ^ 18 in
  let interest :=
    principal * ActiveLoan.interestRate loan * elapsed ÷ (365 * 86400 * 100) in
  (ActiveLoan.isRepaid loan = true ->
   calculateAmountDueEth st env _loanId = Err (Revert "Loan repaid")) /\
  (ActiveLoan.isRepaid loan = false ->
   forall currentPrice,
     _getEthUsdPrice st env = Ok currentPrice ->
     currentPrice <> 0 ->
     ActiveLoan.loanAmount loan * ActiveLoan.initialEthPrice loan
       <= MAX_UINT256 ->
     principal * ActiveLoan.interestRate loan <= MAX_UINT256 ->
     principal * ActiveLoan.interestRate loan * elapsed <= MAX_UINT256 ->
     principal + interest <= MAX_UINT256 ->
     (principal + interest) * 10 ^ 18 <= MAX_UINT256 ->
     calculateAmountDueEth st env _loanId =
       Ok ((principal + interest) * 10 ^ 18 ÷ currentPrice)) /\
  calculateAmountDueEth example_state
    (example_env 10 0 (1000 + 365 * 86400)) 0 = Ok (105 * 10 ^ 17).
Proof.
  intros loan elapsed principal interest. split; [|split].
  - apply calculateAmountDueEth_repaid.
  - intros Hrep p Hp Hp0 H1 H2 H3 H4 H5.
    by rewrite (calculateAmountDueEth_value st env _loanId p Hrep Hp Hp0 H1 H2 H3 H4 H5).
  - by vm_compute.
Qed.

Lemma calculateAmountDueEth_formula_witness :
  calculateAmountDueEth example_state
    (example_env 10 0 (1000 + 365 * 86400)) 0
  = Ok ((10 * 10 ^ 18 * (2000 * 10 ^ 18) ÷ 10 ^ 18
         + 10 * 10 ^ 18 * (2000 * 10 ^ 18) ÷ 10 ^ 18 * 5 * (365 * 86400)
           ÷ (365 * 86400 * 100)) * 10 ^ 18 ÷ (2000 * 10 ^ 18)).
Proof.
  apply (proj1 (proj2 (calculateAmountDueEth_formula example_state
                         (example_env 10 0 (1000 + 365 * 86400)) 0))
           eq_refl (2000 * 10 ^ 18)).
  - by vm_compute.
  - by vm_compute.
  - by vm_compute.
  - by vm_compute.
  - by vm_compute.
  - by vm_compute.
  - by vm_compute.
Defined.

(** ** Monotonicity of the amount due (C4) *)

(** Truncating division of non-negative integers. *)
Lemma quot_bounds (a b : Z) :
  0 <= a -> 0 < b -> b * (a ÷ b) <= a < b * (a ÷ b) + b /\ 0 <= a ÷ b.
Proof.
  intros Ha Hb. rewrite Z.quot_div_nonneg by lia.
  pose proof (Z.mul_div_le a b Hb).
  pose proof (Z.mul_succ_div_gt a b Hb).
  pose proof (Z.div_pos a b Ha Hb). lia.
Qed.

Lemma _getEthUsdPrice_pos st env p :
  0 <= demoFixedEthUsdPrice st ->
  _getEthUsdPrice st env = Ok p -> 0 <= p.
Proof.
  intros Hd. unfold _getEthUsdPrice.
  destruct (ethUsdFeed st =? 0); [by intros [= <-]|].
  destruct (Z.ltb_spec 0 (answer (latestRoundData env (ethUsdFeed st))));
    [|discriminate].
  rewrite require_true, bind_Ok. intros Hr.
  inv_bind Hr as age Hage. inv_bind Hr as u Hu.
  apply checked_mul_Ok_inv in Hr as [-> _].
  destruct constants_eval as (_ & _ & -> & _). lia.
Qed.

(** C4, counterexample.  A loan of 1000 units of the smallest denomination at
    rate 5 > 0, funded at time 1000 at the fixed price: the amount due is the
    same 1000 at elapsed time 0 and at elapsed time 60, so it does not
    strictly increase with elapsed time. *)
Lemma amount_due_strict_increase_counterexample :
  ActiveLoan.isRepaid (activeLoans small_loan_state !!! 0) = false /\
  ActiveLoan.interestRate (activeLoans small_loan_state !!! 0) = 5 /\
  ActiveLoan.startTimestamp (activeLoans small_loan_state !!! 0) = 1000 /\
  _getEthUsdPrice small_loan_state (example_env 10 0 1000)
    = _getEthUsdPrice small_loan_state (example_env 10 0 1060) /\
  calculateAmountDueEth small_loan_state (example_env 10 0 1000) 0 = Ok 1000 /\
  calculateAmountDueEth small_loan_state (example_env 10 0 1060) 0 = Ok 1000.
Proof. by vm_compute. Qed.

(** The amount due grows by at least one unit between two elapsed times
    when the interest accrued in between is worth at least one unit at the
    current price. *)
Lemma spec_amount_due_strict (a r p0 e1 e2 p k : Z) :
  0 <= a * p0 ÷ 10 ^ 18 -> 0 <= r -> 0 <= e1 <= e2 -> 0 < p ->
  p <= k * 10 ^ 18 ->
  3153600000 * k <= a * p0 ÷ 10 ^ 18 * r * (e2 - e1) ->
  spec_amount_due a r p0 e1 p < spec_amount_due a r p0 e2 p.
Proof.
  intros Hpr Hr He Hp Hk Hacc. unfold spec_amount_due.
  change (10 ^ 18) with 1000000000000000000 in *.
  change (365 * 86400 * 100) with 3153600000.
  set (S := 1000000000000000000) in *.
  set (pr := a * p0 ÷ S) in *.
  assert (HA : 0 <= pr * r) by nia.
  assert (H1 : 0 <= pr * r * e1) by nia.
  assert (H2 : 0 <= pr * r * e2) by nia.
  assert (Hsplit : pr * r * e2 = pr * r * e1 + pr * r * (e2 - e1)) by ring.
  destruct (quot_bounds (pr * r * e1) 3153600000 H1 ltac:(lia)) as [F1 Hi1].
  destruct (quot_bounds (pr * r * e2) 3153600000 H2 ltac:(lia)) as [F2 Hi2].
  set (i1 := pr * r * e1 ÷ 3153600000) in *.
  set (i2 := pr * r * e2 ÷ 3153600000) in *.
  assert (Hi : i1 + k <= i2) by lia.
  assert (Hk0 : 0 < k) by nia.
  assert (T1 : 0 <= (pr + i1) * S) by nia.
  assert (T2 : 0 <= (pr + i2) * S) by nia.
  destruct (quot_bounds ((pr + i1) * S) p T1 Hp) as [G1 _].
  destruct (quot_bounds ((pr + i2) * S) p T2 Hp) as [G2 _].
  set (d1 := (pr + i1) * S ÷ p) in *.
  set (d2 := (pr + i2) * S ÷ p) in *.
  assert (Hmul : p * d1 < p * d2) by nia.
  apply (Z.mul_lt_mono_pos_l p); assumption.
Qed.

(** C4, amended.  For an unrepaid loan and a fixed oracle price the amount due
    is monotonically non-decreasing in time: if it is returned at a time t2,
    it is returned at every earlier time t1 <= t2 as well, and
    due(t1) <= due(t2).  It strictly increases, due(t1) < due(t2), whenever
    the interest accrued between the two times is worth at least one unit at
    the current price: principal_value * rate * (elapsed(t2) - elapsed(t1))
    >= 365 days * 100 * k for a whole number k with currentPrice <= k *
    10^18.  (Below that, truncating division can leave it unchanged between
    two times even when the rate is positive.) *)
Theorem calculateAmountDueEth_monotone st env1 env2 _loanId due2 :
  let loan := activeLoans st !!! _loanId in
  let elapsed1 :=
    spec_elapsed (block_timestamp env1) (ActiveLoan.startTimestamp loan) in
  let elapsed2 :=
    spec_elapsed (block_timestamp env2) (ActiveLoan.startTimestamp loan) in
  let principal :=
    ActiveLoan.loanAmount loan * ActiveLoan.initialEthPrice loan ÷ 10 ^ 18 in
  ActiveLoan.wf loan = true ->
  0 <= demoFixedEthUsdPrice st ->
  block_timestamp env1 <= block_timestamp env2 ->
  _getEthUsdPrice st env1 = _getEthUsdPrice st env2 ->
  calculateAmountDueEth st env2 _loanId = Ok due2 ->
  exists due1,
    calculateAmountDueEth st env1 _loanId = Ok due1 /\ due1 <= due2 /\
    forall currentPrice k,
      _getEthUsdPrice st env2 = Ok currentPrice ->
      currentPrice <= k * 10 ^ 18 ->
      365 * 86400 * 100 * k
        <= principal * ActiveLoan.interestRate loan * (elapsed2 - elapsed1) ->
      due1 < due2.
Proof.
  intros loan0 el1 el2 pr0 Hwf Hd Ht Hprice H2.
  apply ActiveLoan_wf_spec in Hwf as (Ha & _ & _ & _ & Hr & Hi).
  apply calculateAmountDueEth_Ok_inv in H2
    as (Hrep & p & Hp & Hp0 & B1 & B2 & B3 & B4 & B5 & ->).
  subst loan0 el1 el2 pr0.
  set (loan := activeLoans st !!! _loanId) in *.
  set (e1 := spec_elapsed (block_timestamp env1) (ActiveLoan.startTimestamp loan)).
  set (e2 := spec_elapsed (block_timestamp env2) (ActiveLoan.startTimestamp loan)) in *.
  set (pr := ActiveLoan.loanAmount loan * ActiveLoan.initialEthPrice loan ÷ 10 ^ 18) in *.
  assert (He : e1 <= e2) by (apply spec_elapsed_mono; exact Ht).
  assert (He0 : 0 <= e1) by apply spec_elapsed_nonneg.
  assert (Hpr : 0 <= pr).
  { apply Z.quot_pos; [nia | lia]. }
  assert (Hpos : 0 < p).
  { pose proof (_getEthUsdPrice_pos st env2 p Hd Hp). lia. }
  assert (Hm : pr * ActiveLoan.interestRate loan * e1
               <= pr * ActiveLoan.interestRate loan * e2) by nia.
  assert (Hi12 : pr * ActiveLoan.interestRate loan * e1 ÷ (365 * 86400 * 100)
                 <= pr * ActiveLoan.interestRate loan * e2 ÷ (365 * 86400 * 100)).
  { apply Z.quot_le_mono; [lia | exact Hm]. }
  exists (spec_amount_due (ActiveLoan.loanAmount loan)
            (ActiveLoan.interestRate loan) (ActiveLoan.initialEthPrice loan)
            e1 p).
  split; [|split].
  - apply calculateAmountDueEth_value; fold loan pr e1; try assumption; try lia.
    congruence.
  - unfold spec_amount_due. fold pr.
    apply Z.quot_le_mono; [exact Hpos | lia].
  - intros p' k Hp' Hk Hacc.
    rewrite Hp in Hp'. injection Hp' as <-.
    change (365 * 86400 * 100) with 3153600000 in Hacc.
    apply (spec_amount_due_strict _ _ _ e1 e2 p k); try assumption; lia.
Qed.

Lemma calculateAmountDueEth_monotone_witness :
  exists due1,
    calculateAmountDueEth example_state (example_env 10 0 2000) 0 = Ok due1 /\
    due1 < 105 * 10 ^ 17.
Proof.
  destruct (calculateAmountDueEth_monotone example_state
              (example_env 10 0 2000) (example_env 10 0 (1000 + 365 * 86400)) 0
              (105 * 10 ^ 17)
              ltac:(by vm_compute) ltac:(by vm_compute) ltac:(by vm_compute)
              ltac:(by vm_compute) ltac:(by vm_compute))
    as (due1 & H1 & _ & Hstrict).
  exists due1. split; [exact H1|].
  apply (Hstrict (2000 * 10 ^ 18) 2000).
  - by vm_compute.
  - by vm_compute.
  - by vm_compute.
Defined.

(** ** Modifiers *)

Lemma nonReentrant_idle {A} (body : State -> result (State * A)) st :
  _reentrancyStatus st <> _ENTERED ->
  nonReentrant body st =
    ('(st', a) ← body (set_reentrancyStatus st _ENTERED);
     Ok (set_reentrancyStatus st' _NOT_ENTERED, a)).
Proof.
  intros H. unfold nonReentrant.
  by rewrite (proj2 (Z.eqb_neq _ _) H).
Qed.

Lemma whenNotPaused_paused {A} (body : State -> result A) st :
  paused st = true -> whenNotPaused body st = Err (Revert "Paused").
Proof. intros H. unfold whenNotPaused. by rewrite H. Qed.

Lemma whenNotPaused_running {A} (body : State -> result A) st :
  paused st = false -> whenNotPaused body st = body st.
Proof. intros H. unfold whenNotPaused. by rewrite H. Qed.

Lemma nonPayable_zero {A} env (body : State -> result A) st :
  msg_value env = 0 -> nonPayable env body st = body st.
Proof. intros H. unfold nonPayable. by rewrite H. Qed.

Lemma nonPayable_value {A} env (body : State -> result A) st :
  msg_value env <> 0 -> nonPayable env body st = Err RevertNoData.
Proof.
  intros H. unfold nonPayable. by rewrite (proj2 (Z.eqb_neq _ _) H).
Qed.

Lemma nonPayable_Ok_inv {A} env (body : State -> result A) st a :
  nonPayable env body st = Ok a -> msg_value env = 0 /\ body st = Ok a.
Proof.
  unfold nonPayable. destruct (Z.eqb_spec (msg_value env) 0); [auto|discriminate].
Qed.

(** ** Request creation and the collateral check (C2) *)

(** C2, counterexample.  While the platform is paused, a request with
    amount 1000 > 0, duration 30 > 0, rate 5 and a stake of exactly
    2 * 1000 does not succeed, and one with a stake of 2 * 1000 + 1 fails
    with "Paused", not with the collateral error. *)
Lemma createLoanRequest_paused_counterexample :
  paused paused_state = true /\
  msg_value (example_env 10 2000 1000) = 2 * 1000 /\
  createLoanRequest paused_state (example_env 10 2000 1000)
    1000 30 5 0 "cid" 0 "appraisal" 1 = Err (Revert "Paused") /\
  createLoanRequest paused_state (example_env 10 2001 1000)
    1000 30 5 0 "cid" 0 "appraisal" 1 = Err (Revert "Paused").
Proof. by vm_compute. Qed.

(** C2, amended.  While the platform is not paused, for every request with
    amount > 0, durationDays > 0 and 0 < rate <= 7 whose doubled amount and
    next request id fit in 256 bits, the call succeeds if and only if the
    supplied stake equals exactly 2 * amount (it then stores the active
    request under the next id and emits the creation event); for every other
    stake it fails with "Collateral must be exactly 2x loan amount" and
    leaves the ledger state unchanged. *)
Theorem createLoanRequest_collateral st env amount durationDays rate
    mc ec pc ac units :
  paused st = false ->
  0 < amount -> 0 < durationDays -> 0 < rate <= 7 ->
  amount * 2 <= MAX_UINT256 ->
  totalRequests st + 1 <= MAX_UINT256 ->
  let r := createLoanRequest st env amount durationDays rate mc ec pc ac units in
  (is_Ok r = true <-> msg_value env = 2 * amount) /\
  (msg_value env = 2 * amount ->
   r = Ok (set_loanRequests (set_totalRequests st (totalRequests st + 1))
             (<[totalRequests st :=
                  LoanRequest.mk (msg_sender env) amount durationDays true
                    (2 * amount) rate mc ec pc ac units]> (loanRequests st)),
           [Emit (LoanRequested (totalRequests st) (msg_sender env) amount
                    durationDays rate (2 * amount))])) /\
  (msg_value env <> 2 * amount ->
   r = Err (Revert "Collateral must be exactly 2x loan amount") /\
   state_after st r = st).
Proof.
  intros Hp Ha Hd [Hr0 Hr7] Hm Hn r.
  assert (Hbody : r =
    (_ ← require (msg_value env =? amount * 2)
           "Collateral must be exactly 2x loan amount";
     Ok (set_loanRequests (set_totalRequests st (totalRequests st + 1))
           (<[totalRequests st :=
                LoanRequest.mk (msg_sender env) amount durationDays true
                  (msg_value env) rate mc ec pc ac units]> (loanRequests st)),
         [Emit (LoanRequested (totalRequests st) (msg_sender env) amount
                  durationDays rate (msg_value env))]))).
  { unfold r, createLoanRequest. rewrite whenNotPaused_running by exact Hp.
    rewrite (proj2 (Z.ltb_lt _ _) Ha), (proj2 (Z.ltb_lt _ _) Hd).
    rewrite !require_true, !bind_Ok.
    rewrite (checked_mul_Ok _ _ Hm), bind_Ok.
    destruct (msg_value env =? amount * 2); [|reflexivity].
    rewrite require_true, !bind_Ok.
    unfold MAX_INTEREST_RATE.
    rewrite (proj2 (Z.leb_le _ _) Hr7), (proj2 (Z.ltb_lt _ _) Hr0).
    rewrite !require_true, !bind_Ok.
    unfold getNextRequestId. rewrite (checked_add_Ok _ _ Hn), !bind_Ok.
    reflexivity. }
  destruct (Z.eqb_spec (msg_value env) (amount * 2)) as [He|Hne].
  - rewrite require_true, bind_Ok in Hbody.
    assert (He' : msg_value env = 2 * amount) by lia.
    rewrite He' in Hbody.
    split; [|split].
    + rewrite Hbody. simpl. tauto.
    + intros _. exact Hbody.
    + intros Hc. contradiction.
  - rewrite require_false, bind_Err in Hbody.
    split; [|split].
    + rewrite Hbody. simpl. split; [discriminate | lia].
    + intros Hc. lia.
    + intros _. rewrite Hbody. split; reflexivity.
Qed.

Lemma createLoanRequest_collateral_witness :
  is_Ok (createLoanRequest (constructor 0 99) (example_env 10 2000 1000)
           1000 30 5 0 "cid" 0 "appraisal" 1) = true <-> 2000 = 2 * 1000.
Proof.
  apply (createLoanRequest_collateral (constructor 0 99)
           (example_env 10 2000 1000) 1000 30 5 0 "cid" 0 "appraisal" 1).
  - by vm_compute.
  - lia.
  - lia.
  - lia.
  - by vm_compute.
  - by vm_compute.
Defined.

(** ** Liquidation (C3) *)

Lemma liquidateExpiredLoan_value st env _loanId :
  msg_value env <> 0 -> liquidateExpiredLoan st env _loanId = Err RevertNoData.
Proof. intros H. unfold liquidateExpiredLoan. by apply nonPayable_value. Qed.

Lemma liquidateExpiredLoan_reentrant st env _loanId :
  msg_value env = 0 -> _reentrancyStatus st = _ENTERED ->
  liquidateExpiredLoan st env _loanId
  = Err (Revert "ReentrancyGuard: reentrant call").
Proof.
  intros Hv He. unfold liquidateExpiredLoan.
  rewrite nonPayable_zero by exact Hv.
  unfold nonReentrant. by rewrite He.
Qed.

Lemma liquidateExpiredLoan_repaid st env _loanId :
  msg_value env = 0 ->
  _reentrancyStatus st <> _ENTERED ->
  ActiveLoan.isRepaid (activeLoans st !!! _loanId) = true ->
  liquidateExpiredLoan st env _loanId = Err (Revert "Loan is already repaid").
Proof.
  intros Hv Hidle Hrep. unfold liquidateExpiredLoan.
  rewrite nonPayable_zero by exact Hv.
  rewrite nonReentrant_idle by exact Hidle.
  cbn [activeLoans set_reentrancyStatus]. by rewrite Hrep.
Qed.

Lemma liquidateExpiredLoan_not_expired st env _loanId :
  msg_value env = 0 ->
  _reentrancyStatus st <> _ENTERED ->
  ActiveLoan.isRepaid (activeLoans st !!! _loanId) = false ->
  block_timestamp env <= ActiveLoan.endTime (activeLoans st !!! _loanId) ->
  liquidateExpiredLoan st env _loanId = Err (Revert "Loan is not expired yet").
Proof.
  intros Hv Hidle Hrep Ht. unfold liquidateExpiredLoan.
  rewrite nonPayable_zero by exact Hv.
  rewrite nonReentrant_idle by exact Hidle.
  cbn [activeLoans set_reentrancyStatus]. rewrite Hrep. cbn [negb].
  rewrite require_true, bind_Ok.
  by rewrite (proj2 (Z.ltb_ge _ _) Ht).
Qed.

Lemma liquidateExpiredLoan_expired st env _loanId :
  let loan := activeLoans st !!! _loanId in
  let bonus := spec_bonus (ActiveLoan.stake loan) (liquidationBonusBp st) in
  msg_value env = 0 ->
  _reentrancyStatus st <> _ENTERED ->
  ActiveLoan.isRepaid loan = false ->
  ActiveLoan.endTime loan < block_timestamp env ->
  ActiveLoan.stake loan * liquidationBonusBp st <= MAX_UINT256 ->
  bonus <= ActiveLoan.stake loan ->
  call_succeeds env (msg_sender env) bonus = true ->
  call_succeeds env (ActiveLoan.lender loan) (ActiveLoan.stake loan - bonus)
    = true ->
  liquidateExpiredLoan st env _loanId =
    Ok (settled st _loanId,
        [Transfer (msg_sender env) bonus;
         Transfer (ActiveLoan.lender loan) (ActiveLoan.stake loan - bonus);
         Emit (LoanLiquidated _loanId (ActiveLoan.lender loan)
                 (ActiveLoan.stake loan))]).
Proof.
  intros loan bonus Hv Hidle Hrep Ht Hmul Hle Hc1 Hc2.
  unfold liquidateExpiredLoan.
  rewrite nonPayable_zero by exact Hv.
  rewrite nonReentrant_idle by exact Hidle.
  cbn [activeLoans set_reentrancyStatus liquidationBonusBp]. fold loan.
  rewrite Hrep. cbn [negb]. rewrite require_true, bind_Ok.
  rewrite (proj2 (Z.ltb_lt _ _) Ht), require_true, bind_Ok.
  rewrite (checked_mul_Ok _ _ Hmul), bind_Ok.
  rewrite checked_div_Ok by lia. rewrite bind_Ok.
  change (ActiveLoan.stake loan * liquidationBonusBp st ÷ 10000) with bonus.
  rewrite (checked_sub_Ok _ _ Hle), bind_Ok.
  unfold send. rewrite Hc1, Hc2, !require_true, !bind_Ok.
  reflexivity.
Qed.

(** Truncation of the bonus: it is never more than the exact share, and with
    a share of at most 100% it is between 0 and the stake. *)
Lemma spec_bonus_bounds (stake bonusBp : Z) :
  0 <= stake -> 0 <= bonusBp <= 10000 ->
  0 <= spec_bonus stake bonusBp <= stake /\
  spec_bonus stake bonusBp * 10000 <= stake * bonusBp.
Proof.
  intros Hs Hb. unfold spec_bonus.
  assert (H0 : 0 <= stake * bonusBp) by nia.
  rewrite Z.quot_div_nonneg by lia.
  pose proof (Z.mul_div_le (stake * bonusBp) 10000 ltac:(lia)) as Hle.
  assert (Hup : stake * bonusBp / 10000 <= stake).
  { apply Z.div_le_upper_bound; [lia | nia]. }
  assert (Hlo : 0 <= stake * bonusBp / 10000) by (apply Z.div_pos; lia).
  lia.
Qed.




(** ** How a successful call changes the loan table *)

Ltac monad_inv H :=
  repeat
    (match type of H with
     | (Ok _ ≫= _) = _ => rewrite bind_Ok in H
     | (Err _ ≫= _) = Ok _ => discriminate H
     | Err _ = Ok _ => discriminate H
     | (require ?c _ ≫= _) = Ok _ =>
         destruct c eqn:?;
         [rewrite require_true, bind_Ok in H | discriminate H]
     | (?m ≫= _) = Ok _ =>
         let v := fresh "v" in
         let Hv := fresh "Hv" in
         apply bind_Ok_inv in H as (v & Hv & H)
     | (let '(_, _) := ?p in _) = Ok _ => destruct p
     end).

Lemma nonReentrant_Ok_inv {A} (body : State -> result (State * A)) st st' a :
  nonReentrant body st = Ok (st', a) ->
  _reentrancyStatus st <> _ENTERED /\
  exists st'', body (set_reentrancyStatus st _ENTERED) = Ok (st'', a)
               /\ st' = set_reentrancyStatus st'' _NOT_ENTERED.
Proof.
  unfold nonReentrant. intros H.
  destruct (Z.eqb_spec (_reentrancyStatus st) _ENTERED) as [He|Hne];
    [discriminate|].
  cbn [negb] in H. rewrite require_true, bind_Ok in H.
  monad_inv H. injection H as <- <-. eauto.
Qed.

Lemma whenNotPaused_Ok_inv {A} (body : State -> result A) st a :
  whenNotPaused body st = Ok a -> paused st = false /\ body st = Ok a.
Proof.
  unfold whenNotPaused. destruct (paused st); [discriminate|].
  cbn [negb]. rewrite require_true, bind_Ok. auto.
Qed.

Lemma onlyOwner_Ok_inv {A} env (body : State -> result A) st a :
  onlyOwner env body st = Ok a ->
  msg_sender env = owner st /\ body st = Ok a.
Proof.
  unfold onlyOwner. destruct (Z.eqb_spec (msg_sender env) (owner st));
    [|discriminate].
  rewrite require_true, bind_Ok. auto.
Qed.

Lemma fundLoanRequest_Ok_loans st env _requestId st' acts :
  fundLoanRequest st env _requestId = Ok (st', acts) ->
  exists loan,
    activeLoans st' = <[totalLoans st := loan]> (activeLoans st) /\
    ActiveLoan.isRepaid loan
      = ActiveLoan.isRepaid (activeLoans st !!! totalLoans st) /\
    totalLoans st' = totalLoans st + 1.
Proof.
  unfold fundLoanRequest. intros H.
  apply nonReentrant_Ok_inv in H as (_ & st'' & H & ->).
  apply whenNotPaused_Ok_inv in H as (_ & H).
  monad_inv H. unfold getNextLoanId in Hv. monad_inv Hv.
  apply checked_add_Ok_inv in Hv4 as [-> _].
  injection Hv as <- <-. injection H as <- <-.
  eexists. cbn. split; [reflexivity|]. split; reflexivity.
Qed.

Lemma repayLoan_Ok_loans st env _loanId _repayAmount st' acts :
  repayLoan st env _loanId _repayAmount = Ok (st', acts) ->
  st' = settled st _loanId.
Proof.
  unfold repayLoan. intros H.
  apply nonReentrant_Ok_inv in H as (_ & st'' & H & ->).
  apply whenNotPaused_Ok_inv in H as (_ & H).
  monad_inv H. injection H as <- <-. reflexivity.
Qed.

Lemma liquidateExpiredLoan_Ok_loans st env _loanId st' acts :
  liquidateExpiredLoan st env _loanId = Ok (st', acts) ->
  st' = settled st _loanId.
Proof.
  unfold liquidateExpiredLoan. intros H.
  apply nonPayable_Ok_inv in H as (_ & H).
  apply nonReentrant_Ok_inv in H as (_ & st'' & H & ->).
  monad_inv H. injection H as <- <-. reflexivity.
Qed.

Lemma createLoanRequest_Ok_loans st env a d r mc ec pc ac pu st' acts :
  createLoanRequest st env a d r mc ec pc ac pu = Ok (st', acts) ->
  activeLoans st' = activeLoans st /\ totalLoans st' = totalLoans st.
Proof.
  unfold createLoanRequest. intros H.
  apply whenNotPaused_Ok_inv in H as (_ & H).
  monad_inv H. unfold getNextRequestId in Hv0. monad_inv Hv0.
  injection Hv0 as <- <-. injection H as <- <-. split; reflexivity.
Qed.

(** A successful call either leaves the loan table and the loan counter as
    they are, or is a funding that writes the slot of the next loan id
    without touching its repaid flag, or is a settlement. *)
Lemma dispatch_loans st env c st' acts :
  dispatch st env c = Ok (st', acts) ->
  (activeLoans st' = activeLoans st /\ totalLoans st' = totalLoans st) \/
  (exists loan,
      activeLoans st' = <[totalLoans st := loan]> (activeLoans st) /\
      ActiveLoan.isRepaid loan
        = ActiveLoan.isRepaid (activeLoans st !!! totalLoans st) /\
      totalLoans st' = totalLoans st + 1) \/
  (exists i, settles i c = true /\ st' = settled st i).
Proof.
  destruct c; cbn [dispatch]; intros H.
  - left. by eapply createLoanRequest_Ok_loans.
  - right; left. by eapply fundLoanRequest_Ok_loans.
  - right; right. exists _loanId. split; [apply Z.eqb_refl|].
    by eapply repayLoan_Ok_loans.
  - right; right. exists _loanId. split; [apply Z.eqb_refl|].
    by eapply liquidateExpiredLoan_Ok_loans.
  - left. unfold transferOwnership in H.
    apply nonPayable_Ok_inv in H as (_ & H).
    apply onlyOwner_Ok_inv in H as (_ & H). monad_inv H.
    injection H as <- <-. split; reflexivity.
  - left. unfold pause in H.
    apply nonPayable_Ok_inv in H as (_ & H).
    apply onlyOwner_Ok_inv in H as (_ & H).
    injection H as <- <-. split; reflexivity.
  - left. unfold unpause in H.
    apply nonPayable_Ok_inv in H as (_ & H).
    apply onlyOwner_Ok_inv in H as (_ & H).
    injection H as <- <-. split; reflexivity.
  - left. unfold updateParams in H.
    apply nonPayable_Ok_inv in H as (_ & H).
    apply onlyOwner_Ok_inv in H as (_ & H). monad_inv H.
    injection H as <- <-. split; reflexivity.
  - left. unfold updateOracle in H.
    apply nonPayable_Ok_inv in H as (_ & H).
    apply onlyOwner_Ok_inv in H as (_ & H).
    destruct (_newFeed =? 0); injection H as <- <-; split; reflexivity.
  - left. unfold setDemoFixedEthUsdPrice in H.
    apply nonPayable_Ok_inv in H as (_ & H).
    apply onlyOwner_Ok_inv in H as (_ & H). monad_inv H.
    injection H as <- <-. split; reflexivity.
  - left. unfold updateRealEstateOracle in H.
    apply nonPayable_Ok_inv in H as (_ & H).
    apply onlyOwner_Ok_inv in H as (_ & H). monad_inv H.
    injection H as <- <-. split; reflexivity.
Qed.

(** ** Settlement is terminal (C5) *)

Ltac bool_facts :=
  repeat
    (match goal with
     | H : (_ =? _) = true |- _ => apply Z.eqb_eq in H
     | H : (_ =? _) = false |- _ => apply Z.eqb_neq in H
     | H : (_ <? _) = true |- _ => apply Z.ltb_lt in H
     | H : (_ <? _) = false |- _ => apply Z.ltb_ge in H
     | H : (_ <=? _) = true |- _ => apply Z.leb_le in H
     | H : (_ <=? _) = false |- _ => apply Z.leb_gt in H
     | H : negb _ = true |- _ => apply negb_true_iff in H
     | H : negb _ = false |- _ => apply negb_false_iff in H
     end).

(** What a successful repayment did. *)
Lemma repayLoan_Ok_inv st env _loanId _repayAmount st' acts :
  repayLoan st env _loanId _repayAmount = Ok (st', acts) ->
  let loan := activeLoans st !!! _loanId in
  _reentrancyStatus st <> _ENTERED /\ paused st = false /\
  msg_sender env = ActiveLoan.borrower loan /\
  ActiveLoan.isRepaid loan = false /\ 0 < msg_value env /\
  exists base dueEth,
    calculateAmountDueEth st env _loanId = Ok base /\
    (if ActiveLoan.endTime loan <? block_timestamp env
     then _applyOverduePenaltyEth st env _loanId base
     else Ok base) = Ok dueEth /\
    dueEth <= msg_value env /\
    st' = settled st _loanId /\
    acts = [Transfer (ActiveLoan.lender loan) dueEth;
            Transfer (ActiveLoan.borrower loan) (ActiveLoan.stake loan)]
           ++ (if 0 <? msg_value env - dueEth
               then [Transfer (ActiveLoan.borrower loan)
                       (msg_value env - dueEth)]
               else [])
           ++ [Emit (LoanRepaid _loanId (ActiveLoan.borrower loan)
                       (ActiveLoan.lender loan) dueEth)].
Proof.
  intros H loan. unfold repayLoan in H.
  apply nonReentrant_Ok_inv in H as (Hidle & st'' & H & ->).
  apply whenNotPaused_Ok_inv in H as (Hp & H).
  cbn [activeLoans set_reentrancyStatus paused] in Hp, H. fold loan in H.
  change (calculateAmountDueEth (set_reentrancyStatus st _ENTERED) env _loanId)
    with (calculateAmountDueEth st env _loanId) in H.
  destruct (Z.eqb_spec (msg_sender env) (ActiveLoan.borrower loan)) as [Hs|];
    [|discriminate H].
  rewrite require_true, bind_Ok in H.
  destruct (ActiveLoan.isRepaid loan) eqn:Hrep; [discriminate H|].
  cbn [negb] in H. rewrite require_true, bind_Ok in H.
  destruct (Z.ltb_spec 0 (msg_value env)) as [Hv|]; [|discriminate H].
  rewrite require_true, bind_Ok in H.
  destruct (calculateAmountDueEth st env _loanId) as [base|] eqn:Hbase;
    [|discriminate H].
  rewrite bind_Ok in H.
  change (_applyOverduePenaltyEth (set_reentrancyStatus st _ENTERED) env
            _loanId base)
    with (_applyOverduePenaltyEth st env _loanId base) in H.
  destruct (if ActiveLoan.endTime loan <? block_timestamp env
            then _applyOverduePenaltyEth st env _loanId base
            else Ok base) as [dueEth|] eqn:Hdue; [|discriminate H].
  rewrite bind_Ok in H.
  destruct (Z.leb_spec dueEth (msg_value env)) as [Hle|]; [|discriminate H].
  rewrite require_true, bind_Ok in H.
  unfold send in H.
  destruct (call_succeeds env (ActiveLoan.lender loan) dueEth);
    [|discriminate H].
  rewrite require_true, !bind_Ok in H.
  destruct (call_succeeds env (ActiveLoan.borrower loan)
              (ActiveLoan.stake loan)); [|discriminate H].
  rewrite require_true, !bind_Ok in H.
  rewrite (checked_sub_Ok _ _ Hle), bind_Ok in H.
  repeat split; try assumption.
  exists base, dueEth. repeat split; try assumption.
  - destruct (0 <? msg_value env - dueEth).
    + destruct (call_succeeds env (ActiveLoan.borrower loan)
                  (msg_value env - dueEth)); [|discriminate H].
      rewrite require_true, !bind_Ok in H. by injection H as <- <-.
    + rewrite bind_Ok in H. by injection H as <- <-.
  - destruct (0 <? msg_value env - dueEth).
    + destruct (call_succeeds env (ActiveLoan.borrower loan)
                  (msg_value env - dueEth)); [|discriminate H].
      rewrite require_true, !bind_Ok in H. by injection H as <- <-.
    + rewrite bind_Ok in H. by injection H as <- <-.
Qed.

Lemma liquidateExpiredLoan_Ok_inv st env _loanId st' acts :
  liquidateExpiredLoan st env _loanId = Ok (st', acts) ->
  let loan := activeLoans st !!! _loanId in
  _reentrancyStatus st <> _ENTERED /\
  ActiveLoan.isRepaid loan = false /\
  ActiveLoan.endTime loan < block_timestamp env.
Proof.
  intros H loan. unfold liquidateExpiredLoan in H.
    apply nonPayable_Ok_inv in H as (_ & H).
  apply nonReentrant_Ok_inv in H as (Hidle & st'' & H & ->).
  cbn [activeLoans set_reentrancyStatus] in H. fold loan in H.
  monad_inv H. bool_facts. auto.
Qed.

Lemma is_Ok_false {A} (r : result A) :
  (forall a, r <> Ok a) -> is_Ok r = false.
Proof. destruct r as [a|e]; [intros H; by destruct (H a) | reflexivity]. Qed.

Lemma is_Ok_false_Err {A} (r : result A) :
  is_Ok r = false -> exists e, r = Err e.
Proof. destruct r as [a|e]; [discriminate | eauto]. Qed.

Lemma settled_isRepaid st i _loanId :
  ActiveLoan.isRepaid (activeLoans (settled st i) !!! _loanId)
  = if decide (i = _loanId) then true
    else ActiveLoan.isRepaid (activeLoans st !!! _loanId).
Proof.
  unfold settled. cbn [activeLoans set_reentrancyStatus set_activeLoans].
  rewrite lookup_total_insert. by case_decide.
Qed.

Lemma run_cons st tx txs : run st (tx :: txs) = run (execute st tx) txs.
Proof. reflexivity. Qed.

(** No transaction resets a repaid flag. *)
Lemma execute_isRepaid st tx _loanId :
  ActiveLoan.isRepaid (activeLoans st !!! _loanId) = true ->
  ActiveLoan.isRepaid (activeLoans (execute st tx) !!! _loanId) = true.
Proof.
  intros Hrep. unfold execute, state_after.
  destruct (dispatch st tx.1 tx.2) as [[st' acts]|e] eqn:Hd; [|exact Hrep].
  apply dispatch_loans in Hd as [[-> _] | [(loan & -> & Hl & _) | (i & _ & ->)]].
  - exact Hrep.
  - rewrite lookup_total_insert. case_decide as Hi; [|exact Hrep].
    rewrite Hl, Hi. exact Hrep.
  - rewrite settled_isRepaid. by case_decide.
Qed.

Lemma run_isRepaid txs : forall st _loanId,
  ActiveLoan.isRepaid (activeLoans st !!! _loanId) = true ->
  ActiveLoan.isRepaid (activeLoans (run st txs) !!! _loanId) = true.
Proof.
  induction txs as [|tx txs IH]; intros st _loanId Hrep; [exact Hrep|].
  rewrite run_cons. apply IH. by apply execute_isRepaid.
Qed.

(** C5, counterexample.  After loan 0 was liquidated (its repaid flag is
    set), a repay call by account 30, which is not the borrower, fails with
    "Only borrower can repay", not with the already-repaid error. *)
Lemma repay_after_settlement_counterexample :
  ActiveLoan.isRepaid (activeLoans liquidated_state !!! 0) = true /\
  ActiveLoan.borrower (activeLoans liquidated_state !!! 0) = 10 /\
  repayLoan liquidated_state
    (example_env 30 (11 * 10 ^ 18) (1002 + 365 * 86400)) 0 (11 * 10 ^ 18)
  = Err (Revert "Only borrower can repay").
Proof. by vm_compute. Qed.

Lemma repayLoan_reentrant st env _loanId _repayAmount :
  _reentrancyStatus st = _ENTERED ->
  repayLoan st env _loanId _repayAmount
  = Err (Revert "ReentrancyGuard: reentrant call").
Proof. intros He. unfold repayLoan, nonReentrant. by rewrite He. Qed.

Lemma repayLoan_paused st env _loanId _repayAmount :
  _reentrancyStatus st <> _ENTERED -> paused st = true ->
  repayLoan st env _loanId _repayAmount = Err (Revert "Paused").
Proof.
  intros Hidle Hp. unfold repayLoan.
  rewrite nonReentrant_idle by exact Hidle.
  by rewrite whenNotPaused_paused.
Qed.

Lemma repayLoan_not_borrower st env _loanId _repayAmount :
  _reentrancyStatus st <> _ENTERED -> paused st = false ->
  msg_sender env <> ActiveLoan.borrower (activeLoans st !!! _loanId) ->
  repayLoan st env _loanId _repayAmount
  = Err (Revert "Only borrower can repay").
Proof.
  intros Hidle Hp Hs. unfold repayLoan.
  rewrite nonReentrant_idle by exact Hidle.
  rewrite whenNotPaused_running by exact Hp.
  cbn [activeLoans set_reentrancyStatus].
  by rewrite (proj2 (Z.eqb_neq _ _) Hs).
Qed.

(** C5, amended.  Once a loan's repaid flag is set (by repay or by
    liquidate), no sequence of transactions ever resets it, and every later
    repay or liquidate call on that loan fails and changes no state.  A
    liquidate call with no value attached fails with "Loan is already
    repaid" (with value attached it reverts without a reason, liquidate not
    being payable).  A repay call fails with "Loan already repaid" when it
    comes from the loan's borrower while the platform is not paused; from
    anyone else it fails with "Only borrower can repay", and while the
    platform is paused with "Paused", because those checks come first.
    Within a call in progress either call fails with the reentrancy error.
    So repayment and liquidation are mutually exclusive terminal
    settlements, each reachable at most once per loan. *)
Theorem settlement_is_terminal st _loanId :
  ActiveLoan.isRepaid (activeLoans st !!! _loanId) = true ->
  (forall txs,
     ActiveLoan.isRepaid (activeLoans (run st txs) !!! _loanId) = true) /\
  (forall env,
     is_Ok (liquidateExpiredLoan st env _loanId) = false /\
     execute st (env, LiquidateExpiredLoan _loanId) = st /\
     (msg_value env = 0 -> _reentrancyStatus st <> _ENTERED ->
      liquidateExpiredLoan st env _loanId
      = Err (Revert "Loan is already repaid")) /\
     (msg_value env = 0 -> _reentrancyStatus st = _ENTERED ->
      liquidateExpiredLoan st env _loanId
      = Err (Revert "ReentrancyGuard: reentrant call")) /\
     (msg_value env <> 0 ->
      liquidateExpiredLoan st env _loanId = Err RevertNoData)) /\
  (forall env _repayAmount,
     is_Ok (repayLoan st env _loanId _repayAmount) = false /\
     execute st (env, RepayLoan _loanId _repayAmount) = st /\
     (_reentrancyStatus st <> _ENTERED -> paused st = false ->
      msg_sender env = ActiveLoan.borrower (activeLoans st !!! _loanId) ->
      repayLoan st env _loanId _repayAmount
      = Err (Revert "Loan already repaid")) /\
     (_reentrancyStatus st <> _ENTERED -> paused st = false ->
      msg_sender env <> ActiveLoan.borrower (activeLoans st !!! _loanId) ->
      repayLoan st env _loanId _repayAmount
      = Err (Revert "Only borrower can repay")) /\
     (_reentrancyStatus st <> _ENTERED -> paused st = true ->
      repayLoan st env _loanId _repayAmount = Err (Revert "Paused")) /\
     (_reentrancyStatus st = _ENTERED ->
      repayLoan st env _loanId _repayAmount
      = Err (Revert "ReentrancyGuard: reentrant call"))).
Proof.
  intros Hrep. split; [|split].
  - intros txs. by apply run_isRepaid.
  - intros env.
    assert (Hf : is_Ok (liquidateExpiredLoan st env _loanId) = false).
    { apply is_Ok_false. intros [st' acts] H.
      apply liquidateExpiredLoan_Ok_inv in H as (_ & H & _). congruence. }
    split; [exact Hf|]. split; [|split; [|split]].
    + unfold execute. cbn [dispatch fst snd].
      apply is_Ok_false_Err in Hf as [e ->]. reflexivity.
    + intros Hv Hidle. by apply liquidateExpiredLoan_repaid.
    + intros Hv He. by apply liquidateExpiredLoan_reentrant.
    + apply liquidateExpiredLoan_value.
  - intros env _repayAmount.
    assert (Hf : is_Ok (repayLoan st env _loanId _repayAmount) = false).
    { apply is_Ok_false. intros [st' acts] H.
      apply repayLoan_Ok_inv in H as (_ & _ & _ & H & _). congruence. }
    split; [exact Hf|]. split; [|split; [|split; [|split]]].
    + unfold execute. cbn [dispatch fst snd].
      apply is_Ok_false_Err in Hf as [e ->]. reflexivity.
    + intros Hidle Hp Hs. unfold repayLoan.
      rewrite nonReentrant_idle by exact Hidle.
      rewrite whenNotPaused_running by exact Hp.
      cbn [activeLoans set_reentrancyStatus].
      rewrite Hs, Z.eqb_refl, require_true, bind_Ok.
      by rewrite Hrep.
    + intros Hidle Hp Hs. by apply repayLoan_not_borrower.
    + intros Hidle Hp. by apply repayLoan_paused.
    + apply repayLoan_reentrant.
Qed.

Lemma settlement_is_terminal_witness :
  repayLoan liquidated_state
    (example_env 10 (11 * 10 ^ 18) (1002 + 365 * 86400)) 0 0
  = Err (Revert "Loan already repaid").
Proof.
  refine (proj1 (proj2 (proj2 (proj2 (proj2 (settlement_is_terminal
            liquidated_state 0 _)) _ _))) _ _ _).
  - by vm_compute.
  - by vm_compute.
  - by vm_compute.
  - by vm_compute.
Defined.

(** ** Liquidating an id that was never allocated (C9) *)

Lemma dispatch_status st env c st' acts :
  dispatch st env c = Ok (st', acts) ->
  _reentrancyStatus st' = _NOT_ENTERED \/
  _reentrancyStatus st' = _reentrancyStatus st.
Proof.
  destruct c; cbn [dispatch]; intros H.
  - right. unfold createLoanRequest in H.
    apply whenNotPaused_Ok_inv in H as (_ & H).
    monad_inv H. unfold getNextRequestId in Hv0. monad_inv Hv0.
    injection Hv0 as <- <-. injection H as <- <-. reflexivity.
  - left. unfold fundLoanRequest in H.
    by apply nonReentrant_Ok_inv in H as (_ & st'' & _ & ->).
  - left. unfold repayLoan in H.
    by apply nonReentrant_Ok_inv in H as (_ & st'' & _ & ->).
  - left. unfold liquidateExpiredLoan in H.
    apply nonPayable_Ok_inv in H as (_ & H).
    by apply nonReentrant_Ok_inv in H as (_ & st'' & _ & ->).
  - right. unfold transferOwnership in H.
    apply nonPayable_Ok_inv in H as (_ & H).
    apply onlyOwner_Ok_inv in H as (_ & H). monad_inv H.
    by injection H as <- <-.
  - right. unfold pause in H.
    apply nonPayable_Ok_inv in H as (_ & H).
    apply onlyOwner_Ok_inv in H as (_ & H). by injection H as <- <-.
  - right. unfold unpause in H.
    apply nonPayable_Ok_inv in H as (_ & H).
    apply onlyOwner_Ok_inv in H as (_ & H). by injection H as <- <-.
  - right. unfold updateParams in H.
    apply nonPayable_Ok_inv in H as (_ & H).
    apply onlyOwner_Ok_inv in H as (_ & H). monad_inv H.
    by injection H as <- <-.
  - right. unfold updateOracle in H.
    apply nonPayable_Ok_inv in H as (_ & H).
    apply onlyOwner_Ok_inv in H as (_ & H).
    by destruct (_newFeed =? 0); injection H as <- <-.
  - right. unfold setDemoFixedEthUsdPrice in H.
    apply nonPayable_Ok_inv in H as (_ & H).
    apply onlyOwner_Ok_inv in H as (_ & H). monad_inv H.
    by injection H as <- <-.
  - right. unfold updateRealEstateOracle in H.
    apply nonPayable_Ok_inv in H as (_ & H).
    apply onlyOwner_Ok_inv in H as (_ & H). monad_inv H.
    by injection H as <- <-.
Qed.

Lemma execute_idle st tx :
  _reentrancyStatus st <> _ENTERED ->
  _reentrancyStatus (execute st tx) <> _ENTERED.
Proof.
  intros Hidle. unfold execute, state_after.
  destruct (dispatch st tx.1 tx.2) as [[st' acts]|e] eqn:Hd; [|exact Hidle].
  apply dispatch_status in Hd as [-> | ->]; [discriminate | exact Hidle].
Qed.

Lemma run_idle txs : forall st,
  _reentrancyStatus st <> _ENTERED ->
  _reentrancyStatus (run st txs) <> _ENTERED.
Proof.
  induction txs as [|tx txs IH]; intros st Hidle; [exact Hidle|].
  rewrite run_cons. apply IH. by apply execute_idle.
Qed.

Lemma execute_totalLoans_mono st tx :
  totalLoans st <= totalLoans (execute st tx).
Proof.
  unfold execute, state_after.
  destruct (dispatch st tx.1 tx.2) as [[st' acts]|e] eqn:Hd; [|lia].
  apply dispatch_loans in Hd
    as [[_ ->] | [(loan & _ & _ & ->) | (i & _ & ->)]]; cbn; lia.
Qed.

Lemma run_totalLoans_mono txs : forall st,
  totalLoans st <= totalLoans (run st txs).
Proof.
  induction txs as [|tx txs IH]; intros st; [cbn; lia|].
  rewrite run_cons.
  etrans; [apply (execute_totalLoans_mono st tx) | apply IH].
Qed.

(** A slot at or above the loan counter that no settlement call targets
    stays as it is. *)
Lemma execute_untouched st tx _loanId :
  settles _loanId tx.2 = false ->
  totalLoans (execute st tx) <= _loanId ->
  activeLoans (execute st tx) !!! _loanId = activeLoans st !!! _loanId.
Proof.
  intros Hs. unfold execute, state_after.
  destruct (dispatch st tx.1 tx.2) as [[st' acts]|e] eqn:Hd; [|reflexivity].
  apply dispatch_loans in Hd
    as [[-> _] | [(loan & -> & _ & ->) | (i & Hi & ->)]]; intros Hn.
  - reflexivity.
  - apply lookup_total_insert_ne. lia.
  - unfold settled. cbn [activeLoans set_reentrancyStatus set_activeLoans].
    apply lookup_total_insert_ne. intros ->. congruence.
Qed.

Lemma run_untouched txs : forall st _loanId,
  Forall (fun tx => settles _loanId tx.2 = false) txs ->
  totalLoans (run st txs) <= _loanId ->
  activeLoans (run st txs) !!! _loanId = activeLoans st !!! _loanId.
Proof.
  induction txs as [|tx txs IH]; intros st _loanId Hall Hn; [reflexivity|].
  apply Forall_cons_1 in Hall as [Htx Hall].
  rewrite run_cons in Hn |- *.
  rewrite (IH _ _ Hall Hn).
  apply execute_untouched; [exact Htx|].
  etrans; [apply (run_totalLoans_mono txs) | exact Hn].
Qed.

(** C9, counterexample.  Loan id 5 was never allocated by a funding (the
    loan counter is 0), but after one liquidate call on it a second one, at a
    time > 0, fails with the state-conflict error "Loan is already repaid". *)
Lemma phantom_liquidation_counterexample :
  totalLoans phantom_state = 0 /\
  totalLoans phantom_state <= 5 /\
  ActiveLoan.isRepaid (activeLoans phantom_state !!! 5) = true /\
  liquidateExpiredLoan phantom_state (example_env 30 0 2) 5
  = Err (Revert "Loan is already repaid").
Proof. by vm_compute. Qed.

(** C9, amended.  In every state reached from deployment in which the loan
    id was never allocated by a funding (id >= next loan id) and never the
    target of a repay or liquidate call, the record is still zero-initialised
    (isRepaid = false, endTime = 0), and a liquidate call on that id with no
    value attached (liquidate is not payable) does not fail with any
    not-found or state-conflict error: whenever now > 0 and the two
    zero-value payouts are accepted, it succeeds, marks the phantom record
    repaid, pays a zero bonus to the caller and zero collateral to the zero
    address, and emits a liquidation event.  No further liquidate on the
    same id succeeds: with no value attached it fails with "Loan is already
    repaid". *)
Theorem phantom_liquidation feed deployer txs env _loanId :
  let st := run (constructor feed deployer) txs in
  totalLoans st <= _loanId ->
  Forall (fun tx => settles _loanId tx.2 = false) txs ->
  msg_value env = 0 ->
  0 < block_timestamp env ->
  call_succeeds env (msg_sender env) 0 = true ->
  call_succeeds env 0 0 = true ->
  activeLoans st !!! _loanId = ActiveLoan.zero /\
  liquidateExpiredLoan st env _loanId =
    Ok (settled st _loanId,
        [Transfer (msg_sender env) 0; Transfer 0 0;
         Emit (LoanLiquidated _loanId 0 0)]) /\
  ActiveLoan.isRepaid (activeLoans (settled st _loanId) !!! _loanId) = true /\
  forall env',
    is_Ok (liquidateExpiredLoan (settled st _loanId) env' _loanId) = false /\
    (msg_value env' = 0 ->
     liquidateExpiredLoan (settled st _loanId) env' _loanId
     = Err (Revert "Loan is already repaid")).
Proof.
  intros st Hn Hall Hv Hnow Hc1 Hc2.
  assert (Hz : activeLoans st !!! _loanId = ActiveLoan.zero).
  { unfold st. rewrite (run_untouched txs _ _ Hall Hn).
    cbn [constructor activeLoans]. by rewrite lookup_total_empty. }
  assert (Hidle : _reentrancyStatus st <> _ENTERED).
  { unfold st. apply run_idle. discriminate. }
  assert (Hset : ActiveLoan.isRepaid
                   (activeLoans (settled st _loanId) !!! _loanId) = true).
  { rewrite settled_isRepaid. by case_decide. }
  split; [exact Hz|]. split; [|split; [exact Hset|]].
  - pose proof (liquidateExpiredLoan_expired st env _loanId) as H.
    cbv zeta in H. rewrite Hz in H.
    cbn [ActiveLoan.isRepaid ActiveLoan.endTime ActiveLoan.stake
         ActiveLoan.lender ActiveLoan.zero] in H.
    unfold spec_bonus in H. rewrite Z.mul_0_l in H.
    change (0 ÷ 10000) with 0 in H. rewrite Z.sub_0_r in H.
    apply H; try assumption; try reflexivity.
    by vm_compute.
  - intros env'. split.
    + apply is_Ok_false. intros [st' acts] H.
      apply liquidateExpiredLoan_Ok_inv in H as (_ & H & _). congruence.
    + intros Hv'.
      apply liquidateExpiredLoan_repaid;
        [exact Hv' | discriminate | exact Hset].
Qed.

Lemma phantom_liquidation_witness :
  liquidateExpiredLoan example_state (example_env 30 0 5000) 5 =
    Ok (settled example_state 5,
        [Transfer 30 0; Transfer 0 0; Emit (LoanLiquidated 5 0 0)]).
Proof.
  refine (proj1 (proj2 (phantom_liquidation 0 99
            [ (example_env 10 (20 * 10 ^ 18) 1000,
               CreateLoanRequest (10 * 10 ^ 18) 365 5 0 "cid" 0 "appraisal" 1);
              (example_env 20 (10 * 10 ^ 18) 1000, FundLoanRequest 0) ]
            (example_env 30 0 5000) 5 _ _ _ _ _ _))).
  - by vm_compute.
  - repeat constructor.
  - by vm_compute.
  - by vm_compute.
  - by vm_compute.
  - by vm_compute.
Defined.

(** ** Pausing (C7) *)

Lemma set_paused_id st : set_paused st (paused st) = st.
Proof. by destruct st. Qed.

(** Liquidation does not read the pause flag. *)
Lemma liquidateExpiredLoan_pause_irrelevant st b env _loanId :
  liquidateExpiredLoan (set_paused st b) env _loanId
  = map_state (fun s => set_paused s b) (liquidateExpiredLoan st env _loanId).
Proof.
  unfold liquidateExpiredLoan, nonPayable, nonReentrant, send.
  destruct (msg_value env =? 0); [|reflexivity].
  cbn [_reentrancyStatus set_paused activeLoans set_reentrancyStatus
       liquidationBonusBp].
  repeat
    (match goal with
     | |- context [require ?c _] =>
         destruct c; [rewrite !require_true, !bind_Ok | reflexivity]
     | |- context [checked_mul ?a ?b] =>
         destruct (checked_mul a b); [rewrite !bind_Ok | reflexivity]
     | |- context [checked_div ?a ?b] =>
         destruct (checked_div a b); [rewrite !bind_Ok | reflexivity]
     | |- context [checked_sub ?a ?b] =>
         destruct (checked_sub a b); [rewrite !bind_Ok | reflexivity]
     end).
  reflexivity.
Qed.

Lemma execute_liquidation_paused st b tx :
  is_liquidation tx = true ->
  execute (set_paused st b) tx = set_paused (execute st tx) b.
Proof.
  destruct tx as [env c]. unfold is_liquidation, execute. cbn [fst snd].
  destruct c; try discriminate. intros _. cbn [dispatch].
  rewrite liquidateExpiredLoan_pause_irrelevant.
  by destruct (liquidateExpiredLoan st env _loanId) as [[st' acts]|e].
Qed.

Lemma run_liquidations_paused txs : forall st b,
  Forall (fun tx => is_liquidation tx = true) txs ->
  run (set_paused st b) txs = set_paused (run st txs) b.
Proof.
  induction txs as [|tx txs IH]; intros st b Hall; [reflexivity|].
  apply Forall_cons_1 in Hall as [Htx Hall].
  rewrite !run_cons.
  rewrite execute_liquidation_paused by exact Htx. by apply IH.
Qed.

Lemma execute_liquidation_config st tx :
  is_liquidation tx = true ->
  owner (execute st tx) = owner st /\ paused (execute st tx) = paused st.
Proof.
  destruct tx as [env c]. unfold is_liquidation, execute. cbn [fst snd].
  destruct c; try discriminate. intros _. cbn [dispatch].
  destruct (liquidateExpiredLoan st env _loanId) as [[st' acts]|e] eqn:H;
    [|by split].
  apply liquidateExpiredLoan_Ok_loans in H as ->. by split.
Qed.

Lemma run_liquidations_config txs : forall st,
  Forall (fun tx => is_liquidation tx = true) txs ->
  owner (run st txs) = owner st /\ paused (run st txs) = paused st.
Proof.
  induction txs as [|tx txs IH]; intros st Hall; [by split|].
  apply Forall_cons_1 in Hall as [Htx Hall].
  rewrite run_cons.
  destruct (IH (execute st tx) Hall) as [-> ->].
  by apply execute_liquidation_config.
Qed.

Lemma run_app st txs1 txs2 : run st (txs1 ++ txs2) = run (run st txs1) txs2.
Proof. unfold run. apply fold_left_app. Qed.

Lemma execute_pause st env :
  msg_sender env = owner st -> msg_value env = 0 ->
  execute st (env, Pause) = set_paused st true.
Proof.
  intros H Hv. unfold execute. cbn [fst snd dispatch]. unfold pause.
  rewrite nonPayable_zero by exact Hv. unfold onlyOwner.
  by rewrite H, Z.eqb_refl.
Qed.

Lemma execute_unpause st env :
  msg_sender env = owner st -> msg_value env = 0 ->
  execute st (env, Unpause) = set_paused st false.
Proof.
  intros H Hv. unfold execute. cbn [fst snd dispatch]. unfold unpause.
  rewrite nonPayable_zero by exact Hv. unfold onlyOwner.
  by rewrite H, Z.eqb_refl.
Qed.

(** A pause, liquidations while paused and an unpause leave the platform in
    the state the liquidations alone would have left. *)
Lemma pause_unpause_transparent st0 envp envu txs :
  paused st0 = false ->
  msg_sender envp = owner st0 -> msg_value envp = 0 ->
  msg_sender envu = owner st0 -> msg_value envu = 0 ->
  Forall (fun tx => is_liquidation tx = true) txs ->
  run st0 ((envp, Pause) :: txs ++ [(envu, Unpause)]) = run st0 txs.
Proof.
  intros Hp Hop Hvp Hou Hvu Hall.
  change ((envp, Pause) :: txs ++ [(envu, Unpause)])
    with ([(envp, Pause)] ++ txs ++ [(envu, Unpause)]).
  rewrite !run_app, !run_cons.
  change (run (execute st0 (envp, Pause)) [])
    with (execute st0 (envp, Pause)).
  change (run ?s []) with s.
  rewrite (execute_pause _ _ Hop Hvp).
  rewrite (run_liquidations_paused txs st0 true Hall).
  destruct (run_liquidations_config txs st0 Hall) as [Ho Hpa].
  rewrite execute_unpause; [|cbn [owner set_paused]; congruence|exact Hvu].
  transitivity (set_paused (run st0 txs) (paused (run st0 txs))).
  - rewrite Hpa, Hp. reflexivity.
  - apply set_paused_id.
Qed.

Lemma fundLoanRequest_reentrant st env _requestId :
  _reentrancyStatus st = _ENTERED ->
  fundLoanRequest st env _requestId
  = Err (Revert "ReentrancyGuard: reentrant call").
Proof. intros He. unfold fundLoanRequest, nonReentrant. by rewrite He. Qed.

(** C7, counterexample.  The example platform is paused and account 30
    liquidates the expired loan 0, which succeeds.  While that call pays out
    (the guard engaged, the loan marked repaid) the pause flag is set, but a
    fund_request or a repay made then, as the recipient of the payout can,
    fails with the reentrancy error, not with the pause error. *)
Lemma nested_call_paused_counterexample :
  paused paused_example_state = true /\
  is_Ok (liquidateExpiredLoan paused_example_state
           (example_env 30 0 (1001 + 365 * 86400)) 0) = true /\
  paused (during_liquidation paused_example_state 0) = true /\
  fundLoanRequest (during_liquidation paused_example_state 0)
    (example_env 30 (10 * 10 ^ 18) (1001 + 365 * 86400)) 0
  = Err (Revert "ReentrancyGuard: reentrant call") /\
  repayLoan (during_liquidation paused_example_state 0)
    (example_env 10 (11 * 10 ^ 18) (1001 + 365 * 86400)) 0 0
  = Err (Revert "ReentrancyGuard: reentrant call").
Proof. by vm_compute. Qed.

(** C7, amended.  While the pause flag is set, every create_request call,
    and every fund_request and repay call made outside a call in progress,
    fails with "Paused"; a fund_request or repay made within a call in
    progress fails with the reentrancy error, which is checked first; none
    of them succeeds or changes the state.  liquidate remains callable with
    its normal behaviour: it does not read the flag (same outcome, payouts
    and events as on the unpaused platform, the flag left as it is), so with
    no value attached, on an unrepaid loan, it fails with "Loan is not
    expired yet" while now <= end and after the end, the payouts accepted,
    it marks the loan repaid and pays the bonus to the caller and the rest
    of the stake to the lender.  An unpause by the owner (no value attached)
    only clears the flag, and after a pause, any liquidations and an unpause
    the platform is in the state it would be in had it never been paused, so
    create_request, fund_request and repay behave as when never paused.
    Between transactions the guard is never engaged. *)
Theorem paused_platform st env :
  paused st = true ->
  (forall a d r mc ec pc ac pu,
     createLoanRequest st env a d r mc ec pc ac pu = Err (Revert "Paused")) /\
  (forall _requestId,
     (_reentrancyStatus st <> _ENTERED ->
      fundLoanRequest st env _requestId = Err (Revert "Paused")) /\
     (_reentrancyStatus st = _ENTERED ->
      fundLoanRequest st env _requestId
      = Err (Revert "ReentrancyGuard: reentrant call"))) /\
  (forall _loanId _repayAmount,
     (_reentrancyStatus st <> _ENTERED ->
      repayLoan st env _loanId _repayAmount = Err (Revert "Paused")) /\
     (_reentrancyStatus st = _ENTERED ->
      repayLoan st env _loanId _repayAmount
      = Err (Revert "ReentrancyGuard: reentrant call"))) /\
  (forall c, is_pausable c = true ->
     is_Ok (dispatch st env c) = false /\ execute st (env, c) = st) /\
  (forall _loanId,
     liquidateExpiredLoan st env _loanId
     = map_state (fun s => set_paused s true)
         (liquidateExpiredLoan (set_paused st false) env _loanId)) /\
  (forall _loanId,
     let loan := activeLoans st !!! _loanId in
     let stake := ActiveLoan.stake loan in
     let bonus := stake * liquidationBonusBp st ÷ 10000 in
     msg_value env = 0 -> _reentrancyStatus st <> _ENTERED ->
     ActiveLoan.isRepaid loan = false ->
     0 <= stake -> 0 <= liquidationBonusBp st <= 10000 ->
     stake * liquidationBonusBp st <= MAX_UINT256 ->
     (block_timestamp env <= ActiveLoan.endTime loan ->
      liquidateExpiredLoan st env _loanId
      = Err (Revert "Loan is not expired yet")) /\
     (ActiveLoan.endTime loan < block_timestamp env ->
      call_succeeds env (msg_sender env) bonus = true ->
      call_succeeds env (ActiveLoan.lender loan) (stake - bonus) = true ->
      liquidateExpiredLoan st env _loanId =
        Ok (settled st _loanId,
            [Transfer (msg_sender env) bonus;
             Transfer (ActiveLoan.lender loan) (stake - bonus);
             Emit (LoanLiquidated _loanId (ActiveLoan.lender loan) stake)]) /\
      paused (settled st _loanId) = true /\
      ActiveLoan.isRepaid (activeLoans (settled st _loanId) !!! _loanId)
      = true)) /\
  (forall envu, msg_sender envu = owner st -> msg_value envu = 0 ->
     execute st (envu, Unpause) = set_paused st false) /\
  (forall st0 envp envu liquidations,
     paused st0 = false ->
     msg_sender envp = owner st0 -> msg_value envp = 0 ->
     msg_sender envu = owner st0 -> msg_value envu = 0 ->
     Forall (fun tx => is_liquidation tx = true) liquidations ->
     run st0 ((envp, Pause) :: liquidations ++ [(envu, Unpause)])
     = run st0 liquidations) /\
  (forall feed deployer txs,
     _reentrancyStatus (run (constructor feed deployer) txs) <> _ENTERED).
Proof.
  intros Hp.
  assert (Hc : forall a d r mc ec pc ac pu,
    createLoanRequest st env a d r mc ec pc ac pu = Err (Revert "Paused")).
  { intros. unfold createLoanRequest. by apply whenNotPaused_paused. }
  assert (Hf : forall _requestId,
    (_reentrancyStatus st <> _ENTERED ->
     fundLoanRequest st env _requestId = Err (Revert "Paused")) /\
    (_reentrancyStatus st = _ENTERED ->
     fundLoanRequest st env _requestId
     = Err (Revert "ReentrancyGuard: reentrant call"))).
  { intros. split; [|apply fundLoanRequest_reentrant].
    intros Hidle. unfold fundLoanRequest.
    rewrite nonReentrant_idle by exact Hidle.
    by rewrite whenNotPaused_paused. }
  assert (Hr : forall _loanId _repayAmount,
    (_reentrancyStatus st <> _ENTERED ->
     repayLoan st env _loanId _repayAmount = Err (Revert "Paused")) /\
    (_reentrancyStatus st = _ENTERED ->
     repayLoan st env _loanId _repayAmount
     = Err (Revert "ReentrancyGuard: reentrant call"))).
  { intros. split; [|apply repayLoan_reentrant].
    intros Hidle. by apply repayLoan_paused. }
  split; [exact Hc|]. split; [exact Hf|]. split; [exact Hr|].
  split; [|split; [|split; [|split; [|split]]]].
  - intros c Hg.
    assert (He : exists e, dispatch st env c = Err e).
    { destruct c; try discriminate; cbn [dispatch].
      - rewrite Hc. eauto.
      - destruct (Z.eq_dec (_reentrancyStatus st) _ENTERED) as [E|E].
        + rewrite (proj2 (Hf _requestId) E). eauto.
        + rewrite (proj1 (Hf _requestId) E). eauto.
      - destruct (Z.eq_dec (_reentrancyStatus st) _ENTERED) as [E|E].
        + rewrite (proj2 (Hr _loanId _repayAmount) E). eauto.
        + rewrite (proj1 (Hr _loanId _repayAmount) E). eauto. }
    destruct He as [e He]. unfold execute. cbn [fst snd]. by rewrite He.
  - intros _loanId.
    rewrite <- liquidateExpiredLoan_pause_irrelevant.
    change (set_paused (set_paused st false) true) with (set_paused st true).
    replace (set_paused st true) with st; [reflexivity|].
    rewrite <- Hp. symmetry. apply set_paused_id.
  - intros _loanId loan stake bonus Hv Hidle Hrep Hs Hbp Hmul.
    destruct (spec_bonus_bounds stake (liquidationBonusBp st) Hs Hbp)
      as [[Hb0 Hb1] _].
    split.
    + intros Ht. by apply liquidateExpiredLoan_not_expired.
    + intros Ht Hc1 Hc2. split; [|split].
      * by apply liquidateExpiredLoan_expired.
      * exact Hp.
      * rewrite settled_isRepaid. by case_decide.
  - intros envu. apply execute_unpause.
  - intros. by apply pause_unpause_transparent.
  - intros feed deployer txs. apply run_idle. discriminate.
Qed.

Lemma paused_platform_witness :
  liquidateExpiredLoan paused_example_state
    (example_env 30 0 (1001 + 365 * 86400)) 0
  = Ok (settled paused_example_state 0,
        [Transfer 30 (6 * 10 ^ 17); Transfer 20 (194 * 10 ^ 17);
         Emit (LoanLiquidated 0 20 (20 * 10 ^ 18))]) /\
  fundLoanRequest paused_example_state (example_env 20 1000 1000) 0
  = Err (Revert "Paused").
Proof.
  pose proof (paused_platform paused_example_state
                (example_env 30 0 (1001 + 365 * 86400))
                ltac:(by vm_compute)) as (_ & _ & _ & _ & _ & Hl & _).
  pose proof (paused_platform paused_example_state
                (example_env 20 1000 1000)
                ltac:(by vm_compute)) as (_ & Hf & _).
  split.
  - refine (proj1 (proj2 (Hl 0 _ _ _ _ _ _) _ _ _)).
    + by vm_compute.
    + by vm_compute.
    + by vm_compute.
    + by vm_compute.
    + by vm_compute.
    + by vm_compute.
    + by vm_compute.
    + by vm_compute.
    + by vm_compute.
  - apply (proj1 (Hf 0)). by vm_compute.
Defined.

(** ** Repayment and the overdue penalty (C8) *)

Lemma _applyOverduePenaltyEth_zero st env _loanId baseDueEth :
  overdueRepayPenaltyBp st = 0 ->
  _applyOverduePenaltyEth st env _loanId baseDueEth = Ok baseDueEth.
Proof. intros H. unfold _applyOverduePenaltyEth. by rewrite H. Qed.

Lemma _applyOverduePenaltyEth_value st env _loanId baseDueEth currentPrice :
  let value := baseDueEth * currentPrice ÷ 10 ^ 18 in
  let penalty := value * overdueRepayPenaltyBp st ÷ 10000 in
  overdueRepayPenaltyBp st <> 0 ->
  _getEthUsdPrice st env = Ok currentPrice ->
  currentPrice <> 0 ->
  baseDueEth * currentPrice <= MAX_UINT256 ->
  value * overdueRepayPenaltyBp st <= MAX_UINT256 ->
  value + penalty <= MAX_UINT256 ->
  (value + penalty) * 10 ^ 18 <= MAX_UINT256 ->
  _applyOverduePenaltyEth st env _loanId baseDueEth
  = Ok (spec_penalized_due baseDueEth currentPrice (overdueRepayPenaltyBp st)).
Proof.
  intros value penalty Hbp Hprice Hp H1 H2 H3 H4.
  unfold _applyOverduePenaltyEth.
  rewrite (proj2 (Z.eqb_neq _ _) Hbp), Hprice, bind_Ok.
  destruct constants_eval as (_ & H18 & _ & _). rewrite H18.
  change (10 ^ 18) with 1000000000000000000 in *.
  rewrite (checked_mul_Ok _ _ H1), bind_Ok.
  rewrite checked_div_Ok by lia. rewrite bind_Ok. fold value.
  rewrite (checked_mul_Ok _ _ H2), bind_Ok.
  rewrite checked_div_Ok by lia. rewrite bind_Ok. fold penalty.
  rewrite (checked_add_Ok _ _ H3), bind_Ok.
  rewrite (checked_mul_Ok _ _ H4), bind_Ok.
  by rewrite (checked_div_Ok _ _ Hp).
Qed.

(** A repayment that passes its checks, for the amount [dueEth] the contract
    computes, and whose payouts are accepted. *)
Lemma repayLoan_Ok st env _loanId _repayAmount base dueEth :
  let loan := activeLoans st !!! _loanId in
  _reentrancyStatus st <> _ENTERED -> paused st = false ->
  msg_sender env = ActiveLoan.borrower loan ->
  ActiveLoan.isRepaid loan = false -> 0 < msg_value env ->
  calculateAmountDueEth st env _loanId = Ok base ->
  (if ActiveLoan.endTime loan <? block_timestamp env
   then _applyOverduePenaltyEth st env _loanId base
   else Ok base) = Ok dueEth ->
  dueEth <= msg_value env ->
  call_succeeds env (ActiveLoan.lender loan) dueEth = true ->
  call_succeeds env (ActiveLoan.borrower loan) (ActiveLoan.stake loan) = true ->
  (0 < msg_value env - dueEth ->
   call_succeeds env (ActiveLoan.borrower loan) (msg_value env - dueEth)
   = true) ->
  repayLoan st env _loanId _repayAmount =
    Ok (settled st _loanId,
        [Transfer (ActiveLoan.lender loan) dueEth;
         Transfer (ActiveLoan.borrower loan) (ActiveLoan.stake loan)]
        ++ (if 0 <? msg_value env - dueEth
            then [Transfer (ActiveLoan.borrower loan) (msg_value env - dueEth)]
            else [])
        ++ [Emit (LoanRepaid _loanId (ActiveLoan.borrower loan)
                    (ActiveLoan.lender loan) dueEth)]).
Proof.
  intros loan Hidle Hp Hs Hrep Hv Hbase Hdue Hle Hc1 Hc2 Hc3.
  unfold repayLoan.
  rewrite nonReentrant_idle by exact Hidle.
  rewrite whenNotPaused_running by exact Hp.
  cbn [activeLoans set_reentrancyStatus]. fold loan.
  rewrite Hs, Z.eqb_refl, require_true, bind_Ok.
  rewrite Hrep. cbn [negb]. rewrite require_true, bind_Ok.
  rewrite (proj2 (Z.ltb_lt _ _) Hv), require_true, bind_Ok.
  change (calculateAmountDueEth (set_reentrancyStatus st _ENTERED) env _loanId)
    with (calculateAmountDueEth st env _loanId).
  rewrite Hbase, bind_Ok.
  change (_applyOverduePenaltyEth (set_reentrancyStatus st _ENTERED) env
            _loanId base)
    with (_applyOverduePenaltyEth st env _loanId base).
  rewrite Hdue, bind_Ok.
  rewrite (proj2 (Z.leb_le _ _) Hle), require_true, bind_Ok.
  unfold send.
  rewrite Hc1, Hc2, !require_true, !bind_Ok.
  rewrite (checked_sub_Ok _ _ Hle), bind_Ok.
  destruct (Z.ltb_spec 0 (msg_value env - dueEth)) as [Hex|Hex].
  - rewrite (Hc3 Hex), require_true, !bind_Ok. reflexivity.
  - rewrite bind_Ok. reflexivity.
Qed.

(** C8.  A repay call on an unrepaid loan settles the amount [due]: when
    now > end and penaltyBp <> 0 it is the base due converted to reference
    value at the current price (baseDue * currentPrice / 10^18, truncated),
    increased by penaltyBp / 10000 of that value, converted back at the same
    current price; when now <= end, or when penaltyBp = 0, it is the base due
    unchanged.  With the payment covering it and the payouts accepted, the
    call pays exactly [due] to the lender, returns the stake, refunds the
    excess and reports [due] in the repayment event. *)
Theorem repayLoan_amount_due st env _loanId _repayAmount base currentPrice :
  let loan := activeLoans st !!! _loanId in
  let penaltyBp := overdueRepayPenaltyBp st in
  let value := base * currentPrice ÷ 10 ^ 18 in
  let due :=
    if (ActiveLoan.endTime loan <? block_timestamp env) && negb (penaltyBp =? 0)
    then (value + value * penaltyBp ÷ 10000) * 10 ^ 18 ÷ currentPrice
    else base in
  _reentrancyStatus st <> _ENTERED -> paused st = false ->
  msg_sender env = ActiveLoan.borrower loan ->
  ActiveLoan.isRepaid loan = false -> 0 < msg_value env ->
  calculateAmountDueEth st env _loanId = Ok base ->
  _getEthUsdPrice st env = Ok currentPrice ->
  (ActiveLoan.endTime loan < block_timestamp env -> penaltyBp <> 0 ->
   base * currentPrice <= MAX_UINT256 /\
   value * penaltyBp <= MAX_UINT256 /\
   value + value * penaltyBp ÷ 10000 <= MAX_UINT256 /\
   (value + value * penaltyBp ÷ 10000) * 10 ^ 18 <= MAX_UINT256) ->
  due <= msg_value env ->
  call_succeeds env (ActiveLoan.lender loan) due = true ->
  call_succeeds env (ActiveLoan.borrower loan) (ActiveLoan.stake loan) = true ->
  (0 < msg_value env - due ->
   call_succeeds env (ActiveLoan.borrower loan) (msg_value env - due) = true) ->
  repayLoan st env _loanId _repayAmount =
    Ok (settled st _loanId,
        [Transfer (ActiveLoan.lender loan) due;
         Transfer (ActiveLoan.borrower loan) (ActiveLoan.stake loan)]
        ++ (if 0 <? msg_value env - due
            then [Transfer (ActiveLoan.borrower loan) (msg_value env - due)]
            else [])
        ++ [Emit (LoanRepaid _loanId (ActiveLoan.borrower loan)
                    (ActiveLoan.lender loan) due)]) /\
  (block_timestamp env <= ActiveLoan.endTime loan -> due = base) /\
  (penaltyBp = 0 -> due = base).
Proof.
  intros loan penaltyBp value due Hidle Hp Hs Hrep Hv Hbase Hprice Hb Hle
    Hc1 Hc2 Hc3.
  split; [|split].
  - apply (repayLoan_Ok st env _loanId _repayAmount base due); try assumption.
    fold loan. unfold due.
    destruct (Z.ltb_spec (ActiveLoan.endTime loan) (block_timestamp env))
      as [Hover|Hnot]; [|reflexivity].
    destruct (Z.eqb_spec penaltyBp 0) as [Hz|Hnz]; cbn [andb negb].
    + by apply _applyOverduePenaltyEth_zero.
    + destruct (Hb Hover Hnz) as (B1 & B2 & B3 & B4).
      apply calculateAmountDueEth_Ok_inv in Hbase
        as (_ & p & Hp' & Hp0 & _).
      assert (p = currentPrice) by congruence. subst p.
      by rewrite (_applyOverduePenaltyEth_value st env _loanId base
                    currentPrice Hnz Hprice Hp0 B1 B2 B3 B4).
  - intros Ht. unfold due. by rewrite (proj2 (Z.ltb_ge _ _) Ht).
  - intros Hz. unfold due. rewrite Hz, Z.eqb_refl.
    by rewrite andb_false_r.
Qed.

Lemma repayLoan_amount_due_witness :
  repayLoan example_state
    (example_env 10 (11 * 10 ^ 18) (1001 + 365 * 86400)) 0 0 =
    Ok (settled example_state 0,
        [Transfer 20 10815000016330542870; Transfer 10 (20 * 10 ^ 18);
         Transfer 10 184999983669457130;
         Emit (LoanRepaid 0 10 20 10815000016330542870)]).
Proof.
  refine (proj1 (repayLoan_amount_due example_state
            (example_env 10 (11 * 10 ^ 18) (1001 + 365 * 86400)) 0 0
            10500000015854895991 (2000 * 10 ^ 18) _ _ _ _ _ _ _ _ _ _ _ _)).
  - by vm_compute.
  - by vm_compute.
  - by vm_compute.
  - by vm_compute.
  - by vm_compute.
  - by vm_compute.
  - by vm_compute.
  - intros _ _. by vm_compute.
  - by vm_compute.
  - by vm_compute.
  - by vm_compute.
  - intros _. by vm_compute.
Defined.

(** ** The price read and its failures (C6) *)

Lemma _getEthUsdPrice_demo st env :
  ethUsdFeed st = 0 -> _getEthUsdPrice st env = Ok (demoFixedEthUsdPrice st).
Proof. intros H. unfold _getEthUsdPrice. by rewrite H. Qed.

Lemma _getEthUsdPrice_invalid st env :
  ethUsdFeed st <> 0 ->
  answer (latestRoundData env (ethUsdFeed st)) <= 0 ->
  _getEthUsdPrice st env = Err (Revert "Invalid oracle price").
Proof.
  intros Hf Ha. unfold _getEthUsdPrice.
  rewrite (proj2 (Z.eqb_neq _ _) Hf).
  by rewrite (proj2 (Z.ltb_ge _ _) Ha).
Qed.

Lemma _getEthUsdPrice_stale st env :
  ethUsdFeed st <> 0 ->
  0 <= maxPriceStalenessSeconds st ->
  0 < answer (latestRoundData env (ethUsdFeed st)) ->
  block_timestamp env - updatedAt (latestRoundData env (ethUsdFeed st))
    > maxPriceStalenessSeconds st ->
  _getEthUsdPrice st env = Err (Revert "Stale oracle price").
Proof.
  intros Hf Hm Ha Hs. unfold _getEthUsdPrice.
  rewrite (proj2 (Z.eqb_neq _ _) Hf).
  rewrite (proj2 (Z.ltb_lt _ _) Ha), require_true, bind_Ok.
  rewrite checked_sub_Ok by lia. rewrite bind_Ok.
  assert (Hgt : maxPriceStalenessSeconds st
                < block_timestamp env
                  - updatedAt (latestRoundData env (ethUsdFeed st))) by lia.
  by rewrite (proj2 (Z.leb_gt _ _) Hgt).
Qed.

(** With a feed configured the fixed price is not read. *)
Lemma _getEthUsdPrice_ignores_fixed st env p :
  ethUsdFeed st <> 0 ->
  _getEthUsdPrice (set_demoFixedEthUsdPrice st p) env = _getEthUsdPrice st env.
Proof.
  intros Hf. unfold _getEthUsdPrice.
  cbn [ethUsdFeed set_demoFixedEthUsdPrice maxPriceStalenessSeconds].
  by rewrite (proj2 (Z.eqb_neq _ _) Hf).
Qed.

Lemma calculateAmountDueEth_oracle_failure st env env' _loanId e :
  block_timestamp env = block_timestamp env' ->
  _getEthUsdPrice st env = Err e ->
  is_Ok (calculateAmountDueEth st env' _loanId) = true ->
  calculateAmountDueEth st env _loanId = Err e.
Proof.
  intros Ht He Hok.
  destruct (calculateAmountDueEth st env' _loanId) as [d|] eqn:H;
    [|discriminate].
  apply calculateAmountDueEth_Ok_inv in H
    as (Hrep & p & _ & _ & B1 & B2 & B3 & B4 & _).
  rewrite <- Ht in B3, B4.
  unfold calculateAmountDueEth. rewrite Hrep. cbn [negb].
  rewrite require_true, bind_Ok, elapsed_eval, bind_Ok.
  destruct constants_eval as (Hy & H18 & _ & _). rewrite Hy, H18.
  change (10 ^ 18) with 1000000000000000000 in *.
  change (365 * 86400 * 100) with 3153600000 in *.
  rewrite (checked_mul_Ok _ _ B1), bind_Ok.
  rewrite checked_div_Ok by lia. rewrite bind_Ok.
  rewrite (checked_mul_Ok _ _ B2), bind_Ok.
  rewrite (checked_mul_Ok _ _ B3), bind_Ok.
  rewrite checked_div_Ok by lia. rewrite bind_Ok.
  rewrite (checked_add_Ok _ _ B4), bind_Ok.
  by rewrite He.
Qed.

Lemma calculateAmountDueEth_needs_price st env _loanId e :
  _getEthUsdPrice st env = Err e ->
  is_Ok (calculateAmountDueEth st env _loanId) = false.
Proof.
  intros He. apply is_Ok_false. intros d H.
  apply calculateAmountDueEth_Ok_inv in H as (_ & p & Hp & _). congruence.
Qed.

Lemma repayLoan_oracle_failure st env env' _loanId _repayAmount e :
  same_call env env' ->
  _getEthUsdPrice st env = Err e ->
  is_Ok (repayLoan st env' _loanId _repayAmount) = true ->
  repayLoan st env _loanId _repayAmount = Err e.
Proof.
  intros (Hsn & Hval & Ht) He Hok.
  destruct (repayLoan st env' _loanId _repayAmount) as [[st' acts]|] eqn:H;
    [|discriminate].
  apply repayLoan_Ok_inv in H
    as (Hidle & Hp & Hs & Hrep & Hv & base & due & Hbase & _).
  assert (Hc : calculateAmountDueEth st env _loanId = Err e).
  { apply (calculateAmountDueEth_oracle_failure st env env'); try assumption.
    by rewrite Hbase. }
  unfold repayLoan.
  rewrite nonReentrant_idle by exact Hidle.
  rewrite whenNotPaused_running by exact Hp.
  cbn [activeLoans set_reentrancyStatus].
  rewrite Hsn, Hs, Z.eqb_refl, require_true, bind_Ok.
  rewrite Hrep. cbn [negb]. rewrite require_true, bind_Ok.
  rewrite Hval, (proj2 (Z.ltb_lt _ _) Hv), require_true, bind_Ok.
  change (calculateAmountDueEth (set_reentrancyStatus st _ENTERED) env _loanId)
    with (calculateAmountDueEth st env _loanId).
  by rewrite Hc.
Qed.

Lemma repayLoan_needs_price st env _loanId _repayAmount e :
  _getEthUsdPrice st env = Err e ->
  is_Ok (repayLoan st env _loanId _repayAmount) = false.
Proof.
  intros He. apply is_Ok_false. intros [st' acts] H.
  apply repayLoan_Ok_inv in H as (_ & _ & _ & _ & _ & base & due & Hb & _).
  pose proof (calculateAmountDueEth_needs_price st env _loanId e He) as Hn.
  by rewrite Hb in Hn.
Qed.

(** What a successful funding checked before it read the price. *)
Lemma fundLoanRequest_Ok_inv st env _requestId st' acts :
  fundLoanRequest st env _requestId = Ok (st', acts) ->
  let request := loanRequests st !!! _requestId in
  _reentrancyStatus st <> _ENTERED /\ paused st = false /\
  LoanRequest.isActive request = true /\
  msg_value env = LoanRequest.loanAmount request /\
  totalLoans st + 1 <= MAX_UINT256 /\
  LoanRequest.duration request * (1 * days) <= MAX_UINT256 /\
  block_timestamp env + LoanRequest.duration request * (1 * days)
    <= MAX_UINT256 /\
  exists price, _getEthUsdPrice st env = Ok price.
Proof.
  intros H request. unfold fundLoanRequest in H.
  apply nonReentrant_Ok_inv in H as (Hidle & st'' & H & ->).
  apply whenNotPaused_Ok_inv in H as (Hp & H).
  cbn [loanRequests set_reentrancyStatus paused] in Hp, H. fold request in H.
  destruct (LoanRequest.isActive request); [|discriminate].
  rewrite require_true, bind_Ok in H.
  destruct (Z.eqb_spec (msg_value env) (LoanRequest.loanAmount request))
    as [Hval|]; [|discriminate].
  rewrite require_true, bind_Ok in H.
  unfold getNextLoanId in H. cbn [totalLoans set_reentrancyStatus] in H.
  destruct (checked_add (totalLoans st) 1) as [n|] eqn:Hn; [|discriminate].
  apply checked_add_Ok_inv in Hn as [-> Hn].
  rewrite !bind_Ok in H.
  destruct (checked_mul (LoanRequest.duration request) (1 * days))
    as [dur|] eqn:Hdur; [|discriminate].
  apply checked_mul_Ok_inv in Hdur as [-> Hdur].
  rewrite bind_Ok in H.
  destruct (checked_add (block_timestamp env)
              (LoanRequest.duration request * (1 * days)))
    as [endT|] eqn:Hend; [|discriminate].
  apply checked_add_Ok_inv in Hend as [-> Hend].
  rewrite bind_Ok in H.
  match type of H with
  | (?m ≫= _) = _ =>
      change m with (_getEthUsdPrice st env) in H;
      destruct (_getEthUsdPrice st env) as [price|] eqn:Hprice;
      [|discriminate]
  end.
  repeat split; try assumption. by exists price.
Qed.

Lemma fundLoanRequest_oracle_failure st env env' _requestId e :
  same_call env env' ->
  _getEthUsdPrice st env = Err e ->
  is_Ok (fundLoanRequest st env' _requestId) = true ->
  fundLoanRequest st env _requestId = Err e.
Proof.
  intros (Hsn & Hval & Ht) He Hok.
  destruct (fundLoanRequest st env' _requestId) as [[st' acts]|] eqn:H;
    [|discriminate].
  apply fundLoanRequest_Ok_inv in H
    as (Hidle & Hp & Hact & Hv & Hn & Hdur & Hend & _).
  rewrite <- Hval in Hv. rewrite <- Ht in Hend.
  unfold fundLoanRequest.
  rewrite nonReentrant_idle by exact Hidle.
  rewrite whenNotPaused_running by exact Hp.
  cbn [loanRequests set_reentrancyStatus].
  rewrite Hact, require_true, bind_Ok.
  rewrite Hv, Z.eqb_refl, require_true, bind_Ok.
  unfold getNextLoanId. cbn [totalLoans set_reentrancyStatus].
  rewrite (checked_add_Ok _ _ Hn), !bind_Ok.
  rewrite (checked_mul_Ok _ _ Hdur), bind_Ok.
  rewrite (checked_add_Ok _ _ Hend), bind_Ok.
  change (_getEthUsdPrice
            (set_totalLoans (set_reentrancyStatus st _ENTERED)
               (totalLoans st + 1)) env)
    with (_getEthUsdPrice st env).
  by rewrite He.
Qed.

Lemma fundLoanRequest_needs_price st env _requestId e :
  _getEthUsdPrice st env = Err e ->
  is_Ok (fundLoanRequest st env _requestId) = false.
Proof.
  intros He. apply is_Ok_false. intros [st' acts] H.
  apply fundLoanRequest_Ok_inv in H as (_ & _ & _ & _ & _ & _ & _ & p & Hp).
  congruence.
Qed.

(** C6, counterexample.  With the feed at address 77 configured and a
    staleness bound of 3600: a feed that answers 0 and was last updated at
    time 0 is read at time 10000, so now - updatedAt = 10000 exceeds the
    bound, yet the price read and the amount-due computation fail with
    "Invalid oracle price", not with the stale-price error; and with a
    positive answer that is stale, a repay call by account 30 (not the
    borrower) fails with "Only borrower can repay", not with the stale-price
    error. *)
Lemma oracle_error_counterexample :
  ethUsdFeed feed_state = 77 /\
  maxPriceStalenessSeconds feed_state = 3600 /\
  block_timestamp (feed_env 10 0 10000 0 0)
    - updatedAt (latestRoundData (feed_env 10 0 10000 0 0) 77) = 10000 /\
  _getEthUsdPrice feed_state (feed_env 10 0 10000 0 0)
    = Err (Revert "Invalid oracle price") /\
  calculateAmountDueEth feed_state (feed_env 10 0 10000 0 0) 0
    = Err (Revert "Invalid oracle price") /\
  _getEthUsdPrice feed_state
    (feed_env 30 (11 * 10 ^ 18) 10000 (2000 * 10 ^ 8) 100)
    = Err (Revert "Stale oracle price") /\
  repayLoan feed_state
    (feed_env 30 (11 * 10 ^ 18) 10000 (2000 * 10 ^ 8) 100) 0 0
    = Err (Revert "Only borrower can repay").
Proof. by vm_compute. Qed.

(** C6, amended.  Whenever a price feed is configured, the price read fails
    with "Invalid oracle price" if the feed's answer <= 0 and, for a positive
    answer, with "Stale oracle price" if now - updatedAt exceeds the
    staleness bound.  When the price read fails, funding, the amount-due
    computation and repayment never succeed, and each fails with the price
    read's own error whenever the same call would have succeeded with
    another feed answer (a call rejected by an earlier check fails with that
    check's error).  The operator-set fixed price is never substituted: with
    a feed configured the price read does not depend on it; it is returned
    only when no feed is configured. *)
Theorem oracle_failure_propagates st env :
  ethUsdFeed st <> 0 ->
  0 <= maxPriceStalenessSeconds st ->
  let rd := latestRoundData env (ethUsdFeed st) in
  (answer rd <= 0 ->
   _getEthUsdPrice st env = Err (Revert "Invalid oracle price")) /\
  (0 < answer rd ->
   block_timestamp env - updatedAt rd > maxPriceStalenessSeconds st ->
   _getEthUsdPrice st env = Err (Revert "Stale oracle price")) /\
  (forall e, _getEthUsdPrice st env = Err e ->
     (forall _requestId _loanId _repayAmount,
        is_Ok (fundLoanRequest st env _requestId) = false /\
        is_Ok (calculateAmountDueEth st env _loanId) = false /\
        is_Ok (repayLoan st env _loanId _repayAmount) = false) /\
     (forall env', same_call env env' ->
        (forall _requestId,
           is_Ok (fundLoanRequest st env' _requestId) = true ->
           fundLoanRequest st env _requestId = Err e) /\
        (forall _loanId,
           is_Ok (calculateAmountDueEth st env' _loanId) = true ->
           calculateAmountDueEth st env _loanId = Err e) /\
        (forall _loanId _repayAmount,
           is_Ok (repayLoan st env' _loanId _repayAmount) = true ->
           repayLoan st env _loanId _repayAmount = Err e))) /\
  (forall p,
     _getEthUsdPrice (set_demoFixedEthUsdPrice st p) env
     = _getEthUsdPrice st env) /\
  (forall st0, ethUsdFeed st0 = 0 ->
     _getEthUsdPrice st0 env = Ok (demoFixedEthUsdPrice st0)).
Proof.
  intros Hf Hm rd. split; [|split; [|split; [|split]]].
  - by apply _getEthUsdPrice_invalid.
  - by apply _getEthUsdPrice_stale.
  - intros e He. split.
    + intros. split; [|split].
      * by eapply fundLoanRequest_needs_price.
      * by eapply calculateAmountDueEth_needs_price.
      * by eapply repayLoan_needs_price.
    + intros env' Hsame. split; [|split].
      * intros. by eapply fundLoanRequest_oracle_failure.
      * intros. eapply calculateAmountDueEth_oracle_failure; try eassumption.
        apply Hsame.
      * intros. by eapply repayLoan_oracle_failure.
  - intros p. by apply _getEthUsdPrice_ignores_fixed.
  - intros st0. apply _getEthUsdPrice_demo.
Qed.

Lemma oracle_failure_propagates_witness :
  repayLoan feed_state
    (feed_env 10 (11 * 10 ^ 18) 10000 (2000 * 10 ^ 8) 100) 0 0
  = Err (Revert "Stale oracle price").
Proof.
  refine (proj2 (proj2 (proj2 (proj1 (proj2 (proj2
            (oracle_failure_propagates feed_state
               (feed_env 10 (11 * 10 ^ 18) 10000 (2000 * 10 ^ 8) 100) _ _)))
            (Revert "Stale oracle price") _)
            (feed_env 10 (11 * 10 ^ 18) 10000 (2000 * 10 ^ 8) 9000) _))
            0 0 _).
  - by vm_compute.
  - by vm_compute.
  - by vm_compute.
  - repeat split.
  - by vm_compute.
Defined.

(** ** The repay-amount parameter (C10) *)

(** C10.  The declared repay-amount parameter of repay has no effect: two
    invocations that agree on loan id, caller, attached value, time, price
    and ledger state have the same outcome, transfers, resulting state and
    event whatever the two repay-amount arguments are; and a successful
    repayment has judged sufficiency against the attached value alone
    (due <= attached value), pays [due] to the lender and refunds exactly
    the excess attached value - due when it is positive. *)
Theorem repayLoan_ignores_repayAmount st env _loanId amount1 amount2 :
  repayLoan st env _loanId amount1 = repayLoan st env _loanId amount2 /\
  forall st' acts,
    repayLoan st env _loanId amount1 = Ok (st', acts) ->
    let loan := activeLoans st !!! _loanId in
    exists due,
      due <= msg_value env /\
      acts = [Transfer (ActiveLoan.lender loan) due;
              Transfer (ActiveLoan.borrower loan) (ActiveLoan.stake loan)]
             ++ (if 0 <? msg_value env - due
                 then [Transfer (ActiveLoan.borrower loan)
                         (msg_value env - due)]
                 else [])
             ++ [Emit (LoanRepaid _loanId (ActiveLoan.borrower loan)
                         (ActiveLoan.lender loan) due)].
Proof.
  split; [reflexivity|].
  intros st' acts H loan.
  apply repayLoan_Ok_inv in H
    as (_ & _ & _ & _ & _ & base & due & _ & _ & Hle & _ & ->).
  exists due. split; [exact Hle | reflexivity].
Qed.

Lemma repayLoan_ignores_repayAmount_witness :
  exists due,
    due <= 11 * 10 ^ 18 /\
    [Transfer 20 10815000016330542870; Transfer 10 (20 * 10 ^ 18);
     Transfer 10 184999983669457130;
     Emit (LoanRepaid 0 10 20 10815000016330542870)]
    = [Transfer 20 due; Transfer 10 (20 * 10 ^ 18)]
      ++ (if 0 <? 11 * 10 ^ 18 - due
          then [Transfer 10 (11 * 10 ^ 18 - due)] else [])
      ++ [Emit (LoanRepaid 0 10 20 due)].
Proof.
  refine (proj2 (repayLoan_ignores_repayAmount example_state
            (example_env 10 (11 * 10 ^ 18) (1001 + 365 * 86400)) 0 7 0)
            (settled example_state 0) _ _).
  by vm_compute.
Defined.

(** ** The ledger invariant

    The side conditions the theorems above take as hypotheses on the state
    (the reentrancy guard is not engaged, the bonus and penalty rates are at
    most 5000 bp, the fixed price is positive, loan fields are [uint256]s)
    hold in every state reached from deployment by well-formed
    transactions, together with the data-model invariant that a stake is
    exactly twice its loan amount. *)

Lemma createLoanRequest_Ok_inv st env a d r mc ec pc ac pu st' acts :
  createLoanRequest st env a d r mc ec pc ac pu = Ok (st', acts) ->
  paused st = false /\ 0 < a /\ 0 < d /\ a * 2 <= MAX_UINT256 /\
  msg_value env = a * 2 /\ 0 < r <= MAX_INTEREST_RATE /\
  st' = set_loanRequests (set_totalRequests st (totalRequests st + 1))
          (<[totalRequests st :=
               LoanRequest.mk (msg_sender env) a d true (msg_value env) r
                 mc ec pc ac pu]> (loanRequests st)).
Proof.
  intros H. unfold createLoanRequest in H.
  apply whenNotPaused_Ok_inv in H as (Hp & H).
  destruct (Z.ltb_spec 0 a) as [Ha|]; [|discriminate H].
  rewrite require_true, bind_Ok in H.
  destruct (Z.ltb_spec 0 d) as [Hd|]; [|discriminate H].
  rewrite require_true, bind_Ok in H.
  destruct (checked_mul a 2) as [twice|] eqn:Hm; [|discriminate H].
  apply checked_mul_Ok_inv in Hm as [-> Hm]. rewrite bind_Ok in H.
  destruct (Z.eqb_spec (msg_value env) (a * 2)) as [Hv|]; [|discriminate H].
  rewrite require_true, bind_Ok in H.
  destruct (Z.leb_spec r MAX_INTEREST_RATE) as [Hr7|]; [|discriminate H].
  rewrite require_true, bind_Ok in H.
  destruct (Z.ltb_spec 0 r) as [Hr0|]; [|discriminate H].
  rewrite require_true, bind_Ok in H.
  unfold getNextRequestId in H.
  destruct (checked_add (totalRequests st) 1) as [n|] eqn:Hn;
    [|discriminate H].
  apply checked_add_Ok_inv in Hn as [-> Hn]. rewrite !bind_Ok in H.
  injection H as <- <-. repeat split; assumption.
Qed.

(** The loan a successful funding writes, and what it leaves alone. *)
Lemma fundLoanRequest_Ok_state st env _requestId st' acts :
  fundLoanRequest st env _requestId = Ok (st', acts) ->
  let request := loanRequests st !!! _requestId in
  exists price,
    _getEthUsdPrice st env = Ok price /\
    LoanRequest.isActive request = true /\
    block_timestamp env + LoanRequest.duration request * (1 * days)
      <= MAX_UINT256 /\
    activeLoans st' =
      <[totalLoans st :=
          ActiveLoan.mk (LoanRequest.borrower request) (msg_sender env)
            (LoanRequest.loanAmount request) (LoanRequest.stake request)
            (block_timestamp env)
            (block_timestamp env + LoanRequest.duration request * (1 * days))
            (LoanRequest.interestRate request) price
            (LoanRequest.propertyUnits request)
            (ActiveLoan.isRepaid (activeLoans st !!! totalLoans st))]>
        (activeLoans st) /\
    loanRequests st' =
      <[_requestId := LoanRequest.set_isActive false request]>
        (loanRequests st) /\
    _reentrancyStatus st' = _NOT_ENTERED /\
    liquidationBonusBp st' = liquidationBonusBp st /\
    overdueRepayPenaltyBp st' = overdueRepayPenaltyBp st /\
    demoFixedEthUsdPrice st' = demoFixedEthUsdPrice st /\
    maxPriceStalenessSeconds st' = maxPriceStalenessSeconds st.
Proof.
  intros H request. unfold fundLoanRequest in H.
  apply nonReentrant_Ok_inv in H as (Hidle & st'' & H & ->).
  apply whenNotPaused_Ok_inv in H as (Hp & H).
  cbn [loanRequests set_reentrancyStatus paused] in Hp, H. fold request in H.
  destruct (LoanRequest.isActive request) eqn:Hact; [|discriminate H].
  rewrite require_true, bind_Ok in H.
  destruct (Z.eqb_spec (msg_value env) (LoanRequest.loanAmount request))
    as [Hval|]; [|discriminate H].
  rewrite require_true, bind_Ok in H.
  unfold getNextLoanId in H. cbn [totalLoans set_reentrancyStatus] in H.
  destruct (checked_add (totalLoans st) 1) as [n|] eqn:Hn; [|discriminate H].
  apply checked_add_Ok_inv in Hn as [-> Hn].
  rewrite !bind_Ok in H.
  destruct (checked_mul (LoanRequest.duration request) (1 * days))
    as [dur|] eqn:Hdur; [|discriminate H].
  apply checked_mul_Ok_inv in Hdur as [-> Hdur].
  rewrite bind_Ok in H.
  destruct (checked_add (block_timestamp env)
              (LoanRequest.duration request * (1 * days)))
    as [endT|] eqn:Hend; [|discriminate H].
  apply checked_add_Ok_inv in Hend as [-> Hend].
  rewrite bind_Ok in H.
  match type of H with
  | (?m ≫= _) = _ =>
      change m with (_getEthUsdPrice st env) in H;
      destruct (_getEthUsdPrice st env) as [price|] eqn:Hprice;
      [|discriminate H]
  end.
  rewrite bind_Ok in H. unfold send in H.
  destruct (call_succeeds env (LoanRequest.borrower request) (msg_value env));
    [|discriminate H].
  rewrite require_true, !bind_Ok in H. injection H as <- <-.
  exists price. repeat split; try assumption; reflexivity.
Qed.

Lemma _getEthUsdPrice_range st env p :
  0 < demoFixedEthUsdPrice st <= MAX_UINT256 ->
  _getEthUsdPrice st env = Ok p -> 0 < p <= MAX_UINT256.
Proof.
  intros Hd. unfold _getEthUsdPrice.
  destruct (ethUsdFeed st =? 0); [by intros [= <-]|].
  destruct (Z.ltb_spec 0 (answer (latestRoundData env (ethUsdFeed st))))
    as [Ha|]; [|discriminate].
  rewrite require_true, bind_Ok. intros Hr.
  inv_bind Hr as age Hage. inv_bind Hr as u Hu.
  apply checked_mul_Ok_inv in Hr as [-> Hm].
  destruct constants_eval as (_ & _ & He & _). rewrite He in Hm |- *. lia.
Qed.

Lemma constructor_invariant feed deployer :
  ledger_invariant (constructor feed deployer).
Proof.
  constructor.
  - constructor; cbn; try reflexivity; try lia; by vm_compute.
  - intros id. cbn [constructor loanRequests].
    rewrite lookup_total_empty. by vm_compute.
  - intros id. cbn [constructor activeLoans].
    rewrite lookup_total_empty. by vm_compute.
Qed.

Lemma settled_invariant st i :
  ledger_invariant st -> ledger_invariant (settled st i).
Proof.
  intros [[Hs Hb Hp Hf Hm] Hreq Hloan]. constructor.
  - by constructor.
  - exact Hreq.
  - intros id. unfold settled.
    cbn [activeLoans set_reentrancyStatus set_activeLoans].
    rewrite lookup_total_insert. case_decide as Hi; [|apply Hloan].
    exact (Hloan i).
Qed.

Lemma createLoanRequest_invariant st env a d r mc ec pc ac pu st' acts :
  ledger_invariant st ->
  createLoanRequest st env a d r mc ec pc ac pu = Ok (st', acts) ->
  ledger_invariant st'.
Proof.
  intros [[Hs Hb Hp Hf Hm] Hreq Hloan] H.
  apply createLoanRequest_Ok_inv in H
    as (_ & Ha & Hd & Hmul & Hv & [Hr0 Hr7] & ->).
  constructor.
  - by constructor.
  - intros id. cbn [loanRequests set_loanRequests set_totalRequests].
    rewrite lookup_total_insert. case_decide as Hi; [|apply Hreq].
    unfold request_invariant. cbn. rewrite Hv. repeat split; lia.
  - exact Hloan.
Qed.

Lemma fundLoanRequest_invariant st env _requestId st' acts :
  wf_env env = true ->
  ledger_invariant st ->
  fundLoanRequest st env _requestId = Ok (st', acts) ->
  ledger_invariant st'.
Proof.
  intros Hwf [[Hs Hb Hp Hf Hm] Hreq Hloan] H.
  apply fundLoanRequest_Ok_state in H
    as (price & Hprice & Hact & Hend & HL & HR & Hs' & Hb' & Hp' & Hf' & Hm').
  apply (_getEthUsdPrice_range _ _ _ Hf) in Hprice.
  unfold wf_env in Hwf. rewrite andb_true_iff, !is_uint256_spec in Hwf.
  destruct Hwf as [Hval Hnow].
  pose proof (Hreq _requestId) as (Hst & Hla & Hsm & Hrate & Hdur & _).
  destruct constants_eval as (_ & _ & _ & Hday). rewrite Hday in *.
  constructor.
  - constructor; congruence.
  - intros id. rewrite HR, lookup_total_insert.
    case_decide as Hi; [|apply Hreq].
    unfold request_invariant. cbn. repeat split; try assumption; try lia.
    all: discriminate.
  - intros id. rewrite HL, lookup_total_insert.
    case_decide as Hi; [|apply Hloan].
    unfold loan_invariant, ActiveLoan.wf. cbn.
    rewrite !andb_true_iff, !is_uint256_spec.
    unfold MAX_INTEREST_RATE in *.
    assert (7 <= MAX_UINT256) by by vm_compute.
    repeat split; lia.
Qed.

(** The invariant carries over to a state that differs in variables it does
    not mention. *)
Ltac frame_invariant Hinv :=
  destruct Hinv as [[? ? ? ? ?] ? ?];
  constructor; [constructor; assumption | assumption | assumption].

(** Every successful well-formed call preserves the ledger invariant. *)
Lemma dispatch_invariant st env c st' acts :
  wf_tx (env, c) = true ->
  ledger_invariant st ->
  dispatch st env c = Ok (st', acts) ->
  ledger_invariant st'.
Proof.
  unfold wf_tx. cbn [fst snd]. rewrite andb_true_iff.
  intros [Henv Hc] Hinv H.
  destruct c; cbn [dispatch] in H.
  - by eapply createLoanRequest_invariant.
  - by eapply fundLoanRequest_invariant.
  - apply repayLoan_Ok_loans in H as ->. by apply settled_invariant.
  - apply liquidateExpiredLoan_Ok_loans in H as ->. by apply settled_invariant.
  - unfold transferOwnership in H.
    apply nonPayable_Ok_inv in H as (_ & H).
    apply onlyOwner_Ok_inv in H as (_ & H). monad_inv H.
    injection H as <- <-. frame_invariant Hinv.
  - unfold pause in H.
    apply nonPayable_Ok_inv in H as (_ & H). apply onlyOwner_Ok_inv in H as (_ & H).
    injection H as <- <-. frame_invariant Hinv.
  - unfold unpause in H.
    apply nonPayable_Ok_inv in H as (_ & H). apply onlyOwner_Ok_inv in H as (_ & H).
    injection H as <- <-. frame_invariant Hinv.
  - unfold updateParams in H.
    apply nonPayable_Ok_inv in H as (_ & H). apply onlyOwner_Ok_inv in H as (_ & H).
    destruct (Z.leb_spec _liquidationBonusBp 5000) as [Hb|]; [|discriminate H].
    rewrite require_true, bind_Ok in H.
    destruct (Z.leb_spec _overdueRepayPenaltyBp 5000) as [Hp|];
      [|discriminate H].
    rewrite require_true, bind_Ok in H. injection H as <- <-.
    cbn [wf_call] in Hc. rewrite !andb_true_iff, !is_uint256_spec in Hc.
    destruct Hinv as [[? ? ? ? ?] ? ?].
    constructor; [constructor; cbn; try assumption; lia | assumption
                 | assumption].
  - unfold updateOracle in H.
    apply nonPayable_Ok_inv in H as (_ & H). apply onlyOwner_Ok_inv in H as (_ & H).
    destruct (_newFeed =? 0); injection H as <- <-; frame_invariant Hinv.
  - unfold setDemoFixedEthUsdPrice in H.
    apply nonPayable_Ok_inv in H as (_ & H).
    apply onlyOwner_Ok_inv in H as (_ & H).
    destruct (Z.ltb_spec 0 _price) as [Hp|]; [|discriminate H].
    rewrite require_true, bind_Ok in H. injection H as <- <-.
    cbn [wf_call] in Hc. rewrite is_uint256_spec in Hc.
    destruct Hinv as [[? ? ? ? ?] ? ?].
    constructor; [constructor; cbn; try assumption; lia | assumption
                 | assumption].
  - unfold updateRealEstateOracle in H.
    apply nonPayable_Ok_inv in H as (_ & H).
    apply onlyOwner_Ok_inv in H as (_ & H). monad_inv H.
    injection H as <- <-. frame_invariant Hinv.
Qed.

Lemma execute_invariant st tx :
  wf_tx tx = true -> ledger_invariant st -> ledger_invariant (execute st tx).
Proof.
  intros Hwf Hinv. unfold execute, state_after.
  destruct (dispatch st tx.1 tx.2) as [[st' acts]|e] eqn:Hd; [|exact Hinv].
  destruct tx as [env c]. by eapply dispatch_invariant.
Qed.

(** The ledger invariant holds in every state reached from deployment by
    well-formed transactions. *)
Lemma run_invariant txs : forall st,
  Forall (fun tx => wf_tx tx = true) txs ->
  ledger_invariant st -> ledger_invariant (run st txs).
Proof.
  induction txs as [|tx txs IH]; intros st Hall Hinv; [exact Hinv|].
  apply Forall_cons_1 in Hall as [Htx Hall].
  rewrite run_cons. apply IH; [exact Hall|]. by apply execute_invariant.
Qed.

Lemma reachable_invariant feed deployer txs :
  Forall (fun tx => wf_tx tx = true) txs ->
  ledger_invariant (run (constructor feed deployer) txs).
Proof. intros Hall. apply run_invariant; [exact Hall|]. apply constructor_invariant. Qed.

(** In every such state the state-side hypotheses of the theorems above
    hold: the reentrancy guard is not engaged, the bonus rate is at most
    100%, the staleness bound and the fixed price are non-negative, every
    loan slot is well formed with its stake twice its amount, and a price
    that is read is not zero. *)
Lemma reachable_side_conditions feed deployer txs :
  Forall (fun tx => wf_tx tx = true) txs ->
  let st := run (constructor feed deployer) txs in
  _reentrancyStatus st <> _ENTERED /\
  0 <= liquidationBonusBp st <= 10000 /\
  0 <= maxPriceStalenessSeconds st /\
  0 <= demoFixedEthUsdPrice st /\
  (forall id,
     ActiveLoan.wf (activeLoans st !!! id) = true /\
     0 <= ActiveLoan.stake (activeLoans st !!! id) /\
     ActiveLoan.stake (activeLoans st !!! id)
     = 2 * ActiveLoan.loanAmount (activeLoans st !!! id)) /\
  (forall env p, _getEthUsdPrice st env = Ok p -> p <> 0).
Proof.
  intros Hall st.
  destruct (reachable_invariant feed deployer txs Hall)
    as [[Hs Hb Hp Hf Hm] Hreq Hloan].
  fold st in Hs, Hb, Hp, Hf, Hm, Hreq, Hloan.
  split; [rewrite Hs; discriminate|].
  split; [lia|]. split; [lia|]. split; [lia|]. split.
  - intros id. destruct (Hloan id) as (Hst & _ & _ & Hwf).
    pose proof (ActiveLoan_wf_spec _ Hwf) as (_ & H0 & _).
    by repeat split.
  - intros env p Hprice.
    pose proof (_getEthUsdPrice_range st env p Hf Hprice). lia.
Qed.

(** * The rest of the platform *)

(** ** The views: counting and filling loops *)

Lemma array_set_middle {A} (done : list A) (old x : A) (rest : list A) :
  array_set (done ++ old :: rest) (Z.of_nat (length done)) x
  = Ok (done ++ x :: rest).
Proof.
  unfold array_set.
  assert (Hb : (0 <=? Z.of_nat (length done))
               && (Z.of_nat (length done)
                   <? Z.of_nat (length (done ++ old :: rest))) = true).
  { rewrite andb_true_iff, Z.leb_le, Z.ltb_lt, length_app. cbn. lia. }
  rewrite Hb, Nat2Z.id. f_equal.
  replace (length done) with (length done + 0)%nat at 1 by lia.
  by rewrite insert_app_r.
Qed.

Lemma count_loop_from (P : Z -> bool) (l : list Z) (count : Z) :
  count + Z.of_nat (length l) <= MAX_UINT256 ->
  for_each (fun count i => if P i then checked_add count 1 else Ok count)
    l count
  = Ok (count + Z.of_nat (length (filter (fun i => P i = true) l))).
Proof.
  revert count. induction l as [|i l IH]; intros count Hb.
  - cbn. f_equal. lia.
  - cbn [for_each]. cbn [length] in Hb.
    rewrite filter_cons. destruct (P i) eqn:HP.
    + rewrite checked_add_Ok by lia. rewrite bind_Ok.
      rewrite decide_True by done. rewrite IH by lia.
      f_equal. cbn [length]. lia.
    + rewrite bind_Ok, decide_False by congruence. apply IH. lia.
Qed.

Lemma length_filter_le {A} (P : A -> Prop) `{!forall x, Decision (P x)}
    (l : list A) : (length (filter P l) <= length l)%nat.
Proof.
  induction l as [|x l IH]; [done|].
  rewrite filter_cons. case_decide; cbn; lia.
Qed.

Lemma count_loop_spec (P : Z -> bool) (n : Z) :
  n <= MAX_UINT256 ->
  count_loop P n
  = Ok (Z.of_nat (length (filter (fun i => P i = true) (seqZ 0 n)))).
Proof.
  intros Hn. unfold count_loop. rewrite count_loop_from; [done|].
  rewrite length_seqZ.
  assert (0 <= MAX_UINT256) by by vm_compute. lia.
Qed.

Lemma fill_loop_from {A} (P : Z -> bool) (read : Z -> A) (l : list Z)
    (ids0 ids1 : list Z) (recs0 recs1 : list A) :
  length ids0 = length recs0 ->
  length ids1 = length (filter (fun i => P i = true) l) ->
  length recs1 = length (filter (fun i => P i = true) l) ->
  Z.of_nat (length ids0) + Z.of_nat (length l) <= MAX_UINT256 ->
  for_each
    (fun '(ids, records, index) i =>
       if P i
       then ids1 ← array_set ids index i;
            records1 ← array_set records index (read i);
            index1 ← checked_add index 1;
            Ok (ids1, records1, index1)
       else Ok (ids, records, index))
    l (ids0 ++ ids1, recs0 ++ recs1, Z.of_nat (length ids0))
  = Ok (ids0 ++ filter (fun i => P i = true) l,
        recs0 ++ (read <$> filter (fun i => P i = true) l),
        Z.of_nat (length ids0)
        + Z.of_nat (length (filter (fun i => P i = true) l))).
Proof.
  revert ids0 ids1 recs0 recs1.
  induction l as [|i l IH]; intros ids0 ids1 recs0 recs1 Hlen H1 H2 Hb.
  - cbn in H1, H2. destruct ids1; [|done]. destruct recs1; [|done].
    cbn. rewrite !app_nil_r. do 2 f_equal. lia.
  - cbn [for_each]. cbn [length] in Hb. rewrite filter_cons in H1, H2 |- *.
    destruct (P i) eqn:HP.
    + rewrite decide_True in H1, H2 |- * by done.
      destruct ids1 as [|o1 ids1]; [done|].
      destruct recs1 as [|r1 recs1]; [done|].
      cbn [length] in H1, H2.
      rewrite array_set_middle, bind_Ok.
      rewrite Hlen, array_set_middle, bind_Ok. rewrite <- Hlen.
      rewrite checked_add_Ok by lia. rewrite !bind_Ok.
      replace (Z.of_nat (length ids0) + 1)
        with (Z.of_nat (length (ids0 ++ [i])))
        by (rewrite length_app; cbn; lia).
      rewrite (cons_middle i ids0 ids1), (cons_middle (read i) recs0 recs1).
      rewrite !app_assoc.
      rewrite (IH (ids0 ++ [i]) ids1 (recs0 ++ [read i]) recs1).
      * rewrite <- !app_assoc. cbn [app fmap list_fmap length].
        rewrite length_app. cbn [length]. do 2 f_equal. lia.
      * rewrite !length_app. cbn. lia.
      * lia.
      * lia.
      * rewrite length_app. cbn [length]. lia.
    + rewrite decide_False in H1, H2 |- * by congruence.
      rewrite bind_Ok. apply IH; try assumption. lia.
Qed.

Lemma fill_loop_spec {A} (P : Z -> bool) (read : Z -> A) (n : Z) (zero : A) :
  n <= MAX_UINT256 ->
  let ids := filter (fun i => P i = true) (seqZ 0 n) in
  fill_loop P read n
    (replicate (Z.to_nat (Z.of_nat (length ids))) 0)
    (replicate (Z.to_nat (Z.of_nat (length ids))) zero)
  = Ok (ids, read <$> ids).
Proof.
  intros Hn ids. unfold fill_loop. rewrite Nat2Z.id.
  pose proof (fill_loop_from P read (seqZ 0 n) [] (replicate (length ids) 0)
                [] (replicate (length ids) zero)) as H.
  cbn [app length] in H. change (Z.of_nat 0) with 0 in H. rewrite H.
  - by rewrite bind_Ok.
  - done.
  - by rewrite length_replicate.
  - by rewrite length_replicate.
  - rewrite length_seqZ.
    assert (0 <= MAX_UINT256) by by vm_compute. lia.
Qed.

(** ** Funding *)

(** When funding succeeds and what it does, for the properties below. *)
Lemma fundLoanRequest_characterized st env _requestId st' acts :
  let request := loanRequests st !!! _requestId in
  fundLoanRequest st env _requestId = Ok (st', acts) <->
  _reentrancyStatus st <> _ENTERED /\ paused st = false /\
  LoanRequest.isActive request = true /\
  msg_value env = LoanRequest.loanAmount request /\
  totalLoans st + 1 <= MAX_UINT256 /\
  LoanRequest.duration request * 86400 <= MAX_UINT256 /\
  block_timestamp env + LoanRequest.duration request * 86400
    <= MAX_UINT256 /\
  call_succeeds env (LoanRequest.borrower request) (msg_value env) = true /\
  exists price,
    _getEthUsdPrice st env = Ok price /\
    st' = funded st env _requestId price /\
    acts = [Emit (LoanFunded (totalLoans st) _requestId (msg_sender env) price);
            Transfer (LoanRequest.borrower request) (msg_value env)].
Proof.
  intros request.
  destruct constants_eval as (_ & _ & _ & Hday).
  split.
  - intros H. unfold fundLoanRequest in H.
    apply nonReentrant_Ok_inv in H as (Hidle & st'' & H & ->).
    apply whenNotPaused_Ok_inv in H as (Hp & H).
    cbn [loanRequests set_reentrancyStatus paused] in Hp, H.
    fold request in H.
    destruct (LoanRequest.isActive request) eqn:Hact; [|discriminate H].
    rewrite require_true, bind_Ok in H.
    destruct (Z.eqb_spec (msg_value env) (LoanRequest.loanAmount request))
      as [Hval|]; [|discriminate H].
    rewrite require_true, bind_Ok in H.
    unfold getNextLoanId in H. cbn [totalLoans set_reentrancyStatus] in H.
    destruct (checked_add (totalLoans st) 1) as [n|] eqn:Hn; [|discriminate H].
    apply checked_add_Ok_inv in Hn as [-> Hn].
    rewrite !bind_Ok in H. rewrite Hday in H.
    destruct (checked_mul (LoanRequest.duration request) 86400)
      as [dur|] eqn:Hdur; [|discriminate H].
    apply checked_mul_Ok_inv in Hdur as [-> Hdur].
    rewrite bind_Ok in H.
    destruct (checked_add (block_timestamp env)
                (LoanRequest.duration request * 86400))
      as [endT|] eqn:Hend; [|discriminate H].
    apply checked_add_Ok_inv in Hend as [-> Hend].
    rewrite bind_Ok in H.
    match type of H with
    | (?m ≫= _) = _ =>
        change m with (_getEthUsdPrice st env) in H;
        destruct (_getEthUsdPrice st env) as [price|] eqn:Hprice;
        [|discriminate H]
    end.
    rewrite bind_Ok in H. unfold send in H.
    destruct (call_succeeds env (LoanRequest.borrower request)
                (msg_value env)) eqn:Hcall; [|discriminate H].
    rewrite require_true, !bind_Ok in H. injection H as <- <-.
    repeat split; try assumption. exists price. by repeat split.
  - intros (Hidle & Hp & Hact & Hval & Hn & Hdur & Hend & Hcall
            & price & Hprice & -> & ->).
    unfold fundLoanRequest.
    rewrite nonReentrant_idle by exact Hidle.
    rewrite whenNotPaused_running by exact Hp.
    cbn [loanRequests set_reentrancyStatus]. fold request.
    rewrite Hact, require_true, bind_Ok.
    rewrite (proj2 (Z.eqb_eq _ _) Hval), require_true, bind_Ok.
    unfold getNextLoanId. cbn [totalLoans set_reentrancyStatus].
    rewrite (checked_add_Ok _ _ Hn), !bind_Ok. rewrite Hday.
    rewrite (checked_mul_Ok _ _ Hdur), bind_Ok.
    rewrite (checked_add_Ok _ _ Hend), bind_Ok.
    change (_getEthUsdPrice
              (set_totalLoans (set_reentrancyStatus st _ENTERED)
                 (totalLoans st + 1)) env)
      with (_getEthUsdPrice st env).
    rewrite Hprice, bind_Ok. unfold send.
    rewrite Hcall, require_true, !bind_Ok. reflexivity.
Qed.

(** X1.  [fundLoanRequest] succeeds exactly when it is called outside a
    re-entrant call on an unpaused platform for an active request with
    exactly the requested amount attached, the next loan id and the end time
    fit in 256 bits, the price is read and the borrower accepts the
    principal.  It then allocates the next loan id, copies the request's
    terms into the loan (start = now, end = now + duration days, the price
    read as initial price), deactivates the request, appends the loan id to
    the borrower's and the lender's lists, emits [LoanFunded] and forwards
    exactly the attached amount to the borrower. *)
Theorem fundLoanRequest_effect st env _requestId st' acts :
  let request := loanRequests st !!! _requestId in
  fundLoanRequest st env _requestId = Ok (st', acts) <->
  _reentrancyStatus st <> _ENTERED /\ paused st = false /\
  LoanRequest.isActive request = true /\
  msg_value env = LoanRequest.loanAmount request /\
  totalLoans st + 1 <= MAX_UINT256 /\
  LoanRequest.duration request * 86400 <= MAX_UINT256 /\
  block_timestamp env + LoanRequest.duration request * 86400
    <= MAX_UINT256 /\
  call_succeeds env (LoanRequest.borrower request) (msg_value env) = true /\
  exists price,
    _getEthUsdPrice st env = Ok price /\
    st' = funded st env _requestId price /\
    acts = [Emit (LoanFunded (totalLoans st) _requestId (msg_sender env) price);
            Transfer (LoanRequest.borrower request) (msg_value env)].
Proof. apply fundLoanRequest_characterized. Qed.

Lemma fundLoanRequest_effect_witness :
  fundLoanRequest requested_state (example_env 20 1000 1000) 0
  = Ok (funded requested_state (example_env 20 1000 1000) 0 (2000 * 10 ^ 18),
        [Emit (LoanFunded 0 0 20 (2000 * 10 ^ 18)); Transfer 10 1000]).
Proof.
  apply (proj2 (fundLoanRequest_effect requested_state
                  (example_env 20 1000 1000) 0 _ _)).
  repeat (split; [by vm_compute|]).
  exists (2000 * 10 ^ 18). by repeat split.
Defined.

(** ** How the calls change the ledger *)

Lemma liquidateExpiredLoan_Ok_acts st env _loanId st' acts :
  liquidateExpiredLoan st env _loanId = Ok (st', acts) ->
  let loan := activeLoans st !!! _loanId in
  let bonus := spec_bonus (ActiveLoan.stake loan) (liquidationBonusBp st) in
  ActiveLoan.stake loan * liquidationBonusBp st <= MAX_UINT256 /\
  bonus <= ActiveLoan.stake loan /\
  acts = [Transfer (msg_sender env) bonus;
          Transfer (ActiveLoan.lender loan) (ActiveLoan.stake loan - bonus);
          Emit (LoanLiquidated _loanId (ActiveLoan.lender loan)
                  (ActiveLoan.stake loan))].
Proof.
  intros H loan bonus. unfold liquidateExpiredLoan in H.
    apply nonPayable_Ok_inv in H as (_ & H).
  apply nonReentrant_Ok_inv in H as (Hidle & st'' & H & ->).
  cbn [activeLoans set_reentrancyStatus liquidationBonusBp] in H.
  fold loan in H.
  destruct (ActiveLoan.isRepaid loan); [discriminate H|].
  cbn [negb] in H. rewrite require_true, bind_Ok in H.
  destruct (ActiveLoan.endTime loan <? block_timestamp env);
    [|discriminate H].
  rewrite require_true, bind_Ok in H.
  destruct (checked_mul (ActiveLoan.stake loan) (liquidationBonusBp st))
    as [m|] eqn:Hm; [|discriminate H].
  apply checked_mul_Ok_inv in Hm as [-> Hm]. rewrite bind_Ok in H.
  rewrite checked_div_Ok in H by lia. rewrite bind_Ok in H.
  change (ActiveLoan.stake loan * liquidationBonusBp st ÷ 10000)
    with bonus in H.
  destruct (checked_sub (ActiveLoan.stake loan) bonus) as [rest|] eqn:Hs;
    [|discriminate H].
  unfold checked_sub in Hs.
  destruct (Z.leb_spec bonus (ActiveLoan.stake loan)) as [Hle|];
    [|discriminate Hs].
  injection Hs as <-. rewrite bind_Ok in H. unfold send in H.
  destruct (call_succeeds env (msg_sender env) bonus); [|discriminate H].
  rewrite require_true, !bind_Ok in H.
  destruct (call_succeeds env (ActiveLoan.lender loan)
              (ActiveLoan.stake loan - bonus)); [|discriminate H].
  rewrite require_true, !bind_Ok in H. injection H as _ <-.
  by repeat split.
Qed.

Lemma admin_same_ledger st env c st' acts :
  is_admin c = true ->
  dispatch st env c = Ok (st', acts) ->
  same_ledger st st' /\ outflow acts = 0.
Proof.
  destruct c; try discriminate; intros _; cbn [dispatch]; intros H.
  - unfold transferOwnership in H.
    apply nonPayable_Ok_inv in H as (_ & H).
    apply onlyOwner_Ok_inv in H as (_ & H). monad_inv H.
    injection H as <- <-. by repeat split.
  - unfold pause in H.
    apply nonPayable_Ok_inv in H as (_ & H). apply onlyOwner_Ok_inv in H as (_ & H).
    injection H as <- <-. by repeat split.
  - unfold unpause in H.
    apply nonPayable_Ok_inv in H as (_ & H). apply onlyOwner_Ok_inv in H as (_ & H).
    injection H as <- <-. by repeat split.
  - unfold updateParams in H.
    apply nonPayable_Ok_inv in H as (_ & H). apply onlyOwner_Ok_inv in H as (_ & H).
    monad_inv H. injection H as <- <-. by repeat split.
  - unfold updateOracle in H.
    apply nonPayable_Ok_inv in H as (_ & H). apply onlyOwner_Ok_inv in H as (_ & H).
    by destruct (_newFeed =? 0); injection H as <- <-; repeat split.
  - unfold setDemoFixedEthUsdPrice in H.
    apply nonPayable_Ok_inv in H as (_ & H).
    apply onlyOwner_Ok_inv in H as (_ & H). monad_inv H.
    injection H as <- <-. by repeat split.
  - unfold updateRealEstateOracle in H.
    apply nonPayable_Ok_inv in H as (_ & H).
    apply onlyOwner_Ok_inv in H as (_ & H). monad_inv H.
    injection H as <- <-. by repeat split.
Qed.

(** The four shapes of a successful call. *)
Lemma dispatch_cases st env c st' acts :
  dispatch st env c = Ok (st', acts) ->
  (exists a d r mc ec pc ac pu,
      c = CreateLoanRequest a d r mc ec pc ac pu /\
      st' = requested st env a d r mc ec pc ac pu) \/
  (exists _requestId price,
      c = FundLoanRequest _requestId /\
      LoanRequest.isActive (loanRequests st !!! _requestId) = true /\
      st' = funded st env _requestId price) \/
  (exists i, settles i c = true /\ st' = settled st i) \/
  (is_admin c = true /\ same_ledger st st').
Proof.
  intros H.
  destruct (is_admin c) eqn:Hadm.
  { right; right; right. split; [done|].
    exact (proj1 (admin_same_ledger _ _ _ _ _ Hadm H)). }
  destruct c; try discriminate Hadm; cbn [dispatch] in H.
  - left. apply createLoanRequest_Ok_inv in H as (_ & _ & _ & _ & _ & _ & ->).
    by repeat eexists.
  - right; left.
    apply fundLoanRequest_characterized in H
      as (_ & _ & Hact & _ & _ & _ & _ & _ & price & _ & -> & _).
    by exists _requestId, price.
  - right; right; left. exists _loanId. split; [apply Z.eqb_refl|].
    by eapply repayLoan_Ok_loans.
  - right; right; left. exists _loanId. split; [apply Z.eqb_refl|].
    by eapply liquidateExpiredLoan_Ok_loans.
Qed.

Lemma execute_totalRequests_mono st tx :
  totalRequests st <= totalRequests (execute st tx).
Proof.
  unfold execute, state_after.
  destruct (dispatch st tx.1 tx.2) as [[st' acts]|e] eqn:Hd; [|lia].
  apply dispatch_cases in Hd
    as [(a & d & r & mc & ec & pc & ac & pu & _ & ->)
       | [(rid & price & _ & _ & ->)
         | [(i & _ & ->) | (_ & _ & _ & -> & _)]]]; cbn; lia.
Qed.

Lemma run_totalRequests_mono txs : forall st,
  totalRequests st <= totalRequests (run st txs).
Proof.
  induction txs as [|tx txs IH]; intros st; [cbn; lia|].
  rewrite run_cons.
  etrans; [apply (execute_totalRequests_mono st tx) | apply IH].
Qed.

(** ** What never changes once allocated *)

Lemma execute_loan_terms st tx _loanId :
  _loanId < totalLoans st ->
  loan_terms (activeLoans (execute st tx) !!! _loanId)
  = loan_terms (activeLoans st !!! _loanId).
Proof.
  intros Hid. unfold execute, state_after.
  destruct (dispatch st tx.1 tx.2) as [[st' acts]|e] eqn:Hd; [|reflexivity].
  apply dispatch_cases in Hd
    as [(a & d & r & mc & ec & pc & ac & pu & _ & ->)
       | [(rid & price & _ & _ & ->)
         | [(i & _ & ->) | (_ & _ & -> & _)]]].
  - reflexivity.
  - unfold funded.
    cbn [activeLoans set_reentrancyStatus set_loanIndexes set_loanRequests
         set_activeLoans].
    rewrite lookup_total_insert_ne by lia. reflexivity.
  - unfold settled. cbn [activeLoans set_reentrancyStatus set_activeLoans].
    rewrite lookup_total_insert. case_decide as Hi; [|reflexivity].
    by rewrite Hi.
  - reflexivity.
Qed.

(** X2.  The terms of an allocated loan never change: for a loan id below
    the loan counter, after any sequence of transactions the borrower, the
    lender, the amount, the stake, the start and end times, the rate, the
    initial price and the property units are what they were; only the
    repaid flag can differ. *)
Theorem loan_terms_fixed txs : forall st _loanId,
  _loanId < totalLoans st ->
  loan_terms (activeLoans (run st txs) !!! _loanId)
  = loan_terms (activeLoans st !!! _loanId) /\
  ActiveLoan.lender (activeLoans (run st txs) !!! _loanId)
  = ActiveLoan.lender (activeLoans st !!! _loanId) /\
  ActiveLoan.borrower (activeLoans (run st txs) !!! _loanId)
  = ActiveLoan.borrower (activeLoans st !!! _loanId).
Proof.
  assert (Hterms : forall st _loanId, _loanId < totalLoans st ->
            loan_terms (activeLoans (run st txs) !!! _loanId)
            = loan_terms (activeLoans st !!! _loanId)).
  { induction txs as [|tx txs IH]; intros st _loanId Hid; [reflexivity|].
    rewrite run_cons, IH.
    - by apply execute_loan_terms.
    - pose proof (execute_totalLoans_mono st tx). lia. }
  intros st _loanId Hid. pose proof (Hterms st _loanId Hid) as H.
  split; [exact H|].
  split.
  - exact (f_equal ActiveLoan.lender H).
  - exact (f_equal ActiveLoan.borrower H).
Qed.

Lemma loan_terms_fixed_witness :
  ActiveLoan.lender
    (activeLoans
       (run example_state
          [(example_env 30 0 (1001 + 365 * 86400), LiquidateExpiredLoan 0)])
     !!! 0)
  = ActiveLoan.lender (activeLoans example_state !!! 0).
Proof.
  refine (proj1 (proj2 (loan_terms_fixed
            [(example_env 30 0 (1001 + 365 * 86400), LiquidateExpiredLoan 0)]
            example_state 0 _))).
  by vm_compute.
Defined.

Lemma execute_request_terms st tx _requestId :
  _requestId < totalRequests st ->
  request_terms (loanRequests (execute st tx) !!! _requestId)
  = request_terms (loanRequests st !!! _requestId).
Proof.
  intros Hid. unfold execute, state_after.
  destruct (dispatch st tx.1 tx.2) as [[st' acts]|e] eqn:Hd; [|reflexivity].
  apply dispatch_cases in Hd
    as [(a & d & r & mc & ec & pc & ac & pu & _ & ->)
       | [(rid & price & _ & _ & ->)
         | [(i & _ & ->) | (_ & -> & _)]]].
  - unfold requested. cbn [loanRequests set_loanRequests].
    rewrite lookup_total_insert_ne by lia. reflexivity.
  - unfold funded.
    cbn [loanRequests set_reentrancyStatus set_loanIndexes set_loanRequests].
    rewrite lookup_total_insert. case_decide as Hi; [|reflexivity].
    by rewrite Hi.
  - reflexivity.
  - reflexivity.
Qed.

(** X3.  The terms of a created request never change: for a request id
    below the request counter, after any sequence of transactions every
    field but the active flag (borrower, amount, duration, stake, rate, the
    commitments and references, property units) is what it was. *)
Theorem request_terms_fixed txs : forall st _requestId,
  _requestId < totalRequests st ->
  request_terms (loanRequests (run st txs) !!! _requestId)
  = request_terms (loanRequests st !!! _requestId).
Proof.
  induction txs as [|tx txs IH]; intros st _requestId Hid; [reflexivity|].
  rewrite run_cons, IH.
  - by apply execute_request_terms.
  - pose proof (execute_totalRequests_mono st tx). lia.
Qed.

Lemma request_terms_fixed_witness :
  request_terms
    (loanRequests
       (run requested_state [(example_env 20 1000 1000, FundLoanRequest 0)])
     !!! 0)
  = request_terms (loanRequests requested_state !!! 0).
Proof.
  apply (request_terms_fixed
           [(example_env 20 1000 1000, FundLoanRequest 0)] requested_state 0).
  by vm_compute.
Defined.

(** ** A request is funded at most once *)

Lemma execute_inactive st tx _requestId :
  _requestId < totalRequests st ->
  LoanRequest.isActive (loanRequests st !!! _requestId) = false ->
  LoanRequest.isActive (loanRequests (execute st tx) !!! _requestId) = false.
Proof.
  intros Hid Hin. unfold execute, state_after.
  destruct (dispatch st tx.1 tx.2) as [[st' acts]|e] eqn:Hd; [|exact Hin].
  apply dispatch_cases in Hd
    as [(a & d & r & mc & ec & pc & ac & pu & _ & ->)
       | [(rid & price & _ & _ & ->)
         | [(i & _ & ->) | (_ & -> & _)]]].
  - unfold requested. cbn [loanRequests set_loanRequests].
    by rewrite lookup_total_insert_ne by lia.
  - unfold funded.
    cbn [loanRequests set_reentrancyStatus set_loanIndexes set_loanRequests].
    rewrite lookup_total_insert. by case_decide.
  - exact Hin.
  - exact Hin.
Qed.

Lemma run_inactive txs : forall st _requestId,
  _requestId < totalRequests st ->
  LoanRequest.isActive (loanRequests st !!! _requestId) = false ->
  LoanRequest.isActive (loanRequests (run st txs) !!! _requestId) = false.
Proof.
  induction txs as [|tx txs IH]; intros st _requestId Hid Hin; [exact Hin|].
  rewrite run_cons. apply IH.
  - pose proof (execute_totalRequests_mono st tx). lia.
  - by apply execute_inactive.
Qed.

(** Only created requests are active. *)
Lemma execute_active_below st tx :
  (forall rid, LoanRequest.isActive (loanRequests st !!! rid) = true ->
               rid < totalRequests st) ->
  forall rid,
    LoanRequest.isActive (loanRequests (execute st tx) !!! rid) = true ->
    rid < totalRequests (execute st tx).
Proof.
  intros Hinv rid. unfold execute, state_after.
  destruct (dispatch st tx.1 tx.2) as [[st' acts]|e] eqn:Hd; [|apply Hinv].
  apply dispatch_cases in Hd
    as [(a & d & r & mc & ec & pc & ac & pu & _ & ->)
       | [(rid' & price & _ & _ & ->)
         | [(i & _ & ->) | (_ & -> & _ & -> & _)]]].
  - unfold requested. cbn [loanRequests set_loanRequests totalRequests
                           set_totalRequests].
    rewrite lookup_total_insert. case_decide as Hi; [lia|].
    intros H. specialize (Hinv rid H). lia.
  - unfold funded.
    cbn [loanRequests set_reentrancyStatus set_loanIndexes set_loanRequests
         totalRequests set_activeLoans set_totalLoans].
    rewrite lookup_total_insert. case_decide as Hi; [discriminate|].
    apply Hinv.
  - apply Hinv.
  - apply Hinv.
Qed.

Lemma run_active_below txs : forall st,
  (forall rid, LoanRequest.isActive (loanRequests st !!! rid) = true ->
               rid < totalRequests st) ->
  forall rid,
    LoanRequest.isActive (loanRequests (run st txs) !!! rid) = true ->
    rid < totalRequests (run st txs).
Proof.
  induction txs as [|tx txs IH]; intros st Hinv; [exact Hinv|].
  rewrite run_cons. apply IH. by apply execute_active_below.
Qed.

(** X4.  A request is funded at most once: in every state reached from
    deployment, once a funding of a request has succeeded, the request is
    inactive in every later state and no later funding of it succeeds. *)
Theorem request_funded_once feed deployer txs env _requestId st1 acts :
  fundLoanRequest (run (constructor feed deployer) txs) env _requestId
  = Ok (st1, acts) ->
  forall txs' env',
    LoanRequest.isActive (loanRequests (run st1 txs') !!! _requestId) = false
    /\ is_Ok (fundLoanRequest (run st1 txs') env' _requestId) = false.
Proof.
  intros H txs' env'.
  apply fundLoanRequest_characterized in H
    as (_ & _ & Hact & _ & _ & _ & _ & _ & price & _ & -> & _).
  assert (Hbelow : _requestId < totalRequests (run (constructor feed deployer) txs)).
  { apply (run_active_below txs (constructor feed deployer)); [|exact Hact].
    intros rid. cbn [constructor loanRequests].
    rewrite lookup_total_empty. discriminate. }
  assert (Hin : LoanRequest.isActive
            (loanRequests
               (run (funded (run (constructor feed deployer) txs) env
                       _requestId price) txs') !!! _requestId) = false).
  { apply run_inactive.
    - exact Hbelow.
    - unfold funded.
      cbn [loanRequests set_reentrancyStatus set_loanIndexes set_loanRequests].
      by rewrite lookup_total_insert_eq. }
  split; [exact Hin|].
  apply is_Ok_false. intros [st2 acts2] H2.
  apply fundLoanRequest_characterized in H2 as (_ & _ & Hact2 & _).
  congruence.
Qed.

Lemma request_funded_once_witness :
  is_Ok (fundLoanRequest
           (run (funded requested_state (example_env 20 1000 1000) 0
                   (2000 * 10 ^ 18)) [])
           (example_env 21 1000 1500) 0) = false.
Proof.
  refine (proj2 (request_funded_once 0 99
            [(example_env 10 2000 1000,
              CreateLoanRequest 1000 30 5 0 "cid" 0 "appraisal" 1)]
            (example_env 20 1000 1000) 0 _ _ _ [] (example_env 21 1000 1500))).
  by vm_compute.
Defined.

(** ** The per-party loan lists *)

Lemma filter_ext_in {A} (P Q : A -> Prop) `{HP : !forall x, Decision (P x)}
    `{HQ : !forall x, Decision (Q x)} (l : list A) :
  (forall x, x ∈ l -> (P x <-> Q x)) -> filter P l = filter Q l.
Proof.
  induction l as [|x l IH]; intros Hext; [done|].
  rewrite !filter_cons.
  assert (Hx : P x <-> Q x) by (apply Hext; left).
  assert (Hl : filter P l = filter Q l).
  { apply IH. intros y Hy. apply Hext. by right. }
  rewrite Hl. repeat case_decide; tauto.
Qed.

Lemma seqZ_snoc (n : Z) : 0 <= n -> seqZ 0 (n + 1) = seqZ 0 n ++ [n].
Proof.
  intros Hn. rewrite seqZ_app by lia. reflexivity.
Qed.

Lemma elem_of_seqZ_lt (n i : Z) : i ∈ seqZ 0 n -> 0 <= i < n.
Proof. rewrite elem_of_seqZ. lia. Qed.

(** What the two lists hold, as a property of a state. *)
Lemma execute_index_exact st tx :
  0 <= totalLoans st ->
  (forall party,
     borrowerToLoanIds st !!! party
     = filter (fun id => ActiveLoan.borrower (activeLoans st !!! id) = party)
         (seqZ 0 (totalLoans st))) ->
  (forall party,
     lenderToLoanIds st !!! party
     = filter (fun id => ActiveLoan.lender (activeLoans st !!! id) = party)
         (seqZ 0 (totalLoans st))) ->
  (forall party,
     borrowerToLoanIds (execute st tx) !!! party
     = filter (fun id =>
                 ActiveLoan.borrower (activeLoans (execute st tx) !!! id)
                 = party)
         (seqZ 0 (totalLoans (execute st tx)))) /\
  (forall party,
     lenderToLoanIds (execute st tx) !!! party
     = filter (fun id =>
                 ActiveLoan.lender (activeLoans (execute st tx) !!! id)
                 = party)
         (seqZ 0 (totalLoans (execute st tx)))).
Proof.
  intros Hn Hb Hl. unfold execute, state_after.
  destruct (dispatch st tx.1 tx.2) as [[st' acts]|e] eqn:Hd; [|by split].
  apply dispatch_cases in Hd
    as [(a & d & r & mc & ec & pc & ac & pu & _ & ->)
       | [(rid & price & _ & _ & ->)
         | [(i & _ & ->) | (_ & _ & -> & _ & -> & -> & ->)]]].
  - by split.
  - unfold funded.
    cbn [activeLoans totalLoans borrowerToLoanIds lenderToLoanIds
         set_reentrancyStatus set_loanIndexes set_loanRequests
         set_activeLoans set_totalLoans].
    rewrite seqZ_snoc by exact Hn.
    split; intros party; rewrite filter_app.
    + rewrite (filter_ext_in _
                 (fun id => ActiveLoan.borrower (activeLoans st !!! id) = party)
                 (seqZ 0 (totalLoans st))).
      2:{ intros id Hid%elem_of_seqZ_lt.
          by rewrite lookup_total_insert_ne by lia. }
      rewrite filter_cons, filter_nil, lookup_total_insert_eq.
      cbn [ActiveLoan.borrower].
      rewrite lookup_total_insert. rewrite <- Hb.
      repeat case_decide; try congruence.
      by rewrite app_nil_r.
    + rewrite (filter_ext_in _
                 (fun id => ActiveLoan.lender (activeLoans st !!! id) = party)
                 (seqZ 0 (totalLoans st))).
      2:{ intros id Hid%elem_of_seqZ_lt.
          by rewrite lookup_total_insert_ne by lia. }
      rewrite filter_cons, filter_nil, lookup_total_insert_eq.
      cbn [ActiveLoan.lender].
      rewrite lookup_total_insert. rewrite <- Hl.
      repeat case_decide; try congruence.
      by rewrite app_nil_r.
  - unfold settled.
    cbn [activeLoans totalLoans borrowerToLoanIds lenderToLoanIds
         set_reentrancyStatus set_activeLoans].
    split; intros party.
    + rewrite Hb. apply filter_ext_in. intros id _.
      rewrite lookup_total_insert. case_decide as Hi; [|done].
      by rewrite Hi.
    + rewrite Hl. apply filter_ext_in. intros id _.
      rewrite lookup_total_insert. case_decide as Hi; [|done].
      by rewrite Hi.
  - by split.
Qed.

(** X5.  In every state reached from deployment, the list
    [getBorrowerLoanIds] returns for a party is exactly the list of the
    allocated loan ids whose borrower is that party, in increasing order,
    and [getLenderLoanIds] likewise for lenders: every funded loan is listed
    once, under its borrower and under its lender, and nothing else is. *)
Theorem loan_lists_exact feed deployer txs party :
  let st := run (constructor feed deployer) txs in
  getBorrowerLoanIds st party
  = filter (fun id => ActiveLoan.borrower (activeLoans st !!! id) = party)
      (seqZ 0 (totalLoans st)) /\
  getLenderLoanIds st party
  = filter (fun id => ActiveLoan.lender (activeLoans st !!! id) = party)
      (seqZ 0 (totalLoans st)).
Proof.
  cbv zeta. unfold getBorrowerLoanIds, getLenderLoanIds.
  assert (H : forall st,
    0 <= totalLoans st ->
    (forall party,
       borrowerToLoanIds st !!! party
       = filter (fun id => ActiveLoan.borrower (activeLoans st !!! id) = party)
           (seqZ 0 (totalLoans st))) ->
    (forall party,
       lenderToLoanIds st !!! party
       = filter (fun id => ActiveLoan.lender (activeLoans st !!! id) = party)
           (seqZ 0 (totalLoans st))) ->
    (forall party,
       borrowerToLoanIds (run st txs) !!! party
       = filter (fun id =>
                   ActiveLoan.borrower (activeLoans (run st txs) !!! id)
                   = party)
           (seqZ 0 (totalLoans (run st txs)))) /\
    (forall party,
       lenderToLoanIds (run st txs) !!! party
       = filter (fun id =>
                   ActiveLoan.lender (activeLoans (run st txs) !!! id)
                   = party)
           (seqZ 0 (totalLoans (run st txs))))).
  { induction txs as [|tx txs IH]; intros st Hn Hb Hl; [by split|].
    rewrite run_cons.
    destruct (execute_index_exact st tx Hn Hb Hl) as [Hb' Hl'].
    apply IH; try assumption.
    pose proof (execute_totalLoans_mono st tx). lia. }
  destruct (H (constructor feed deployer)) as [Hb Hl].
  - cbn. lia.
  - intros p. cbn [constructor borrowerToLoanIds totalLoans].
    by rewrite lookup_total_empty.
  - intros p. cbn [constructor lenderToLoanIds totalLoans].
    by rewrite lookup_total_empty.
  - split; [apply Hb | apply Hl].
Qed.

(** ** What a call pays out *)

Lemma createLoanRequest_Ok_acts st env a d r mc ec pc ac pu st' acts :
  createLoanRequest st env a d r mc ec pc ac pu = Ok (st', acts) ->
  outflow acts = 0.
Proof.
  intros H. unfold createLoanRequest in H.
  apply whenNotPaused_Ok_inv in H as (_ & H).
  monad_inv H. unfold getNextRequestId in Hv0. monad_inv Hv0.
  injection Hv0 as <- <-. by injection H as <- <-.
Qed.

Lemma dispatch_outflow st env c st' acts :
  dispatch st env c = Ok (st', acts) ->
  outflow acts = expected_outflow st env c.
Proof.
  intros H.
  destruct (is_admin c) eqn:Hadm.
  { rewrite (proj2 (admin_same_ledger _ _ _ _ _ Hadm H)).
    by destruct c. }
  destruct c; try discriminate Hadm; cbn [dispatch expected_outflow] in *.
  - by eapply createLoanRequest_Ok_acts.
  - apply fundLoanRequest_characterized in H
      as (_ & _ & _ & _ & _ & _ & _ & _ & price & _ & _ & ->).
    cbn. lia.
  - apply repayLoan_Ok_inv in H
      as (_ & _ & _ & _ & _ & base & due & _ & _ & Hle & _ & ->).
    destruct (Z.ltb_spec 0 (msg_value env - due)); cbn; lia.
  - apply liquidateExpiredLoan_Ok_acts in H as (_ & _ & ->). cbn. lia.
Qed.

(** X6.  Every successful call sends out of the contract exactly what its
    kind releases: a funding forwards the attached principal; a repayment
    pays out the attached value plus the loan's stake (the amount due to the
    lender, the stake and any excess to the borrower); a liquidation pays
    out the loan's stake; request creation and the administrative calls pay
    out nothing. *)
Theorem outflow_exact st env c st' acts :
  dispatch st env c = Ok (st', acts) ->
  outflow acts = expected_outflow st env c.
Proof. apply dispatch_outflow. Qed.

Lemma outflow_exact_witness :
  outflow [Transfer 20 10815000016330542870; Transfer 10 (20 * 10 ^ 18);
           Transfer 10 184999983669457130;
           Emit (LoanRepaid 0 10 20 10815000016330542870)]
  = 11 * 10 ^ 18 + 20 * 10 ^ 18.
Proof.
  refine (outflow_exact example_state
            (example_env 10 (11 * 10 ^ 18) (1001 + 365 * 86400))
            (RepayLoan 0 0) (settled example_state 0) _ _).
  by vm_compute.
Defined.

(** ** A slot marked repaid before its loan exists *)

(** X7.  Funding into a slot whose repaid flag is already set (as a
    liquidation of the next, not yet allocated loan id leaves it) creates a
    loan that is born repaid: the principal is forwarded to the borrower,
    but in no later state can that loan be repaid or liquidated, so the
    stake is never released and the lender is never paid. *)
Theorem premarked_slot_bricks_loan st env _requestId st1 acts :
  ActiveLoan.isRepaid (activeLoans st !!! totalLoans st) = true ->
  fundLoanRequest st env _requestId = Ok (st1, acts) ->
  let loan := activeLoans st1 !!! totalLoans st in
  ActiveLoan.isRepaid loan = true /\
  ActiveLoan.lender loan = msg_sender env /\
  ActiveLoan.stake loan = LoanRequest.stake (loanRequests st !!! _requestId) /\
  outflow acts = msg_value env /\
  forall txs env' _repayAmount,
    is_Ok (repayLoan (run st1 txs) env' (totalLoans st) _repayAmount) = false
    /\ is_Ok (liquidateExpiredLoan (run st1 txs) env' (totalLoans st)) = false.
Proof.
  intros Hpre H loan.
  apply fundLoanRequest_characterized in H
    as (_ & _ & _ & _ & _ & _ & _ & _ & price & _ & Hst & ->).
  assert (Hloan : loan =
    ActiveLoan.mk (LoanRequest.borrower (loanRequests st !!! _requestId))
      (msg_sender env)
      (LoanRequest.loanAmount (loanRequests st !!! _requestId))
      (LoanRequest.stake (loanRequests st !!! _requestId))
      (block_timestamp env)
      (block_timestamp env
       + LoanRequest.duration (loanRequests st !!! _requestId) * 86400)
      (LoanRequest.interestRate (loanRequests st !!! _requestId)) price
      (LoanRequest.propertyUnits (loanRequests st !!! _requestId))
      (ActiveLoan.isRepaid (activeLoans st !!! totalLoans st))).
  { unfold loan. rewrite Hst. unfold funded.
    cbn [activeLoans set_reentrancyStatus set_loanIndexes set_loanRequests
         set_activeLoans].
    by rewrite lookup_total_insert_eq. }
  assert (Hrep : ActiveLoan.isRepaid loan = true) by by rewrite Hloan.
  split; [exact Hrep|]. split; [by rewrite Hloan|].
  split; [by rewrite Hloan|]. split; [cbn; lia|].
  intros txs env' _repayAmount.
  pose proof (run_isRepaid txs st1 (totalLoans st) Hrep) as Hlater.
  split; apply is_Ok_false; intros [st2 acts2] H2.
  - apply repayLoan_Ok_inv in H2 as (_ & _ & _ & H2 & _). congruence.
  - apply liquidateExpiredLoan_Ok_inv in H2 as (_ & H2 & _). congruence.
Qed.

Lemma premarked_slot_bricks_loan_witness :
  is_Ok (repayLoan
           (run (funded premarked_state (example_env 20 1000 1000) 0
                   (2000 * 10 ^ 18)) [])
           (example_env 10 2000 1500) 0 0) = false.
Proof.
  refine (proj1 (proj2 (proj2 (proj2 (proj2 (premarked_slot_bricks_loan
            premarked_state (example_env 20 1000 1000) 0
            (funded premarked_state (example_env 20 1000 1000) 0
               (2000 * 10 ^ 18))
            _ _ _)))) [] (example_env 10 2000 1500) 0)).
  - by vm_compute.
  - by vm_compute.
Defined.

(** ** Invariants of the deployed platform *)

(** X8.  In every state reached from deployment by well-formed
    transactions: every request's stake is exactly twice its amount, its
    rate is at most 7, and an active request has a positive amount and rate;
    every loan's stake is exactly twice its amount, its rate is at most 7
    and its end is not before its start; the liquidation bonus and the
    overdue penalty are at most 5000 bp; the fixed price is positive; and
    the reentrancy guard is released. *)
Theorem platform_invariants feed deployer txs :
  Forall (fun tx => wf_tx tx = true) txs ->
  let st := run (constructor feed deployer) txs in
  (forall rid,
     let r := loanRequests st !!! rid in
     LoanRequest.stake r = 2 * LoanRequest.loanAmount r /\
     0 <= LoanRequest.interestRate r <= 7 /\
     (LoanRequest.isActive r = true ->
      0 < LoanRequest.loanAmount r /\ 0 < LoanRequest.interestRate r)) /\
  (forall id,
     let l := activeLoans st !!! id in
     ActiveLoan.stake l = 2 * ActiveLoan.loanAmount l /\
     0 <= ActiveLoan.interestRate l <= 7 /\
     ActiveLoan.startTimestamp l <= ActiveLoan.endTime l) /\
  0 <= liquidationBonusBp st <= 5000 /\
  0 <= overdueRepayPenaltyBp st <= 5000 /\
  0 < demoFixedEthUsdPrice st /\
  _reentrancyStatus st = _NOT_ENTERED.
Proof.
  intros Hall st.
  destruct (reachable_invariant feed deployer txs Hall)
    as [[Hs Hb Hp Hf Hm] Hreq Hloan].
  fold st in Hs, Hb, Hp, Hf, Hm, Hreq, Hloan.
  split; [|split].
  - intros rid r. destruct (Hreq rid) as (H1 & _ & _ & H2 & _ & H3).
    unfold MAX_INTEREST_RATE in H2. fold r in H1, H2, H3.
    split; [exact H1|]. split; [lia|]. exact H3.
  - intros id l. destruct (Hloan id) as (H1 & H2 & H3 & Hwf).
    apply ActiveLoan_wf_spec in Hwf as (_ & _ & _ & _ & Hr & _).
    unfold MAX_INTEREST_RATE in H2. fold l in H1, H2, H3, Hr.
    split; [exact H1|]. split; [lia|]. exact H3.
  - repeat split; try lia; exact Hs.
Qed.

Lemma platform_invariants_witness :
  ActiveLoan.stake (activeLoans example_state !!! 0)
  = 2 * ActiveLoan.loanAmount (activeLoans example_state !!! 0).
Proof.
  refine (proj1 (proj1 (proj2 (platform_invariants 0 99
            [ (example_env 10 (20 * 10 ^ 18) 1000,
               CreateLoanRequest (10 * 10 ^ 18) 365 5 0 "cid" 0 "appraisal" 1);
              (example_env 20 (10 * 10 ^ 18) 1000, FundLoanRequest 0) ] _))
            0)).
  repeat constructor.
Defined.

(** X9.  In every state reached from deployment by well-formed
    transactions, a successful liquidation pays the caller a bonus of at
    most the loan amount and the lender at least the loan amount: the
    lender recovers at least the principal, in collateral units. *)
Theorem liquidation_covers_principal feed deployer txs env _loanId st' acts :
  Forall (fun tx => wf_tx tx = true) txs ->
  let st := run (constructor feed deployer) txs in
  liquidateExpiredLoan st env _loanId = Ok (st', acts) ->
  let loan := activeLoans st !!! _loanId in
  exists bonus toLender,
    acts = [Transfer (msg_sender env) bonus;
            Transfer (ActiveLoan.lender loan) toLender;
            Emit (LoanLiquidated _loanId (ActiveLoan.lender loan)
                    (ActiveLoan.stake loan))] /\
    0 <= bonus <= ActiveLoan.loanAmount loan /\
    ActiveLoan.loanAmount loan <= toLender /\
    bonus + toLender = 2 * ActiveLoan.loanAmount loan.
Proof.
  intros Hall st H loan.
  destruct (reachable_invariant feed deployer txs Hall)
    as [[Hs Hb Hp Hf Hm] Hreq Hloan].
  fold st in Hs, Hb, Hp, Hf, Hm, Hreq, Hloan.
  destruct (Hloan _loanId) as (Hst & _ & _ & Hwf). fold loan in Hst, Hwf.
  apply ActiveLoan_wf_spec in Hwf as (Ha & Hstake & _).
  apply liquidateExpiredLoan_Ok_acts in H as (_ & _ & ->). fold loan.
  destruct (spec_bonus_bounds (ActiveLoan.stake loan) (liquidationBonusBp st)
              Hstake ltac:(lia)) as [[Hb0 Hb1] Hb2].
  eexists _, _. split; [reflexivity|]. nia.
Qed.

Lemma liquidation_covers_principal_witness :
  exists bonus toLender,
    [Transfer 30 (6 * 10 ^ 17); Transfer 20 (194 * 10 ^ 17);
     Emit (LoanLiquidated 0 20 (20 * 10 ^ 18))]
    = [Transfer 30 bonus; Transfer 20 toLender;
       Emit (LoanLiquidated 0 20 (20 * 10 ^ 18))] /\
    0 <= bonus <= 10 * 10 ^ 18 /\
    10 * 10 ^ 18 <= toLender /\
    bonus + toLender = 2 * (10 * 10 ^ 18).
Proof.
  refine (liquidation_covers_principal 0 99
            [ (example_env 10 (20 * 10 ^ 18) 1000,
               CreateLoanRequest (10 * 10 ^ 18) 365 5 0 "cid" 0 "appraisal" 1);
              (example_env 20 (10 * 10 ^ 18) 1000, FundLoanRequest 0) ]
            (example_env 30 0 (1001 + 365 * 86400)) 0
            (settled example_state 0) _ _ _).
  - repeat constructor.
  - by vm_compute.
Defined.

(** ** Division by zero *)

Lemma bind_Err_inv {A B} (m : result A) (f : A -> result B) (e : error) :
  (m ≫= f) = Err e -> m = Err e \/ exists a, m = Ok a /\ f a = Err e.
Proof.
  destruct m as [a|e']; intros H; [right; eauto|].
  left. rewrite bind_Err in H. by injection H as ->.
Qed.

Lemma checked_mul_Err a b e : checked_mul a b = Err e -> e = Panic 0x11.
Proof. unfold checked_mul. destruct (_ <=? _); [done | by intros [= <-]]. Qed.

Lemma checked_add_Err a b e : checked_add a b = Err e -> e = Panic 0x11.
Proof. unfold checked_add. destruct (_ <=? _); [done | by intros [= <-]]. Qed.

Lemma checked_sub_Err a b e : checked_sub a b = Err e -> e = Panic 0x11.
Proof. unfold checked_sub. destruct (_ <=? _); [done | by intros [= <-]]. Qed.

Lemma checked_div_Err a b e : checked_div a b = Err e -> b = 0.
Proof. unfold checked_div. destruct (Z.eqb_spec b 0); [done | discriminate]. Qed.

Lemma require_Err c reason e : require c reason = Err e -> e = Revert reason.
Proof. destruct c; [discriminate | by intros [= <-]]. Qed.

(** Peel the failing step off a chain of binds. *)
Ltac err_inv H :=
  repeat
    (match type of H with
     | (_ ≫= _) = Err _ =>
         let a := fresh "a" in
         let Ha := fresh "Ha" in
         apply bind_Err_inv in H as [H | (a & Ha & H)]
     end);
  try (apply checked_mul_Err in H; congruence);
  try (apply checked_add_Err in H; congruence);
  try (apply checked_sub_Err in H; congruence);
  try (apply require_Err in H; congruence).

Lemma _getEthUsdPrice_no_div0 st env :
  _getEthUsdPrice st env <> Err (Panic 0x12).
Proof.
  unfold _getEthUsdPrice. destruct (ethUsdFeed st =? 0); [discriminate|].
  intros H. err_inv H.
Qed.

(** X10.  In every state reached from deployment by well-formed
    transactions, neither the amount-due computation nor the overdue penalty
    can fail with a division by zero (Panic 0x12): the price they divide by
    is never zero. *)
Theorem amount_due_never_divides_by_zero feed deployer txs env _loanId :
  Forall (fun tx => wf_tx tx = true) txs ->
  let st := run (constructor feed deployer) txs in
  calculateAmountDueEth st env _loanId <> Err (Panic 0x12) /\
  forall baseDueEth,
    _applyOverduePenaltyEth st env _loanId baseDueEth <> Err (Panic 0x12).
Proof.
  intros Hall st.
  destruct (reachable_invariant feed deployer txs Hall)
    as [[Hs Hb Hp Hf Hm] Hreq Hloan].
  fold st in Hs, Hb, Hp, Hf, Hm, Hreq, Hloan.
  assert (Hprice : forall p, _getEthUsdPrice st env = Ok p -> p <> 0).
  { intros p Hp'. pose proof (_getEthUsdPrice_range st env p Hf Hp'). lia. }
  pose proof (_getEthUsdPrice_no_div0 st env) as Hnd.
  destruct constants_eval as (Hy & H18 & _ & _).
  split.
  - unfold calculateAmountDueEth. rewrite elapsed_eval, Hy, H18. intros H.
    err_inv H.
    all: try discriminate H.
    all: try (by destruct (Hnd H)).
    all: apply checked_div_Err in H.
    all: try lia.
    all: match goal with
         | Hp' : _getEthUsdPrice _ _ = Ok ?p |- _ => by apply (Hprice p Hp')
         end.
  - intros base. unfold _applyOverduePenaltyEth. rewrite H18.
    destruct (overdueRepayPenaltyBp st =? 0); [discriminate|].
    intros H. err_inv H.
    all: try discriminate H.
    all: try (by destruct (Hnd H)).
    all: apply checked_div_Err in H.
    all: try lia.
    all: match goal with
         | Hp' : _getEthUsdPrice _ _ = Ok ?p |- _ => by apply (Hprice p Hp')
         end.
Qed.

Lemma amount_due_never_divides_by_zero_witness :
  calculateAmountDueEth example_state (example_env 10 0 5000) 0
  <> Err (Panic 0x12).
Proof.
  refine (proj1 (amount_due_never_divides_by_zero 0 99
            [ (example_env 10 (20 * 10 ^ 18) 1000,
               CreateLoanRequest (10 * 10 ^ 18) 365 5 0 "cid" 0 "appraisal" 1);
              (example_env 20 (10 * 10 ^ 18) 1000, FundLoanRequest 0) ]
            (example_env 10 0 5000) 0 _)).
  repeat constructor.
Defined.

(** ** Administration *)

Lemma admin_not_owner st env c :
  is_admin c = true ->
  msg_sender env <> owner st ->
  is_Ok (dispatch st env c) = false /\
  (msg_value env = 0 -> dispatch st env c = Err (Revert "Only owner")) /\
  (msg_value env <> 0 -> dispatch st env c = Err RevertNoData).
Proof.
  intros Hadm Hne.
  assert (H : dispatch st env c
              = if msg_value env =? 0 then Err (Revert "Only owner")
                else Err RevertNoData).
  { destruct c; try discriminate Hadm; cbn [dispatch];
      unfold transferOwnership, pause, unpause, updateParams, updateOracle,
        setDemoFixedEthUsdPrice, updateRealEstateOracle, nonPayable, onlyOwner;
      by rewrite (proj2 (Z.eqb_neq _ _) Hne). }
  rewrite H. destruct (Z.eqb_spec (msg_value env) 0) as [Hv|Hv].
  - by repeat split.
  - by repeat split.
Qed.

Lemma execute_not_owner st tx :
  msg_sender tx.1 <> owner st ->
  admin_config (execute st tx) = admin_config st.
Proof.
  intros Hne. destruct tx as [env c]. cbn [fst snd] in Hne.
  unfold execute, state_after. cbn [fst snd].
  destruct (dispatch st env c) as [[st' acts]|e] eqn:Hd; [|reflexivity].
  destruct (is_admin c) eqn:Hadm.
  { destruct (admin_not_owner st env c Hadm Hne) as [Hf _].
    by rewrite Hd in Hf. }
  apply dispatch_cases in Hd
    as [(a & d & r & mc & ec & pc & ac & pu & _ & ->)
       | [(rid & price & _ & _ & ->)
         | [(i & _ & ->) | (Hadm' & _)]]];
    [reflexivity | reflexivity | reflexivity | congruence].
Qed.

Lemma run_not_owner txs : forall st,
  Forall (fun tx => msg_sender tx.1 <> owner st) txs ->
  admin_config (run st txs) = admin_config st.
Proof.
  induction txs as [|tx txs IH]; intros st Hall; [reflexivity|].
  apply Forall_cons_1 in Hall as [Htx Hall].
  rewrite run_cons.
  pose proof (execute_not_owner st tx Htx) as Hcfg.
  rewrite <- Hcfg. apply IH.
  assert (Ho : owner (execute st tx) = owner st).
  { unfold admin_config in Hcfg. by injection Hcfg. }
  by rewrite Ho.
Qed.

(** X11.  Only the owner administers the platform: an administrative call
    (transfer of ownership, pause, unpause, parameter, oracle, fixed-price or
    real-estate-oracle update) by anyone else never succeeds: with no value
    attached it fails with "Only owner", and with value attached it reverts
    without a reason, these functions not being payable.  After any sequence
    of transactions none of which is sent by the owner, the owner, the pause
    flag, the penalty and bonus rates, the staleness bound, the price feed,
    the fixed price and the real-estate oracle are what they were. *)
Theorem only_owner_administers st txs :
  Forall (fun tx => msg_sender tx.1 <> owner st) txs ->
  admin_config (run st txs) = admin_config st /\
  forall env c, is_admin c = true -> msg_sender env <> owner st ->
    is_Ok (dispatch st env c) = false /\
    (msg_value env = 0 -> dispatch st env c = Err (Revert "Only owner")) /\
    (msg_value env <> 0 -> dispatch st env c = Err RevertNoData).
Proof.
  intros Hall. split; [by apply run_not_owner|].
  intros env c Hadm Hne. by apply admin_not_owner.
Qed.

Lemma only_owner_administers_witness :
  admin_config
    (run example_state
       [ (example_env 10 0 2000, UpdateParams 0 5000 0);
         (example_env 20 0 2000, TransferOwnership 20);
         (example_env 30 0 (1001 + 365 * 86400), LiquidateExpiredLoan 0) ])
  = admin_config example_state.
Proof.
  refine (proj1 (only_owner_administers example_state
            [ (example_env 10 0 2000, UpdateParams 0 5000 0);
              (example_env 20 0 2000, TransferOwnership 20);
              (example_env 30 0 (1001 + 365 * 86400), LiquidateExpiredLoan 0) ]
            _)).
  repeat constructor; by vm_compute.
Defined.

(** X12.  Ownership is handed over whole.  A transfer by the owner (no
    value attached) to a non-zero address makes that address the owner and
    emits [OwnerUpdated]; a transfer to the zero address fails with "zero
    address".  After the handover, through every sequence of transactions
    none of which is sent by the new owner, the new owner remains the owner,
    no administrative call of the previous owner (when it is a different
    account) succeeds (with no value attached it fails with "Only owner"),
    and the new owner can pause. *)
Theorem ownership_handover st env newOwner :
  msg_sender env = owner st -> msg_value env = 0 ->
  transferOwnership st env 0 = Err (Revert "zero address") /\
  (newOwner <> 0 ->
   transferOwnership st env newOwner
   = Ok (set_owner st newOwner, [Emit (OwnerUpdated (owner st) newOwner)]) /\
   forall txs,
     Forall (fun tx => msg_sender tx.1 <> newOwner) txs ->
     let st' := run (set_owner st newOwner) txs in
     owner st' = newOwner /\
     (owner st <> newOwner ->
      forall env' c, is_admin c = true -> msg_sender env' = owner st ->
        is_Ok (dispatch st' env' c) = false /\
        (msg_value env' = 0 ->
         dispatch st' env' c = Err (Revert "Only owner"))) /\
     forall env', msg_sender env' = newOwner -> msg_value env' = 0 ->
       pause st' env' = Ok (set_paused st' true, [Emit (Paused newOwner)])).
Proof.
  intros Hs Hv. split; [|intros Hn; split].
  - unfold transferOwnership. rewrite nonPayable_zero by exact Hv.
    unfold onlyOwner. rewrite Hs, !Z.eqb_refl. reflexivity.
  - unfold transferOwnership. rewrite nonPayable_zero by exact Hv.
    unfold onlyOwner. rewrite Hs, Z.eqb_refl.
    rewrite require_true, bind_Ok, (proj2 (Z.eqb_neq _ _) Hn).
    reflexivity.
  - intros txs Hall st'.
    assert (Ho : owner st' = newOwner).
    { pose proof (run_not_owner txs (set_owner st newOwner) Hall) as Hcfg.
      unfold admin_config in Hcfg. by injection Hcfg. }
    split; [exact Ho|]. split.
    + intros Hne env' c Hadm Hs'.
      destruct (admin_not_owner st' env' c Hadm) as (Hf & He & _);
        [congruence|].
      by split.
    + intros env' Hs' Hv'. unfold pause.
      rewrite nonPayable_zero by exact Hv'. unfold onlyOwner.
      rewrite Ho, Hs', Z.eqb_refl. reflexivity.
Qed.

Lemma ownership_handover_witness :
  transferOwnership example_state (example_env 99 0 2000) 20
  = Ok (set_owner example_state 20, [Emit (OwnerUpdated 99 20)]) /\
  is_Ok (dispatch
           (run (set_owner example_state 20)
              [ (example_env 99 0 2100, TransferOwnership 99);
                (example_env 30 0 (1001 + 365 * 86400),
                 LiquidateExpiredLoan 0) ])
           (example_env 99 0 (2000 + 365 * 86400)) Pause) = false.
Proof.
  destruct (proj2 (ownership_handover example_state (example_env 99 0 2000) 20
                     ltac:(by vm_compute) ltac:(by vm_compute))
              ltac:(lia)) as [Ht Hlater].
  split; [exact Ht|].
  refine (proj1 (proj1 (proj2 (Hlater
            [ (example_env 99 0 2100, TransferOwnership 99);
              (example_env 30 0 (1001 + 365 * 86400),
               LiquidateExpiredLoan 0) ] _)) _
            (example_env 99 0 (2000 + 365 * 86400)) Pause _ _)).
  - repeat constructor; by vm_compute.
  - by vm_compute.
  - reflexivity.
  - by vm_compute.
Defined.

(** ** Rounding of the amount due and of the penalty *)

Lemma spec_penalized_due_bounds (base p bp : Z) :
  0 <= base -> 10 ^ 18 <= p -> 0 <= bp <= 10000 ->
  10000 * spec_penalized_due base p bp <= base * (10000 + bp) /\
  base * (10000 + bp) < 10000 * (spec_penalized_due base p bp + 4).
Proof.
  intros Hbase Hp Hbp. unfold spec_penalized_due.
  change (10 ^ 18) with 1000000000000000000 in *.
  set (S := 1000000000000000000) in *.
  set (v := base * p ÷ S).
  assert (HX : 0 <= base * p) by nia.
  destruct (quot_bounds (base * p) S HX ltac:(lia)) as [F1 Hv]. fold v in F1, Hv.
  set (pen := v * bp ÷ 10000).
  assert (HW : 0 <= v * bp) by nia.
  destruct (quot_bounds (v * bp) 10000 HW ltac:(lia)) as [F2 Hpen].
  fold pen in F2, Hpen.
  set (due := (v + pen) * S ÷ p).
  assert (HT : 0 <= (v + pen) * S) by nia.
  destruct (quot_bounds ((v + pen) * S) p HT ltac:(lia)) as [F3 Hdue].
  fold due in F3, Hdue.
  assert (G1 : S * (v * bp) <= base * p * bp) by nia.
  assert (G2 : base * p * bp < S * (v * bp) + S * bp + 1) by nia.
  split.
  - apply (Z.mul_le_mono_pos_l _ _ p); [lia|]. nia.
  - apply (Z.mul_lt_mono_pos_l p); [lia|]. nia.
Qed.

Lemma _applyOverduePenaltyEth_Ok_inv st env _loanId baseDueEth due :
  _applyOverduePenaltyEth st env _loanId baseDueEth = Ok due ->
  (overdueRepayPenaltyBp st = 0 /\ due = baseDueEth) \/
  (overdueRepayPenaltyBp st <> 0 /\
   exists currentPrice,
     _getEthUsdPrice st env = Ok currentPrice /\ currentPrice <> 0 /\
     due = spec_penalized_due baseDueEth currentPrice (overdueRepayPenaltyBp st)).
Proof.
  unfold _applyOverduePenaltyEth.
  destruct (Z.eqb_spec (overdueRepayPenaltyBp st) 0) as [Hz|Hnz].
  - intros [= <-]. by left.
  - intros H. right. split; [assumption|].
    destruct constants_eval as (_ & H18 & _ & _). rewrite H18 in H.
    inv_bind H as p Hprice. inv_bind H as v Hv. inv_bind Hv as m1 Hm1.
    apply checked_mul_Ok_inv in Hm1 as [-> _].
    apply checked_div_Ok_inv in Hv as [-> _].
    inv_bind H as pen Hpen. inv_bind Hpen as m2 Hm2.
    apply checked_mul_Ok_inv in Hm2 as [-> _].
    apply checked_div_Ok_inv in Hpen as [-> _].
    inv_bind H as tot Htot. apply checked_add_Ok_inv in Htot as [-> _].
    inv_bind H as m3 Hm3. apply checked_mul_Ok_inv in Hm3 as [-> _].
    apply checked_div_Ok_inv in H as [-> Hp].
    exists p. by repeat split.
Qed.

(** X13 ([_applyOverduePenaltyEth]): whenever the overdue penalty is
    computed, at a price of at least 10^18 and a penalty of at most 10000
    basis points, the penalised amount never exceeds the base amount
    increased by the penalty rate, falls short of it by less than 4 units of
    the smallest denomination, and is at most 3 units below the base
    amount. *)
Theorem overdue_penalty_bounds st env _loanId baseDueEth due currentPrice :
  _applyOverduePenaltyEth st env _loanId baseDueEth = Ok due ->
  _getEthUsdPrice st env = Ok currentPrice ->
  0 <= baseDueEth -> 10 ^ 18 <= currentPrice ->
  0 <= overdueRepayPenaltyBp st <= 10000 ->
  10000 * due <= baseDueEth * (10000 + overdueRepayPenaltyBp st) /\
  baseDueEth * (10000 + overdueRepayPenaltyBp st) < 10000 * (due + 4) /\
  baseDueEth <= due + 3.
Proof.
  intros H Hprice Hbase Hp Hbp.
  assert (Hmain :
    10000 * due <= baseDueEth * (10000 + overdueRepayPenaltyBp st) /\
    baseDueEth * (10000 + overdueRepayPenaltyBp st) < 10000 * (due + 4)).
  { apply _applyOverduePenaltyEth_Ok_inv in H
      as [[Hz ->]|(_ & p & Hprice' & _ & ->)].
    - rewrite Hz. lia.
    - rewrite Hprice in Hprice'. injection Hprice' as <-.
      by apply spec_penalized_due_bounds. }
  destruct Hmain as [Hup Hlow]. repeat split; [assumption..|].
  assert (0 <= baseDueEth * overdueRepayPenaltyBp st) by nia. lia.
Qed.

Lemma overdue_penalty_bounds_witness :
  let due := spec_penalized_due (10 * 10 ^ 18) (2000 * 10 ^ 18) 300 in
  10000 * due <= 10 * 10 ^ 18 * (10000 + 300) /\
  10 * 10 ^ 18 * (10000 + 300) < 10000 * (due + 4) /\
  10 * 10 ^ 18 <= due + 3.
Proof.
  apply (overdue_penalty_bounds example_state (example_env 10 0 2000) 0
           (10 * 10 ^ 18) _ (2000 * 10 ^ 18)).
  - by vm_compute.
  - by vm_compute.
  - lia.
  - lia.
  - by vm_compute.
Defined.

Lemma spec_amount_due_bounds (a r p0 e p : Z) :
  0 <= a -> 0 <= r -> 0 <= p0 -> 0 <= e -> 0 < p ->
  0 <= spec_amount_due a r p0 e p /\
  3153600000 * (p * spec_amount_due a r p0 e p)
    <= a * p0 * (3153600000 + r * e) /\
  (10 ^ 18 <= p ->
   a * p0 * (3153600000 + r * e)
     < p * (3153600000 * (spec_amount_due a r p0 e p + 3) + r * e)).
Proof.
  intros Ha Hr Hp0 He Hp. unfold spec_amount_due.
  change (10 ^ 18) with 1000000000000000000.
  change (365 * 86400 * 100) with 3153600000.
  set (S := 1000000000000000000).
  set (pr := a * p0 ÷ S).
  assert (HX : 0 <= a * p0) by nia.
  destruct (quot_bounds (a * p0) S HX ltac:(lia)) as [F1 Hpr]. fold pr in F1, Hpr.
  assert (HR : 0 <= r * e) by nia.
  replace (pr * r * e) with (pr * (r * e)) by ring.
  set (R := r * e) in *.
  set (int := pr * R ÷ 3153600000).
  assert (HT : 0 <= pr * R) by nia.
  destruct (quot_bounds (pr * R) 3153600000 HT ltac:(lia)) as [F2 Hint].
  fold int in F2, Hint.
  set (due := (pr + int) * S ÷ p).
  assert (HU : 0 <= (pr + int) * S) by nia.
  destruct (quot_bounds ((pr + int) * S) p HU Hp) as [F3 Hdue].
  fold due in F3, Hdue.
  assert (G1 : S * (pr * R) <= a * p0 * R) by nia.
  assert (G2 : a * p0 * R <= S * (pr * R) + S * R) by nia.
  split; [assumption|]. split.
  - nia.
  - intros HS. assert (G3 : S * R <= p * R) by nia. nia.
Qed.

(** X14 ([calculateAmountDueEth]): the amount due is never negative and
    never exceeds the principal plus simple interest at the loan's yearly
    rate, converted from the price at funding to the current price; at a
    current price of at least 10^18 the truncations take less than three
    units (plus the interest fraction of one unit) off that figure. *)
Theorem amount_due_bounds st env _loanId due currentPrice :
  let loan := activeLoans st !!! _loanId in
  let elapsed :=
    spec_elapsed (block_timestamp env) (ActiveLoan.startTimestamp loan) in
  let exact :=
    ActiveLoan.loanAmount loan * ActiveLoan.initialEthPrice loan
    * (365 * 86400 * 100 + ActiveLoan.interestRate loan * elapsed) in
  calculateAmountDueEth st env _loanId = Ok due ->
  _getEthUsdPrice st env = Ok currentPrice ->
  ActiveLoan.wf loan = true ->
  0 < currentPrice ->
  0 <= due /\
  365 * 86400 * 100 * (currentPrice * due) <= exact /\
  (10 ^ 18 <= currentPrice ->
   exact < currentPrice * (365 * 86400 * 100 * (due + 3)
                           + ActiveLoan.interestRate loan * elapsed)).
Proof.
  intros loan elapsed exact H Hprice Hwf Hp.
  apply calculateAmountDueEth_Ok_inv in H as (_ & p & Hprice' & _ & H).
  fold loan in H. fold elapsed in H.
  destruct H as (_ & _ & _ & _ & _ & ->).
  rewrite Hprice in Hprice'. injection Hprice' as <-.
  apply ActiveLoan_wf_spec in Hwf as (Ha & _ & _ & _ & Hr & Hp0).
  assert (He : 0 <= elapsed).
  { unfold elapsed, spec_elapsed.
    destruct (Z.gtb_spec (block_timestamp env) (ActiveLoan.startTimestamp loan));
      lia. }
  unfold exact. change (365 * 86400 * 100) with 3153600000.
  by apply spec_amount_due_bounds.
Qed.

Lemma amount_due_bounds_witness :
  let due := 105 * 10 ^ 17 in
  let exact := 10 * 10 ^ 18 * (2000 * 10 ^ 18)
               * (365 * 86400 * 100 + 5 * (365 * 86400)) in
  0 <= due /\
  365 * 86400 * 100 * (2000 * 10 ^ 18 * due) <= exact /\
  (10 ^ 18 <= 2000 * 10 ^ 18 ->
   exact < 2000 * 10 ^ 18 * (365 * 86400 * 100 * (due + 3) + 5 * (365 * 86400))).
Proof.
  apply (amount_due_bounds example_state
           (example_env 10 0 (1000 + 365 * 86400)) 0
           (105 * 10 ^ 17) (2000 * 10 ^ 18)).
  - by vm_compute.
  - by vm_compute.
  - by vm_compute.
  - lia.
Defined.

(** ** The dashboard's repayment *)

Lemma frontend_valueToSend_bounds (due : Z) :
  0 <= due ->
  due + 1000000000000 <= frontend_valueToSend due /\
  (1000000000000000 <= due ->
   1000 * frontend_valueToSend due <= 1001 * due).
Proof.
  intros Hdue. unfold frontend_valueToSend.
  destruct (quot_bounds due 1000 Hdue ltac:(lia)) as [F _].
  destruct (Z.gtb_spec (due ÷ 1000) 1000000000000); split; lia.
Qed.

Lemma repayLoan_insufficient st env _loanId _repayAmount base dueEth :
  let loan := activeLoans st !!! _loanId in
  _reentrancyStatus st <> _ENTERED -> paused st = false ->
  msg_sender env = ActiveLoan.borrower loan ->
  ActiveLoan.isRepaid loan = false -> 0 < msg_value env ->
  calculateAmountDueEth st env _loanId = Ok base ->
  (if ActiveLoan.endTime loan <? block_timestamp env
   then _applyOverduePenaltyEth st env _loanId base
   else Ok base) = Ok dueEth ->
  msg_value env < dueEth ->
  repayLoan st env _loanId _repayAmount = Err (Revert "Insufficient repayment").
Proof.
  intros loan Hidle Hp Hs Hrep Hv Hbase Hdue Hlt.
  unfold repayLoan.
  rewrite nonReentrant_idle by exact Hidle.
  rewrite whenNotPaused_running by exact Hp.
  cbn [activeLoans set_reentrancyStatus]. fold loan.
  rewrite Hs, Z.eqb_refl, require_true, bind_Ok.
  rewrite Hrep. cbn [negb]. rewrite require_true, bind_Ok.
  rewrite (proj2 (Z.ltb_lt _ _) Hv), require_true, bind_Ok.
  change (calculateAmountDueEth (set_reentrancyStatus st _ENTERED) env _loanId)
    with (calculateAmountDueEth st env _loanId).
  rewrite Hbase, bind_Ok.
  change (_applyOverduePenaltyEth (set_reentrancyStatus st _ENTERED) env
            _loanId base)
    with (_applyOverduePenaltyEth st env _loanId base).
  rewrite Hdue, bind_Ok.
  assert (Hleb : (dueEth <=? msg_value env) = false) by (apply Z.leb_gt; lia).
  rewrite Hleb, require_false. reflexivity.
Qed.

(** X15 (dashboard [repayLoan] against the contract's [repayLoan]): the
    dashboard reads the amount due and attaches it plus a buffer of 0.1%
    (at least 10^12).  Sent by the borrower under the very conditions of the
    reading, this settles a loan that is not overdue, the buffer coming back
    as the refund; for an overdue loan of at least 10^15 with a penalty of
    20 to 10000 basis points and a price of at least 10^18, the contract
    rejects it as an insufficient repayment, since the reading leaves the
    penalty out. *)
Theorem dashboard_repay_value st env _loanId base :
  let loan := activeLoans st !!! _loanId in
  _reentrancyStatus st <> _ENTERED -> paused st = false ->
  msg_sender env = ActiveLoan.borrower loan ->
  calculateAmountDueEth st env _loanId = Ok base ->
  0 <= base ->
  msg_value env = frontend_valueToSend base ->
  (block_timestamp env <= ActiveLoan.endTime loan ->
   call_succeeds env (ActiveLoan.lender loan) base = true ->
   call_succeeds env (ActiveLoan.borrower loan) (ActiveLoan.stake loan) = true ->
   call_succeeds env (ActiveLoan.borrower loan)
     (frontend_valueToSend base - base) = true ->
   repayLoan st env _loanId base =
     Ok (settled st _loanId,
         [Transfer (ActiveLoan.lender loan) base;
          Transfer (ActiveLoan.borrower loan) (ActiveLoan.stake loan);
          Transfer (ActiveLoan.borrower loan) (frontend_valueToSend base - base);
          Emit (LoanRepaid _loanId (ActiveLoan.borrower loan)
                  (ActiveLoan.lender loan) base)])) /\
  (ActiveLoan.endTime loan < block_timestamp env ->
   forall currentPrice dueEth,
     _getEthUsdPrice st env = Ok currentPrice ->
     10 ^ 18 <= currentPrice ->
     20 <= overdueRepayPenaltyBp st <= 10000 ->
     10 ^ 15 <= base ->
     _applyOverduePenaltyEth st env _loanId base = Ok dueEth ->
     repayLoan st env _loanId base = Err (Revert "Insufficient repayment")).
Proof.
  intros loan Hidle Hp Hs Hbase Hnn Hval.
  pose proof (calculateAmountDueEth_Ok_inv _ _ _ _ Hbase) as [Hrep _].
  fold loan in Hrep.
  destruct (frontend_valueToSend_bounds base Hnn) as [Hbuf Hcap].
  split.
  - intros Hend Hc1 Hc2 Hc3.
    assert (Hdue : (if ActiveLoan.endTime loan <? block_timestamp env
                    then _applyOverduePenaltyEth st env _loanId base
                    else Ok base) = Ok base).
    { by rewrite (proj2 (Z.ltb_ge _ _) Hend). }
    rewrite (repayLoan_Ok st env _loanId base base base Hidle Hp Hs Hrep
               ltac:(lia) Hbase Hdue ltac:(lia) Hc1 Hc2
               ltac:(intros _; by rewrite Hval)).
    rewrite Hval.
    assert (Hex : (0 <? frontend_valueToSend base - base) = true)
      by (apply Z.ltb_lt; lia).
    rewrite Hex. reflexivity.
  - intros Hend p dueEth Hprice Hp18 Hbp H15 Hpen.
    change (10 ^ 15) with 1000000000000000 in H15.
    assert (Hdue : (if ActiveLoan.endTime loan <? block_timestamp env
                    then _applyOverduePenaltyEth st env _loanId base
                    else Ok base) = Ok dueEth).
    { by rewrite (proj2 (Z.ltb_lt _ _) Hend). }
    apply (repayLoan_insufficient st env _loanId base base dueEth
             Hidle Hp Hs Hrep ltac:(lia) Hbase Hdue).
    clear Hdue.
    { apply _applyOverduePenaltyEth_Ok_inv in Hpen
        as [[Hz _]|(_ & p' & Hprice' & _ & ->)]; [lia|].
      rewrite Hprice in Hprice'. injection Hprice' as <-.
      destruct (spec_penalized_due_bounds base p (overdueRepayPenaltyBp st)
                  Hnn Hp18 ltac:(lia)) as [_ Hlow].
      specialize (Hcap H15).
      assert (base * 20 <= base * overdueRepayPenaltyBp st) by nia.
      lia. }
Qed.

Lemma dashboard_repay_value_witness :
  repayLoan example_state
    (example_env 10 (frontend_valueToSend (105 * 10 ^ 17)) (1000 + 365 * 86400))
    0 (105 * 10 ^ 17)
  = Ok (settled example_state 0,
        [Transfer 20 (105 * 10 ^ 17); Transfer 10 (20 * 10 ^ 18);
         Transfer 10 (frontend_valueToSend (105 * 10 ^ 17) - 105 * 10 ^ 17);
         Emit (LoanRepaid 0 10 20 (105 * 10 ^ 17))]) /\
  repayLoan example_state
    (example_env 10 (frontend_valueToSend 10500000015854895991)
       (1001 + 365 * 86400))
    0 10500000015854895991
  = Err (Revert "Insufficient repayment").
Proof.
  split.
  - apply (proj1 (dashboard_repay_value example_state
      (example_env 10 (frontend_valueToSend (105 * 10 ^ 17))
         (1000 + 365 * 86400))
      0 (105 * 10 ^ 17)
      ltac:(by vm_compute) ltac:(by vm_compute) ltac:(by vm_compute)
      ltac:(by vm_compute) ltac:(lia) ltac:(by vm_compute))).
    + by vm_compute.
    + by vm_compute.
    + by vm_compute.
    + by vm_compute.
  - apply (proj2 (dashboard_repay_value example_state
      (example_env 10 (frontend_valueToSend 10500000015854895991)
         (1001 + 365 * 86400))
      0 10500000015854895991
      ltac:(by vm_compute) ltac:(by vm_compute) ltac:(by vm_compute)
      ltac:(by vm_compute) ltac:(lia) ltac:(by vm_compute))
      ltac:(by vm_compute) (2000 * 10 ^ 18) 10815000016330542870).
    + by vm_compute.
    + lia.
    + by vm_compute.
    + lia.
    + by vm_compute.
Defined.

(** ** The listing views *)

(** X16 ([getBorrowerActiveLoans]): the view returns, in ascending order of
    id, every request the borrower ever created, funded or not, each paired
    with its stored record, and it never fails: the two arrays are sized by
    the first pass and the second pass fills them exactly. *)
Theorem getBorrowerActiveLoans_exact st _borrower :
  totalRequests st <= MAX_UINT256 ->
  let ids :=
    filter (fun i => LoanRequest.borrower (loanRequests st !!! i) = _borrower)
      (seqZ 0 (totalRequests st)) in
  getBorrowerActiveLoans st _borrower
  = Ok (ids, (fun i => loanRequests st !!! i) <$> ids).
Proof.
  intros Hn ids. unfold getBorrowerActiveLoans.
  set (matches := fun i : Z =>
         LoanRequest.borrower (loanRequests st !!! i) =? _borrower).
  assert (Hids : filter (fun i => matches i = true) (seqZ 0 (totalRequests st))
                 = ids).
  { apply filter_ext_in. intros i _. unfold matches. apply Z.eqb_eq. }
  rewrite count_loop_spec by exact Hn. rewrite bind_Ok.
  rewrite (fill_loop_spec matches (fun i => loanRequests st !!! i)
             (totalRequests st) LoanRequest.zero Hn).
  by rewrite Hids.
Qed.

Lemma getBorrowerActiveLoans_exact_witness :
  getBorrowerActiveLoans example_state 10
  = Ok ([0], [loanRequests example_state !!! 0]) /\
  LoanRequest.isActive (loanRequests example_state !!! 0) = false.
Proof.
  split; [|by vm_compute].
  rewrite (getBorrowerActiveLoans_exact example_state 10 ltac:(by vm_compute)).
  by vm_compute.
Defined.

(** X17 ([getAllActiveLoans]): the view returns the ids below [totalLoans]
    whose loan is not marked repaid and the ids below [totalRequests] whose
    request is still active, each list in ascending order and paired with
    the stored records, and it never fails. *)
Theorem getAllActiveLoans_exact st :
  totalLoans st <= MAX_UINT256 -> totalRequests st <= MAX_UINT256 ->
  let loanIds :=
    filter (fun i => ActiveLoan.isRepaid (activeLoans st !!! i) = false)
      (seqZ 0 (totalLoans st)) in
  let requestIds :=
    filter (fun i => LoanRequest.isActive (loanRequests st !!! i) = true)
      (seqZ 0 (totalRequests st)) in
  getAllActiveLoans st
  = Ok (loanIds, (fun i => activeLoans st !!! i) <$> loanIds,
        requestIds, (fun i => loanRequests st !!! i) <$> requestIds).
Proof.
  intros Hl Hr loanIds requestIds. unfold getAllActiveLoans.
  set (unrepaid := fun i : Z =>
         negb (ActiveLoan.isRepaid (activeLoans st !!! i))).
  set (active := fun i : Z => LoanRequest.isActive (loanRequests st !!! i)).
  assert (Hids : filter (fun i => unrepaid i = true) (seqZ 0 (totalLoans st))
                 = loanIds).
  { apply filter_ext_in. intros i _. unfold unrepaid.
    by destruct (ActiveLoan.isRepaid _). }
  rewrite !count_loop_spec by assumption. rewrite !bind_Ok.
  rewrite (fill_loop_spec unrepaid (fun i => activeLoans st !!! i)
             (totalLoans st) ActiveLoan.zero Hl).
  rewrite bind_Ok.
  rewrite (fill_loop_spec active (fun i => loanRequests st !!! i)
             (totalRequests st) LoanRequest.zero Hr).
  rewrite bind_Ok. by rewrite Hids.
Qed.

Lemma getAllActiveLoans_exact_witness :
  getAllActiveLoans example_state
  = Ok ([0], [activeLoans example_state !!! 0], [], []).
Proof.
  rewrite (getAllActiveLoans_exact example_state
             ltac:(by vm_compute) ltac:(by vm_compute)).
  by vm_compute.
Defined.

(** ** The real-estate index oracle *)

Lemma oracle_execute_cases (st : RealEstateOracle.State)
    (tx : address * RealEstateOracle.Call) :
  RealEstateOracle.execute st tx = st \/
  tx.1 = RealEstateOracle.owner st /\
  ((exists o, tx.2 = RealEstateOracle.TransferOwnership o /\ o <> 0 /\
      RealEstateOracle.execute st tx
      = {| RealEstateOracle.indexValue := RealEstateOracle.indexValue st;
           RealEstateOracle.owner := o |}) \/
   (exists v, tx.2 = RealEstateOracle.SetIndexValue v /\ 0 < v /\
      RealEstateOracle.execute st tx
      = {| RealEstateOracle.indexValue := v;
           RealEstateOracle.owner := RealEstateOracle.owner st |})).
Proof.
  destruct tx as [sender c]. unfold RealEstateOracle.execute. cbn [fst snd].
  destruct c as [o|v].
  - unfold RealEstateOracle.transferOwnership, RealEstateOracle.onlyOwner.
    destruct (Z.eqb_spec sender (RealEstateOracle.owner st)) as [Hs|Hs];
      [|by left].
    rewrite require_true, bind_Ok.
    destruct (Z.eqb_spec o 0) as [Ho|Ho]; [by left|].
    right. split; [exact Hs|]. left. exists o. by repeat split.
  - unfold RealEstateOracle.setIndexValue, RealEstateOracle.onlyOwner.
    destruct (Z.eqb_spec sender (RealEstateOracle.owner st)) as [Hs|Hs];
      [|by left].
    rewrite require_true, bind_Ok.
    destruct (Z.ltb_spec 0 v) as [Hv|Hv]; [|by left].
    right. split; [exact Hs|]. right. exists v. by repeat split.
Qed.

Lemma oracle_run_cons st tx txs :
  RealEstateOracle.run st (tx :: txs)
  = RealEstateOracle.run (RealEstateOracle.execute st tx) txs.
Proof. reflexivity. Qed.

Lemma oracle_run_positive txs : forall st,
  0 < RealEstateOracle.indexValue st ->
  0 < RealEstateOracle.indexValue (RealEstateOracle.run st txs).
Proof.
  induction txs as [|tx txs IH]; intros st Hpos; [exact Hpos|].
  rewrite oracle_run_cons. apply IH.
  destruct (oracle_execute_cases st tx)
    as [->|(_ & [(o & _ & _ & ->)|(v & _ & Hv & ->)])]; assumption.
Qed.

(** X18 ([RealEstateOracle]): a positive index stays positive.  Whatever
    calls are made to the oracle, by the owner or anyone else, an index that
    was positive is positive afterwards, and the oracle reports it with 8
    decimals; the constructor alone lets a non-positive index in. *)
Theorem oracle_index_stays_positive st txs :
  0 < RealEstateOracle.indexValue st ->
  0 < (RealEstateOracle.latestIndex (RealEstateOracle.run st txs)).1 /\
  (RealEstateOracle.latestIndex (RealEstateOracle.run st txs)).2 = 8 /\
  forall initialValue deployer,
    (RealEstateOracle.latestIndex
       (RealEstateOracle.constructor initialValue deployer).1).1
    = initialValue.
Proof.
  intros Hpos. split; [|by split].
  by apply oracle_run_positive.
Qed.

Lemma oracle_index_stays_positive_witness :
  0 < (RealEstateOracle.latestIndex
         (RealEstateOracle.run (RealEstateOracle.constructor 100 99).1
            [ (99, RealEstateOracle.SetIndexValue 0);
              (5, RealEstateOracle.SetIndexValue (-3));
              (99, RealEstateOracle.SetIndexValue 250);
              (99, RealEstateOracle.TransferOwnership 5);
              (5, RealEstateOracle.SetIndexValue (-7)) ])).1.
Proof.
  refine (proj1 (oracle_index_stays_positive
                   (RealEstateOracle.constructor 100 99).1 _ _)).
  by vm_compute.
Defined.



(** ** The platform's read of the index *)

Lemma execute_realEstateOracle st tx :
  realEstateOracle st <> 0 -> realEstateOracle (execute st tx) <> 0.
Proof.
  intros Hset. destruct tx as [env c]. unfold execute, state_after.
  cbn [fst snd].
  destruct (dispatch st env c) as [[st' acts]|e] eqn:Hd; [|exact Hset].
  destruct (is_admin c) eqn:Hadm.
  - destruct c; try discriminate Hadm; cbn [dispatch] in Hd.
    + unfold transferOwnership in Hd.
    apply nonPayable_Ok_inv in Hd as (_ & Hd).
      apply onlyOwner_Ok_inv in Hd as (_ & H). monad_inv H.
      by injection H as <- <-.
    + unfold pause in Hd.
    apply nonPayable_Ok_inv in Hd as (_ & Hd). apply onlyOwner_Ok_inv in Hd as (_ & H).
      by injection H as <- <-.
    + unfold unpause in Hd.
    apply nonPayable_Ok_inv in Hd as (_ & Hd). apply onlyOwner_Ok_inv in Hd as (_ & H).
      by injection H as <- <-.
    + unfold updateParams in Hd.
    apply nonPayable_Ok_inv in Hd as (_ & Hd). apply onlyOwner_Ok_inv in Hd as (_ & H).
      monad_inv H. by injection H as <- <-.
    + unfold updateOracle in Hd.
    apply nonPayable_Ok_inv in Hd as (_ & Hd). apply onlyOwner_Ok_inv in Hd as (_ & H).
      by destruct (_newFeed =? 0); injection H as <- <-.
    + unfold setDemoFixedEthUsdPrice in Hd.
    apply nonPayable_Ok_inv in Hd as (_ & Hd).
      apply onlyOwner_Ok_inv in Hd as (_ & H). monad_inv H.
      by injection H as <- <-.
    + unfold updateRealEstateOracle in Hd.
    apply nonPayable_Ok_inv in Hd as (_ & Hd).
      apply onlyOwner_Ok_inv in Hd as (_ & H).
      destruct (Z.eqb_spec _newOracle 0) as [Hz|Hnz]; [discriminate H|].
      cbn [negb] in H. rewrite require_true, bind_Ok in H.
      by injection H as <- <-.
  - apply dispatch_cases in Hd
      as [(a & d & r & mc & ec & pc & ac & pu & _ & ->)
         | [(rid & price & _ & _ & ->)
           | [(i & _ & ->) | (Hadm' & _)]]]; [exact Hset..|congruence].
Qed.

Lemma run_realEstateOracle txs : forall st,
  realEstateOracle st <> 0 -> realEstateOracle (run st txs) <> 0.
Proof.
  induction txs as [|tx txs IH]; intros st Hset; [exact Hset|].
  rewrite run_cons. apply IH. by apply execute_realEstateOracle.
Qed.

(** X20 ([getRealEstateIndex] over [updateRealEstateOracle] and
    [RealEstateOracle]): once the platform's real-estate oracle is set it
    stays set through every sequence of platform transactions, and when the
    contract at the configured address is an oracle whose index was positive,
    whatever calls that oracle went through, the platform's read succeeds
    with the oracle's current index, positive, and 8 decimals.  Before any
    oracle is configured the read fails with "RWA oracle not set", and a
    non-positive answer fails with "invalid RWA index". *)
Theorem real_estate_index_read st txs ost otxs
    (latestIndex : address -> Z * Z) :
  realEstateOracle st <> 0 ->
  0 < RealEstateOracle.indexValue ost ->
  latestIndex (realEstateOracle (run st txs))
  = RealEstateOracle.latestIndex (RealEstateOracle.run ost otxs) ->
  (exists v, getRealEstateIndex (run st txs) latestIndex = Ok (v, 8) /\
             0 < v /\
             v = RealEstateOracle.indexValue (RealEstateOracle.run ost otxs)) /\
  (forall feed deployer answers,
     getRealEstateIndex (constructor feed deployer) answers
     = Err (Revert "RWA oracle not set")) /\
  (forall answers, (answers (realEstateOracle (run st txs))).1 <= 0 ->
     getRealEstateIndex (run st txs) answers
     = Err (Revert "invalid RWA index")).
Proof.
  intros Hset Hpos Hans.
  pose proof (run_realEstateOracle txs st Hset) as Hset'.
  pose proof (oracle_run_positive otxs ost Hpos) as Hpos'.
  split; [|split].
  - exists (RealEstateOracle.indexValue (RealEstateOracle.run ost otxs)).
    split; [|by split].
    unfold getRealEstateIndex.
    rewrite (proj2 (Z.eqb_neq _ _) Hset'). cbn [negb].
    rewrite require_true, bind_Ok, Hans.
    unfold RealEstateOracle.latestIndex.
    by rewrite (proj2 (Z.ltb_lt _ _) Hpos').
  - reflexivity.
  - intros answers Hle. unfold getRealEstateIndex.
    rewrite (proj2 (Z.eqb_neq _ _) Hset'). cbn [negb].
    rewrite require_true, bind_Ok.
    destruct (answers (realEstateOracle (run st txs))) as [v d].
    cbn [fst] in Hle. by rewrite (proj2 (Z.ltb_ge _ _) Hle).
Qed.

Lemma real_estate_index_read_witness :
  exists v,
    getRealEstateIndex
      (run indexed_state [(example_env 99 0 3000, Pause)])
      (fun _ => RealEstateOracle.latestIndex
                  (RealEstateOracle.run example_oracle
                     [(99, RealEstateOracle.SetIndexValue 250)]))
    = Ok (v, 8) /\
    0 < v /\
    v = RealEstateOracle.indexValue
          (RealEstateOracle.run example_oracle
             [(99, RealEstateOracle.SetIndexValue 250)]).
Proof.
  refine (proj1 (real_estate_index_read indexed_state
                   [(example_env 99 0 3000, Pause)] example_oracle
                   [(99, RealEstateOracle.SetIndexValue 250)]
                   (fun _ => RealEstateOracle.latestIndex
                               (RealEstateOracle.run example_oracle
                                  [(99, RealEstateOracle.SetIndexValue 250)]))
                   _ _ _)).
  - by vm_compute.
  - by vm_compute.
  - reflexivity.
Defined.

(** ** Solvency *)

Lemma sum_upto_succ (f : Z -> Z) (n : Z) :
  0 <= n -> sum_upto f (n + 1) = sum_upto f n + f n.
Proof.
  intros Hn. unfold sum_upto. rewrite seqZ_snoc by exact Hn.
  rewrite foldr_app. cbn [foldr].
  generalize (seqZ 0 n). intros l. induction l as [|i l IH]; cbn [foldr]; lia.
Qed.

Lemma sum_upto_ext (f g : Z -> Z) (n : Z) :
  (forall i, 0 <= i < n -> f i = g i) -> sum_upto f n = sum_upto g n.
Proof.
  intros Hext. unfold sum_upto.
  assert (Hl : forall i, i ∈ seqZ 0 n -> f i = g i).
  { intros i Hi. apply Hext. by apply elem_of_seqZ_lt. }
  revert Hl. generalize (seqZ 0 n). intros l.
  induction l as [|i l IH]; intros Hl; [reflexivity|].
  cbn [foldr]. rewrite (Hl i) by left. rewrite IH; [reflexivity|].
  intros j Hj. apply Hl. by right.
Qed.

Lemma sum_upto_update_nat (f g : Z -> Z) (k : Z) (m : nat) :
  0 <= k < Z.of_nat m ->
  (forall i, i <> k -> g i = f i) ->
  sum_upto g (Z.of_nat m) = sum_upto f (Z.of_nat m) - f k + g k.
Proof.
  intros Hk Hext. induction m as [|m IH]; [lia|].
  rewrite Nat2Z.inj_succ, <- Z.add_1_r.
  rewrite !sum_upto_succ by lia.
  destruct (Z.eq_dec k (Z.of_nat m)) as [->|Hne].
  - rewrite (sum_upto_ext g f); [lia|].
    intros i Hi. apply Hext. lia.
  - rewrite IH by lia. rewrite (Hext (Z.of_nat m)) by congruence. lia.
Qed.

Lemma sum_upto_update (f g : Z -> Z) (k n : Z) :
  0 <= k < n ->
  (forall i, i <> k -> g i = f i) ->
  sum_upto g n = sum_upto f n - f k + g k.
Proof.
  intros Hk Hext. rewrite <- (Z2Nat.id n) by lia.
  apply sum_upto_update_nat; [lia|exact Hext].
Qed.

Lemma sum_upto_nonneg (f : Z -> Z) (n : Z) :
  (forall i, 0 <= f i) -> 0 <= sum_upto f n.
Proof.
  intros Hf. unfold sum_upto. generalize (seqZ 0 n). intros l.
  induction l as [|i l IH]; cbn [foldr]; [lia|]. specialize (Hf i). lia.
Qed.

Lemma sum_upto_term (f : Z -> Z) (k n : Z) :
  (forall i, 0 <= f i) -> 0 <= k < n -> f k <= sum_upto f n.
Proof.
  intros Hf Hk.
  set (g := fun i => if decide (i = k) then 0 else f i).
  assert (Hg : forall i, 0 <= g i).
  { intros i. unfold g. case_decide; [lia|apply Hf]. }
  assert (H : sum_upto g n = sum_upto f n - f k + g k).
  { apply sum_upto_update; [exact Hk|].
    intros i Hi. unfold g. by rewrite decide_False. }
  pose proof (sum_upto_nonneg g n Hg) as Hpos.
  assert (Hgk : g k = 0) by (unfold g; by rewrite decide_True).
  lia.
Qed.

Ltac ledger_simpl :=
  cbn [loanRequests activeLoans totalRequests totalLoans
       set_loanRequests set_activeLoans set_totalRequests set_totalLoans
       set_reentrancyStatus set_loanIndexes].

Lemma locked_same_ledger st st' : same_ledger st st' -> locked st' = locked st.
Proof.
  intros (E1 & E2 & E3 & E4 & _). unfold locked. rewrite E3, E4.
  f_equal; apply sum_upto_ext; intros i _.
  - unfold request_locked. by rewrite E1.
  - unfold loan_locked. by rewrite E2.
Qed.

Lemma locked_requested st env a d r mc ec pc ac pu :
  0 <= totalRequests st ->
  locked (requested st env a d r mc ec pc ac pu) = locked st + msg_value env.
Proof.
  intros Hn. unfold locked, requested. ledger_simpl.
  rewrite sum_upto_succ by exact Hn.
  assert (Hnew : request_locked
            (set_loanRequests (set_totalRequests st (totalRequests st + 1))
               (<[totalRequests st :=
                    LoanRequest.mk (msg_sender env) a d true (msg_value env) r
                      mc ec pc ac pu]> (loanRequests st)))
            (totalRequests st) = msg_value env).
  { unfold request_locked. ledger_simpl. by rewrite lookup_total_insert_eq. }
  rewrite Hnew.
  rewrite (sum_upto_ext _ (request_locked st) (totalRequests st)).
  - rewrite (sum_upto_ext _ (loan_locked st) (totalLoans st)); [lia|].
    intros i _. reflexivity.
  - intros i Hi. unfold request_locked. ledger_simpl.
    by rewrite lookup_total_insert_ne by lia.
Qed.

Lemma locked_funded st env _requestId price :
  0 <= _requestId < totalRequests st -> 0 <= totalLoans st ->
  LoanRequest.isActive (loanRequests st !!! _requestId) = true ->
  locked (funded st env _requestId price)
  = locked st - LoanRequest.stake (loanRequests st !!! _requestId)
    + (if ActiveLoan.isRepaid (activeLoans st !!! totalLoans st) then 0
       else LoanRequest.stake (loanRequests st !!! _requestId)).
Proof.
  intros Hid Hm Hact. unfold locked.
  assert (Hreq : sum_upto (request_locked (funded st env _requestId price))
                   (totalRequests (funded st env _requestId price))
                 = sum_upto (request_locked st) (totalRequests st)
                   - LoanRequest.stake (loanRequests st !!! _requestId)).
  { unfold funded at 2. ledger_simpl.
    rewrite (sum_upto_update (request_locked st)
               (request_locked (funded st env _requestId price))
               _requestId (totalRequests st) Hid).
    - assert (H0 : request_locked (funded st env _requestId price) _requestId
                   = 0).
      { unfold request_locked, funded. ledger_simpl.
        by rewrite lookup_total_insert_eq. }
      assert (H1 : request_locked st _requestId
                   = LoanRequest.stake (loanRequests st !!! _requestId)).
      { unfold request_locked. by rewrite Hact. }
      lia.
    - intros i Hi. unfold request_locked, funded. ledger_simpl.
      by rewrite lookup_total_insert_ne by congruence. }
  assert (Hloan : sum_upto (loan_locked (funded st env _requestId price))
                    (totalLoans (funded st env _requestId price))
                  = sum_upto (loan_locked st) (totalLoans st)
                    + (if ActiveLoan.isRepaid (activeLoans st !!! totalLoans st)
                       then 0
                       else LoanRequest.stake
                              (loanRequests st !!! _requestId))).
  { unfold funded at 2. ledger_simpl.
    rewrite sum_upto_succ by exact Hm.
    assert (Hnew : loan_locked (funded st env _requestId price) (totalLoans st)
                   = if ActiveLoan.isRepaid (activeLoans st !!! totalLoans st)
                     then 0
                     else LoanRequest.stake (loanRequests st !!! _requestId)).
    { unfold loan_locked, funded. ledger_simpl.
      by rewrite lookup_total_insert_eq. }
    rewrite Hnew.
    rewrite (sum_upto_ext _ (loan_locked st) (totalLoans st)); [lia|].
    intros i Hi. unfold loan_locked, funded. ledger_simpl.
    by rewrite lookup_total_insert_ne by lia. }
  rewrite Hreq, Hloan. lia.
Qed.

Lemma locked_settled st _loanId :
  (forall i, ~ (0 <= i < totalLoans st) ->
             ActiveLoan.stake (activeLoans st !!! i) = 0) ->
  ActiveLoan.isRepaid (activeLoans st !!! _loanId) = false ->
  locked (settled st _loanId)
  = locked st - ActiveLoan.stake (activeLoans st !!! _loanId).
Proof.
  intros Hun Hrep. unfold locked.
  assert (Hreq : sum_upto (request_locked (settled st _loanId))
                   (totalRequests (settled st _loanId))
                 = sum_upto (request_locked st) (totalRequests st)).
  { apply sum_upto_ext. intros i _. reflexivity. }
  rewrite Hreq.
  assert (Heq : forall i, i <> _loanId ->
            loan_locked (settled st _loanId) i = loan_locked st i).
  { intros i Hi. unfold loan_locked, settled. ledger_simpl.
    by rewrite lookup_total_insert_ne by congruence. }
  assert (H0 : loan_locked (settled st _loanId) _loanId = 0).
  { unfold loan_locked, settled. ledger_simpl.
    by rewrite lookup_total_insert_eq. }
  assert (H1 : loan_locked st _loanId
               = ActiveLoan.stake (activeLoans st !!! _loanId)).
  { unfold loan_locked. by rewrite Hrep. }
  change (totalLoans (settled st _loanId)) with (totalLoans st).
  destruct (decide (0 <= _loanId < totalLoans st)) as [Hin|Hout].
  - rewrite (sum_upto_update (loan_locked st)
               (loan_locked (settled st _loanId)) _loanId (totalLoans st)
               Hin Heq).
    lia.
  - rewrite (Hun _ Hout).
    rewrite (sum_upto_ext (loan_locked (settled st _loanId)) (loan_locked st)).
    + lia.
    + intros i Hi. apply Heq. lia.
Qed.

Lemma solvent_settled st balance _loanId :
  solvent st balance ->
  ActiveLoan.isRepaid (activeLoans st !!! _loanId) = false ->
  solvent (settled st _loanId)
    (balance - ActiveLoan.stake (activeLoans st !!! _loanId)).
Proof.
  intros [Hn Hm Hact Hun Hcov] Hrep. constructor.
  - exact Hn.
  - exact Hm.
  - exact Hact.
  - intros i Hi. unfold settled. ledger_simpl.
    rewrite lookup_total_insert. case_decide as Heq; [|by apply Hun].
    cbn [ActiveLoan.stake ActiveLoan.set_isRepaid]. apply Hun. by rewrite Heq.
  - rewrite (locked_settled st _loanId Hun Hrep). lia.
Qed.

Lemma dispatch_solvent st balance env c st' acts :
  wf_tx (env, c) = true -> ledger_invariant st -> solvent st balance ->
  dispatch st env c = Ok (st', acts) ->
  solvent st' (balance + msg_value env - outflow acts).
Proof.
  intros Hwf Hinv Hsol Hd.
  assert (Hv : 0 <= msg_value env).
  { unfold wf_tx, wf_env in Hwf. cbn [fst snd] in Hwf.
    apply andb_true_iff in Hwf as [Henv _].
    apply andb_true_iff in Henv as [Hval _].
    by apply is_uint256_spec in Hval as [? _]. }
  rewrite (dispatch_outflow _ _ _ _ _ Hd).
  destruct (is_admin c) eqn:Hadm.
  { destruct (admin_same_ledger _ _ _ _ _ Hadm Hd) as [Hsame _].
    pose proof (locked_same_ledger _ _ Hsame) as Hlocked.
    destruct Hsame as (E1 & E2 & E3 & E4 & _).
    destruct Hsol as [Hn Hm Hact Hun Hcov].
    assert (Hout : expected_outflow st env c = 0) by (by destruct c).
    constructor; rewrite ?E1, ?E2, ?E3, ?E4; try assumption. lia. }
  destruct c; try discriminate Hadm; cbn [dispatch expected_outflow] in *.
  - apply createLoanRequest_Ok_inv in Hd as (_ & _ & _ & _ & _ & _ & ->).
    destruct Hsol as [Hn Hm Hact Hun Hcov].
    pose proof (locked_requested st env _loanAmount _durationInDays
                  _interestRate _metadataCommitment _encryptedCid
                  _propertyIdCommitment _appraisalEncryptedCid
                  _propertyUnits Hn) as Hl.
    unfold requested in Hl.
    constructor; ledger_simpl; try assumption; [lia| |lia].
    intros i. rewrite lookup_total_insert. case_decide as Hi; [lia|].
    intros H. specialize (Hact i H). lia.
  - apply fundLoanRequest_characterized in Hd
      as (_ & _ & Hactive & _ & _ & _ & _ & _ & price & _ & -> & _).
    destruct Hsol as [Hn Hm Hact Hun Hcov].
    pose proof (Hact _ Hactive) as Hid.
    pose proof (locked_funded st env _requestId price Hid Hm Hactive) as Hl.
    destruct Hinv as [_ Hreq _].
    destruct (Hreq _requestId) as (Hst & Ha & _).
    constructor.
    + exact Hn.
    + unfold funded. ledger_simpl. lia.
    + intros i. unfold funded. ledger_simpl.
      rewrite lookup_total_insert. case_decide as Hi; [discriminate|].
      apply Hact.
    + intros i Hi. unfold funded in *. ledger_simpl.
      cbn [totalLoans set_reentrancyStatus set_loanIndexes set_loanRequests
           set_activeLoans set_totalLoans] in Hi.
      rewrite lookup_total_insert_ne by lia. apply Hun. lia.
    + rewrite Hl.
      destruct (ActiveLoan.isRepaid (activeLoans st !!! totalLoans st)); lia.
  - apply repayLoan_Ok_inv in Hd
      as (_ & _ & _ & Hrep & _ & base & due & _ & _ & _ & -> & _).
    replace (balance + msg_value env
             - (msg_value env + ActiveLoan.stake (activeLoans st !!! _loanId)))
      with (balance - ActiveLoan.stake (activeLoans st !!! _loanId)) by lia.
    by apply solvent_settled.
  - pose proof (liquidateExpiredLoan_Ok_inv _ _ _ _ _ Hd) as (_ & Hrep & _).
    apply liquidateExpiredLoan_Ok_loans in Hd as ->.
    destruct Hsol as [Hn Hm Hact Hun Hcov].
    pose proof (locked_settled st _loanId Hun Hrep) as Hl.
    constructor.
    + exact Hn.
    + exact Hm.
    + exact Hact.
    + intros i Hi. unfold settled. ledger_simpl.
      rewrite lookup_total_insert. case_decide as Heq; [|by apply Hun].
      cbn [ActiveLoan.stake ActiveLoan.set_isRepaid]. apply Hun.
      by rewrite Heq.
    + lia.
Qed.

Lemma execute_solvent st balance tx :
  wf_tx tx = true -> ledger_invariant st -> solvent st balance ->
  solvent (execute st tx) (balance_step st balance tx).
Proof.
  intros Hwf Hinv Hsol. destruct tx as [env c].
  unfold execute, state_after, balance_step. cbn [fst snd].
  destruct (dispatch st env c) as [[st' acts]|e] eqn:Hd; [|exact Hsol].
  by eapply dispatch_solvent.
Qed.

Lemma run_solvent txs : forall st balance,
  Forall (fun tx => wf_tx tx = true) txs ->
  ledger_invariant st -> solvent st balance ->
  solvent (run st txs) (balance_after st balance txs).
Proof.
  induction txs as [|tx txs IH]; intros st balance Hall Hinv Hsol;
    [exact Hsol|].
  apply Forall_cons_1 in Hall as [Htx Hall].
  rewrite run_cons. cbn [balance_after]. apply IH.
  - exact Hall.
  - by apply execute_invariant.
  - by apply execute_solvent.
Qed.

Lemma constructor_solvent feed deployer : solvent (constructor feed deployer) 0.
Proof.
  constructor; cbn [constructor totalRequests totalLoans loanRequests
                    activeLoans].
  - lia.
  - lia.
  - intros i. rewrite lookup_total_empty. discriminate.
  - intros i _. by rewrite lookup_total_empty.
  - by vm_compute.
Qed.

Lemma locked_nonneg st : ledger_invariant st -> 0 <= locked st.
Proof.
  intros [_ Hreq Hloan]. unfold locked.
  assert (0 <= sum_upto (request_locked st) (totalRequests st)).
  { apply sum_upto_nonneg. intros i. unfold request_locked.
    destruct (Hreq i) as (Hst & Ha & _).
    destruct (LoanRequest.isActive _); lia. }
  assert (0 <= sum_upto (loan_locked st) (totalLoans st)).
  { apply sum_upto_nonneg. intros i. unfold loan_locked.
    destruct (Hloan i) as (_ & _ & _ & Hwf).
    apply ActiveLoan_wf_spec in Hwf as (_ & Hs & _).
    destruct (ActiveLoan.isRepaid _); lia. }
  lia.
Qed.

Lemma payable_tx_wf tx : payable_tx tx = true -> wf_tx tx = true.
Proof. unfold payable_tx. by intros [H _]%andb_true_iff. Qed.

(** X21 (solvency, over [createLoanRequest], [fundLoanRequest], [repayLoan],
    [liquidateExpiredLoan] and the owner controls): in every state reached
    from deployment, starting with an empty balance, the contract's balance
    covers the stakes of all active requests and of all loans not yet repaid
    or liquidated; hence every successful call can afford what it sends out
    from the balance and the value attached to it, and leaves the stakes of
    the others covered. *)
Theorem platform_solvent feed deployer txs :
  Forall (fun tx => payable_tx tx = true) txs ->
  let st := run (constructor feed deployer) txs in
  let balance := balance_after (constructor feed deployer) 0 txs in
  0 <= locked st <= balance /\
  forall env c st' acts,
    payable_tx (env, c) = true ->
    dispatch st env c = Ok (st', acts) ->
    outflow acts <= balance + msg_value env /\
    locked st' <= balance + msg_value env - outflow acts.
Proof.
  intros Hall st balance.
  assert (Hwf : Forall (fun tx => wf_tx tx = true) txs).
  { eapply Forall_impl; [exact Hall|]. intros tx. apply payable_tx_wf. }
  pose proof (reachable_invariant feed deployer txs Hwf) as Hinv.
  pose proof (run_solvent txs (constructor feed deployer) 0 Hwf
                (reachable_invariant feed deployer [] (Forall_nil_2 _))
                (constructor_solvent feed deployer)) as Hsol.
  fold st in Hinv, Hsol. fold balance in Hsol.
  split.
  - split; [by apply locked_nonneg|]. by destruct Hsol.
  - intros env c st' acts Htx Hd.
    apply payable_tx_wf in Htx.
    pose proof (dispatch_solvent st balance env c st' acts Htx Hinv Hsol Hd)
      as [_ _ _ _ Hcov].
    pose proof (dispatch_invariant st env c st' acts Htx Hinv Hd) as Hinv'.
    pose proof (locked_nonneg st' Hinv'). lia.
Qed.

Lemma platform_solvent_witness :
  0 <= locked example_state
    <= balance_after (constructor 0 99) 0
         [ (example_env 10 (20 * 10 ^ 18) 1000,
            CreateLoanRequest (10 * 10 ^ 18) 365 5 0 "cid" 0 "appraisal" 1);
           (example_env 20 (10 * 10 ^ 18) 1000, FundLoanRequest 0) ].
Proof.
  refine (proj1 (platform_solvent 0 99
            [ (example_env 10 (20 * 10 ^ 18) 1000,
               CreateLoanRequest (10 * 10 ^ 18) 365 5 0 "cid" 0 "appraisal" 1);
              (example_env 20 (10 * 10 ^ 18) 1000, FundLoanRequest 0) ] _)).
  repeat constructor.
Defined.

(** ** The price read from a feed *)

(** X22 ([_getEthUsdPrice]): with a feed configured, the price is read
    exactly when the feed's answer is positive, its update time is not in the
    future and at most the staleness bound old, and the answer scaled by
    10^10 fits in 256 bits; the price is then that scaled answer.  An update
    time later than the block time, or a scaled answer that does not fit,
    makes the read fail with the arithmetic panic 0x11 rather than with a
    reason. *)
Theorem price_read_exact st env p :
  ethUsdFeed st <> 0 ->
  let rd := latestRoundData env (ethUsdFeed st) in
  (_getEthUsdPrice st env = Ok p <->
   0 < answer rd /\ updatedAt rd <= block_timestamp env /\
   block_timestamp env - updatedAt rd <= maxPriceStalenessSeconds st /\
   answer rd * 10 ^ 10 <= MAX_UINT256 /\ p = answer rd * 10 ^ 10) /\
  (0 < answer rd -> block_timestamp env < updatedAt rd ->
   _getEthUsdPrice st env = Err (Panic 0x11)) /\
  (0 < answer rd -> updatedAt rd <= block_timestamp env ->
   block_timestamp env - updatedAt rd <= maxPriceStalenessSeconds st ->
   MAX_UINT256 < answer rd * 10 ^ 10 ->
   _getEthUsdPrice st env = Err (Panic 0x11)).
Proof.
  intros Hf rd. unfold _getEthUsdPrice.
  rewrite (proj2 (Z.eqb_neq _ _) Hf). fold rd.
  change _1e10 with (10 ^ 10).
  unfold checked_sub, checked_mul.
  split; [|split].
  - split.
    + destruct (Z.ltb_spec 0 (answer rd)) as [Ha|]; [|discriminate].
      rewrite require_true, bind_Ok.
      destruct (Z.leb_spec (updatedAt rd) (block_timestamp env)) as [Hu|];
        [|discriminate].
      rewrite bind_Ok.
      destruct (Z.leb_spec (block_timestamp env - updatedAt rd)
                  (maxPriceStalenessSeconds st)) as [Hs|]; [|discriminate].
      rewrite require_true, bind_Ok.
      destruct (Z.leb_spec (answer rd * 10 ^ 10) MAX_UINT256) as [Hm|];
        [|discriminate].
      intros [= <-]. by repeat split.
    + intros (Ha & Hu & Hs & Hm & ->).
      rewrite (proj2 (Z.ltb_lt _ _) Ha), require_true, bind_Ok.
      rewrite (proj2 (Z.leb_le _ _) Hu), bind_Ok.
      rewrite (proj2 (Z.leb_le _ _) Hs), require_true, bind_Ok.
      by rewrite (proj2 (Z.leb_le _ _) Hm).
  - intros Ha Hu.
    rewrite (proj2 (Z.ltb_lt _ _) Ha), require_true, bind_Ok.
    by rewrite (proj2 (Z.leb_gt _ _) Hu).
  - intros Ha Hu Hs Hm.
    rewrite (proj2 (Z.ltb_lt _ _) Ha), require_true, bind_Ok.
    rewrite (proj2 (Z.leb_le _ _) Hu), bind_Ok.
    rewrite (proj2 (Z.leb_le _ _) Hs), require_true, bind_Ok.
    by rewrite (proj2 (Z.leb_gt _ _) Hm).
Qed.

Lemma price_read_exact_witness :
  _getEthUsdPrice feed_state (feed_env 10 0 2000 (2000 * 10 ^ 8) 2500)
  = Err (Panic 0x11).
Proof.
  refine (proj1 (proj2 (price_read_exact feed_state
            (feed_env 10 0 2000 (2000 * 10 ^ 8) 2500) 0 _)) _ _).
  - by vm_compute.
  - by vm_compute.
  - by vm_compute.
Defined.
